(** * transcripts.py: extraction of grades from transcript text

    A shallow embedding of [src/transcripts.py].  The program is regular
    expression glue over one flat string, a credit table that every
    extraction call reads and writes, and a credit-weighted average in
    double precision.  The development follows that shape:

    - [Re]: the fragment of Python's [re] used by the program, as a
      backtracking matcher with capture groups, with [findall], [split]
      and [sub] on top of one left-to-right scan;
    - [Dict]: Python's insertion-ordered [dict] with string keys;
    - [Exc]: results that may raise, and the state-and-exception monad of
      the code that mutates the credit table;
    - the functions of [transcripts.py], in the order of the file;
    - the properties;
    - the run on a file: [analyze_transcripts] and the [main] of
      [transcript_runner.py], with their properties. *)

From Stdlib Require Import Bool Arith Lia List Ascii String ZArith Floats.
Import ListNotations.
Open Scope string_scope.
Set Warnings "-inexact-float".

(** ** Strings *)

Definition nl : ascii := "010"%char.

Fixpoint take (n : nat) (s : string) : string :=
  match n, s with
  | S n', String c s' => String c (take n' s')
  | _, _ => EmptyString
  end.

Fixpoint drop (n : nat) (s : string) : string :=
  match n, s with
  | S n', String _ s' => drop n' s'
  | _, _ => s
  end.

(** The text between a position [s] and a later position [rest] of the
    same subject string, both given as the suffix that starts there. *)
Definition consumed (s rest : string) : string :=
  take (String.length s - String.length rest) s.

Fixpoint starts_with (d s : string) : bool :=
  match d, s with
  | EmptyString, _ => true
  | String a d', String b s' => Ascii.eqb a b && starts_with d' s'
  | String _ _, EmptyString => false
  end.

(** The concatenation of a list of strings. *)
Fixpoint join (l : list string) : string :=
  match l with
  | [] => EmptyString
  | x :: l' => x ++ join l'
  end.

(** ** The regular expressions of the program *)

Module Re.

Definition charset := ascii -> bool.

(** Every quantifier of the program's patterns ([.*], [[0-9]+],
    [[A-Z]?], [\+?], [\-?], [ +], [ *]) applies to a one-character item,
    so the quantified item is a character set. *)
Inductive regex : Type :=
| Eps
| Atom (p : charset)
| Seq (r1 r2 : regex)
| Alt (r1 r2 : regex)
| Star (p : charset)
| Grp (r : regex).

Definition chr (a : ascii) : charset := Ascii.eqb a.
(** [.] without DOTALL: anything but a newline. *)
Definition dot : charset := fun c => negb (Ascii.eqb c nl).
Definition range (lo hi : ascii) : charset :=
  fun c => Nat.leb (nat_of_ascii lo) (nat_of_ascii c)
           && Nat.leb (nat_of_ascii c) (nat_of_ascii hi).
Definition digit : charset := range "0"%char "9"%char.
Definition upper : charset := range "A"%char "Z"%char.

Fixpoint lit (s : string) : regex :=
  match s with
  | EmptyString => Eps
  | String c s' => Seq (Atom (chr c)) (lit s')
  end.

Definition Plus (p : charset) : regex := Seq (Atom p) (Star p).
(** Greedy [?]: the item is tried before the empty match. *)
Definition Opt (p : charset) : regex := Alt (Atom p) Eps.

Fixpoint seqs (rs : list regex) : regex :=
  match rs with
  | [] => Eps
  | [r] => r
  | r :: rs' => Seq r (seqs rs')
  end.

Section Exec.
Context {A : Type}.

(** Greedy repetition of a character set: the longest run first, then
    shorter ones as the continuation fails. *)
Fixpoint star (p : charset) (s : string) (k : string -> option A) : option A :=
  match s with
  | String c s' =>
      if p c then
        match star p s' k with
        | Some a => Some a
        | None => k s
        end
      else k s
  | EmptyString => k s
  end.

(** The backtracking matcher, in continuation-passing style: [k]
    receives the rest of the subject and the groups closed so far, and
    the first success in Python's order of preference is returned. *)
Fixpoint exec (r : regex) (s : string) (gs : list string)
         (k : string -> list string -> option A) : option A :=
  match r with
  | Eps => k s gs
  | Atom p =>
      match s with
      | String c s' => if p c then k s' gs else None
      | EmptyString => None
      end
  | Seq r1 r2 => exec r1 s gs (fun s1 g1 => exec r2 s1 g1 k)
  | Alt r1 r2 =>
      match exec r1 s gs k with
      | Some a => Some a
      | None => exec r2 s gs k
      end
  | Star p => star p s (fun s' => k s' gs)
  | Grp r1 => exec r1 s gs (fun s' g' => k s' (g' ++ [consumed s s'])%list)
  end.
End Exec.

(** A match anchored at the start of [s]: the groups and the rest. *)
Definition match_here (r : regex) (s : string) : option (list string * string) :=
  exec r s [] (fun s' gs => Some (gs, s')).

(** One match of a scan: the text since the end of the previous match,
    the matched text and the groups. *)
Record mt : Type := mk_mt { m_pre : string; m_text : string; m_groups : list string }.

(** The scan behind [findall], [split] and [sub]: leftmost matches that
    do not overlap.  [skip] counts the characters of the last match
    still to be passed, [pre] is the text since the end of the last
    match.  After an empty match the scan moves on by one character; no
    pattern of the program matches the empty string. *)
Fixpoint scan (r : regex) (s : string) (skip : nat) (pre : string)
  {struct s} : list mt * string :=
  match skip with
  | S n =>
      match s with
      | EmptyString => ([], pre)
      | String _ s' => scan r s' n pre
      end
  | O =>
      match match_here r s with
      | Some (gs, rest) =>
          let m := mk_mt pre (consumed s rest) gs in
          match s with
          | EmptyString => ([m], EmptyString)
          | String c s' =>
              let '(ms, tl) :=
                match String.length (consumed s rest) with
                | O => scan r s' 0 (String c EmptyString)
                | S n => scan r s' n EmptyString
                end in
              (m :: ms, tl)
          end
      | None =>
          match s with
          | EmptyString => ([], pre)
          | String c s' => scan r s' 0 (pre ++ String c EmptyString)
          end
      end
  end.

Definition finditer (r : regex) (s : string) : list mt * string := scan r s 0 EmptyString.

(** [re.findall] for a pattern without group: the matched texts. *)
Definition findall (r : regex) (s : string) : list string :=
  map m_text (fst (finditer r s)).

(** [re.findall] for a pattern with one group: the group of each match. *)
Definition findall1 (r : regex) (s : string) : list string :=
  map (fun m => nth 0 (m_groups m) EmptyString) (fst (finditer r s)).

(** [re.findall] for a pattern with several groups: the tuple of groups
    of each match. *)
Definition findalln (r : regex) (s : string) : list (list string) :=
  map m_groups (fst (finditer r s)).

(** [re.split]: the pieces between the matches, the groups of each
    match in between. *)
Definition split (r : regex) (s : string) : list string :=
  let '(ms, tl) := finditer r s in
  (flat_map (fun m => m_pre m :: m_groups m) ms ++ [tl])%list.

(** [re.sub], the replacement template as a function of the groups. *)
Definition sub (r : regex) (repl : list string -> string) (s : string) : string :=
  let '(ms, tl) := finditer r s in
  join (map (fun m => m_pre m ++ repl (m_groups m)) ms) ++ tl.

End Re.

Import Re.


(** ** Python's [dict] with string keys

    Iteration follows insertion order, and assigning to a key that is
    present keeps its place: the order matters here, since the sums of
    [subj_summary] add doubles in iteration order. *)

Module Dict.

Definition dict (V : Type) : Type := list (string * V).

Section Ops.
Context {V : Type}.

Fixpoint get (d : dict V) (k : string) : option V :=
  match d with
  | [] => None
  | (k', v) :: d' => if String.eqb k' k then Some v else get d' k
  end.

Definition mem (d : dict V) (k : string) : bool :=
  match get d k with Some _ => true | None => false end.

(** [d[k] = v] *)
Fixpoint set (d : dict V) (k : string) (v : V) : dict V :=
  match d with
  | [] => [(k, v)]
  | (k', v') :: d' =>
      if String.eqb k' k then (k', v) :: d' else (k', v') :: set d' k v
  end.

(** [d.update(e)] *)
Definition update (d e : dict V) : dict V :=
  fold_left (fun acc kv => set acc (fst kv) (snd kv)) e d.

Definition keys (d : dict V) : list string := map fst d.
End Ops.

Definition map_values {V W : Type} (f : V -> W) (d : dict V) : dict W :=
  map (fun kv => (fst kv, f (snd kv))) d.

End Dict.

Import Dict.

(** ** Exceptions, and the credit table as state *)

Inductive exn : Type :=
| IndexError
| KeyError
| ValueError
| Exception (msg : string).

Inductive result (A : Type) : Type :=
| Ok (a : A)
| Raise (e : exn).
Arguments Ok {A} a.
Arguments Raise {A} e.

Definition rbind {A B : Type} (r : result A) (f : A -> result B) : result B :=
  match r with
  | Ok a => f a
  | Raise e => Raise e
  end.

(** [l[i]] for a Python list, negative indexes counted from the end. *)
Definition py_index {A : Type} (l : list A) (i : Z) : result A :=
  let n := Z.of_nat (List.length l) in
  let j := if (i <? 0)%Z then (i + n)%Z else i in
  if (j <? 0)%Z then Raise IndexError
  else match nth_error l (Z.to_nat j) with
       | Some a => Ok a
       | None => Raise IndexError
       end.

(** The credit table [creds] is one object that every call mutates in
    place: a computation takes the table and returns it with its result.
    What was written before an exception stays written. *)
Definition M (A : Type) : Type := dict float -> result A * dict float.

Definition ret {A : Type} (a : A) : M A := fun c => (Ok a, c).
Definition raise {A : Type} (e : exn) : M A := fun c => (Raise e, c).
Definition lift {A : Type} (r : result A) : M A := fun c => (r, c).
Definition bind {A B : Type} (m : M A) (f : A -> M B) : M B :=
  fun c =>
    match m c with
    | (Ok a, c') => f a c'
    | (Raise e, c') => (Raise e, c')
    end.
Definition read_creds : M (dict float) := fun c => (Ok c, c).
Definition set_cred (k : string) (v : float) : M unit := fun c => (Ok tt, Dict.set c k v).

Declare Scope py_scope.
Delimit Scope py_scope with py.
Notation "x <- m ;; k" := (bind m (fun x => k))
  (at level 61, m at next level, right associativity) : py_scope.
Notation "m ;;; k" := (bind m (fun _ => k))
  (at level 61, right associativity) : py_scope.
Notation "x <~ r ;; k" := (rbind r (fun x => k))
  (at level 61, r at next level, right associativity) : py_scope.
Open Scope py_scope.

(** [for x in l: acc = body x acc], stopped by the first exception. *)
Fixpoint for_each {A S : Type} (l : list A) (body : A -> S -> M S) (acc : S) : M S :=
  match l with
  | [] => ret acc
  | x :: l' => acc' <- body x acc ;; for_each l' body acc'
  end.

Fixpoint rfor_each {A S : Type} (l : list A) (body : A -> S -> result S) (acc : S)
  : result S :=
  match l with
  | [] => Ok acc
  | x :: l' => acc' <~ body x acc ;; rfor_each l' body acc'
  end.

(** ** Values of a record *)

Inductive value : Type :=
| VStr (s : string)
| VInt (n : Z)
| VFloat (f : float).

(** [sum] of a list of doubles: additions from the left, starting from
    the integer 0, which the first addition converts to [0.0] (CPython
    before 3.12; later versions compensate the rounding errors). *)
Definition py_sum (l : list float) : float := fold_left PrimFloat.add l 0%float.

(** The value [sum] returns: the integer 0 itself for an empty list. *)
Definition py_sum_value (l : list float) : value :=
  match l with
  | [] => VInt 0
  | _ :: _ => VFloat (py_sum l)
  end.

(** [float] on a token [d.dd], the only shape [grades_of_subj] passes:
    the double nearest to the decimal, which is what the division of the
    two exactly represented integers rounds to. *)
Definition digit_val (c : ascii) : Z := (Z.of_nat (nat_of_ascii c) - 48)%Z.

Definition py_float (s : string) : result float :=
  match s with
  | String a (String p (String b (String c EmptyString))) =>
      if digit a && Ascii.eqb p "."%char && digit b && digit c then
        Ok (PrimFloat.div
              (PrimFloat.of_uint63
                 (Uint63.of_Z (100 * digit_val a + 10 * digit_val b + digit_val c)))
              100%float)
      else Raise ValueError
  | _ => Raise ValueError
  end.


(** ** The module's global variables

    "Global variables are designed to be modified": the functions read
    them when they are called, so they are a parameter of the model, and
    [globals] holds the values the file assigns. *)

Record config : Type := mk_config {
  CURR_SEM : string;
  SUBJECTS : list string;
  IGNORE_COURSES : dict (list string);
  GPA_VAL : dict float
}.

Definition globals : config := {|
  CURR_SEM := "S22";
  SUBJECTS := ["MTH"; "PHY"];
  IGNORE_COURSES :=
    [("MTH", ["MTH 1"; "MTH 3"; "MTH 4"; "MTH 5"; "MTH 6"; "MTH 15"; "MTH 16";
              "MTH 19"; "MTH 90"]);
     ("PHY", ["PHY 3"; "PHY 4"])];
  GPA_VAL :=
    [("A", 4.0%float); ("A-", 3.667%float); ("B+", 3.333%float); ("B", 3.0%float);
     ("B-", 2.667%float); ("C+", 2.333%float); ("C", 2.0%float); ("C-", 1.667%float);
     ("D", 1.0%float); ("F", 0.0%float)]
|}.

(** [x in s] for a set of strings. *)
Definition in_set (x : string) (s : list string) : bool := existsb (String.eqb x) s.

(** ** The patterns

    In the comments, braces stand for the parentheses of a capture group.
    [subj] and [name_splitter] are spliced into patterns; the model takes
    them as literal text, which they are for the subjects and the
    delimiter of the file (letters, spaces and a colon). *)

Definition any_line : regex := Seq (Grp (Star dot)) (Atom (chr nl)).

(** [[0-9]\.[0-9][0-9]] *)
Definition credit_re : regex :=
  seqs [Atom digit; Atom (chr "."%char); Atom digit; Atom digit].

(** [{Fall 20..|Spring 20..|Summer 20..|Winter 20..}] *)
Definition semester_re : regex :=
  Grp (Alt (seqs [lit "Fall 20"; Atom dot; Atom dot])
      (Alt (seqs [lit "Spring 20"; Atom dot; Atom dot])
      (Alt (seqs [lit "Summer 20"; Atom dot; Atom dot])
           (seqs [lit "Winter 20"; Atom dot; Atom dot])))).

(** [label + {.*}\n] *)
Definition field_re (label : string) : regex := Seq (lit label) any_line.

(** [Address : {.*}\n {.*}\n {.*}\n] *)
Definition address_re : regex :=
  seqs [lit "Address : "; any_line; lit " "; any_line; lit " "; any_line].

(** [subj +  .* [0-9]\.[0-9][0-9].*\n], a space after [subj] *)
Definition raw_grades_re (subj : string) : regex :=
  seqs [lit subj; lit " "; Star dot; lit " "; credit_re; Star dot; Atom (chr nl)].

(** [subj +  {[0-9]+[A-Z]?|NE} ], a space after [subj] and one at the end *)
Definition course_num_re (subj : string) : regex :=
  seqs [lit subj; lit " "; Grp (Alt (Seq (Plus digit) (Opt upper)) (lit "NE")); lit " "].

(** [[0-9]\.[0-9][0-9] [0-9]\.[0-9][0-9] {[A-Z]\+?\-?}] *)
Definition grade_re : regex :=
  seqs [credit_re; lit " "; credit_re; lit " ";
        Grp (seqs [Atom upper; Opt (chr "+"%char); Opt (chr "-"%char)])].

(** ** The functions of [transcripts.py] *)

(** [re.sub] of a run of spaces (pattern: space, [+], space, [*]) by one space *)
Definition remove_extra_spaces (text : string) : string :=
  Re.sub (Seq (Plus (chr " "%char)) (Star (chr " "%char))) (fun _ => " ") text.

(** [separate_students] with [name_ret=True]: the transcripts and the names. *)
Definition separate_students_names (text name_splitter : string)
  : list string * list string :=
  let names := findall1 (field_re name_splitter) text in
  let transcripts := Re.split (lit name_splitter) text in
  let transcripts := tl transcripts in
  (map (fun t => name_splitter ++ t) transcripts, names).

(** [separate_students] with [name_ret=False], its default. *)
Definition separate_students (text name_splitter : string) : list string :=
  fst (separate_students_names text name_splitter).

Definition name_splitter_default : string := "Name : ".

Definition sem_abbr (semester : string) : string :=
  let sem := Re.sub (seqs [lit "20"; Grp (Seq (Atom digit) (Atom digit))])
                    (fun gs => nth 0 gs EmptyString) semester in
  let sem := Re.sub (lit "Fall ") (fun _ => "F") sem in
  let sem := Re.sub (lit "Spring ") (fun _ => "S") sem in
  let sem := Re.sub (lit "Summer ") (fun _ => "Sum") sem in
  let sem := Re.sub (lit "Winter ") (fun _ => "Win") sem in
  sem.

Definition personal_info (transcript : string) : result (dict value) :=
  name <~ py_index (findall1 (field_re "Name : ") transcript) 0 ;;
  student_id <~ py_index (findall1 (field_re "Student ID: ") transcript) 0 ;;
  sex <~ py_index (findall1 (field_re "Sex : ") transcript) 0 ;;
  let address := findalln address_re transcript in
  let '(address1, address2, address3) :=
    match address with
    | a :: _ => (nth 0 a EmptyString, nth 1 a EmptyString, nth 2 a EmptyString)
    | [] => (EmptyString, EmptyString, EmptyString)
    end in
  Ok [("Name", VStr name); ("Student_ID", VStr student_id); ("Sex", VStr sex);
      ("Address1", VStr address1); ("Address2", VStr address2);
      ("Address3", VStr address3)].

(** The body of the loop over the lines of one semester. *)
Definition grade_line (subj semester line : string) (grades_dict : dict string)
  : M (dict string) :=
  course_num <- lift (py_index (findall1 (course_num_re subj) line) 0) ;;
  let course := subj ++ " " ++ course_num in
  creds <- read_creds ;;
  (if Dict.mem creds course then ret tt
   else
     num_creds <- lift (py_index (findall credit_re line) 0) ;;
     c <- lift (py_float num_creds) ;;
     set_cred course c) ;;;
  let grade :=
    match findall1 grade_re line with
    | g :: _ => g
    | [] => sem_abbr semester
    end in
  ret (Dict.set grades_dict course grade).

(** The body of the loop over the semesters. *)
Definition grade_semester (subj : string) (semester_split : list string) (i : nat)
           (grades_dict : dict string) : M (dict string) :=
  semester <- lift (py_index semester_split (2 * Z.of_nat i + 1)) ;;
  info <- lift (py_index semester_split (2 * Z.of_nat i + 2)) ;;
  let raw_grades := findall (raw_grades_re subj) info in
  for_each raw_grades (grade_line subj semester) grades_dict.

Definition grades_of_subj (transcript subj : string) : M (dict string) :=
  let grades_dict : dict string := [] in
  let semester_split := Re.split semester_re transcript in
  if negb (Nat.eqb (List.length semester_split mod 2) 1)
  then raise (Exception "Splitting by semesters went wrong.")
  else
    last_seg <- lift (py_index semester_split (-1)) ;;
    let plan := findall1 (field_re "Plan : ") last_seg in
    let grades_dict :=
      match plan with
      | p :: _ => Dict.set grades_dict "Plan" p
      | [] => grades_dict
      end in
    for_each (seq 0 (List.length semester_split / 2))
             (grade_semester subj semester_split) grades_dict.


(** [d[k]] *)
Definition py_getitem {V : Type} (d : dict V) (k : string) : result V :=
  match Dict.get d k with
  | Some v => Ok v
  | None => Raise KeyError
  end.

(** A list comprehension with a condition that may raise. *)
Fixpoint rfilter {A : Type} (f : A -> result bool) (l : list A) : result (list A) :=
  match l with
  | [] => Ok []
  | x :: l' =>
      b <~ f x ;;
      l'' <~ rfilter f l' ;;
      Ok (if b then x :: l'' else l'')
  end.

Fixpoint rmap {A B : Type} (f : A -> result B) (l : list A) : result (list B) :=
  match l with
  | [] => Ok []
  | x :: l' =>
      y <~ f x ;;
      l'' <~ rmap f l' ;;
      Ok (y :: l'')
  end.

(** A dict display: the items are assigned in order. *)
Definition dict_of {V : Type} (items : list (string * V)) : dict V :=
  Dict.update [] items.

Section Summary.
Variable g : config.

(** [course not in IGNORE_COURSES[subj] and <cond on subj_grades[course]>] *)
Definition counted (subj : string) (subj_grades : dict string)
           (cond : string -> bool) (course : string) : result bool :=
  ignored <~ py_getitem (IGNORE_COURSES g) subj ;;
  if in_set course ignored then Ok false
  else
    grade <~ py_getitem subj_grades course ;;
    Ok (cond grade).

Definition subj_summary (subj : string) (subj_grades : dict string)
           (creds : dict float) : result (dict value) :=
  courses_to_count <~
    rfilter (counted subj subj_grades (Dict.mem (GPA_VAL g))) (Dict.keys subj_grades) ;;
  let num_taken := List.length courses_to_count in
  cs <~ rmap (py_getitem creds) courses_to_count ;;
  let creds_taken := py_sum cs in
  ws <~ rmap (fun course =>
                grade <~ py_getitem subj_grades course ;;
                points <~ py_getitem (GPA_VAL g) grade ;;
                c <~ py_getitem creds course ;;
                Ok (PrimFloat.mul points c)) courses_to_count ;;
  let gpa_creds := py_sum ws in
  let gpa :=
    if PrimFloat.ltb 0%float creds_taken
    then PrimFloat.div gpa_creds creds_taken
    else PrimFloat.nan in
  now <~ rfilter (counted subj subj_grades (String.eqb (CURR_SEM g)))
                 (Dict.keys subj_grades) ;;
  let num_in_progress := List.length now in
  Ok (dict_of
        [("Num " ++ subj ++ "^ courses", VInt (Z.of_nat num_taken));
         ("Num " ++ subj ++ "^ creds", py_sum_value cs);
         (subj ++ "^ GPA", VFloat gpa);
         ("Num " ++ subj ++ "^ now", VInt (Z.of_nat num_in_progress))]).
End Summary.

(** ** The table

    [pandas.DataFrame(records_list, columns=...)]: one row per record,
    projected on the columns, a cell without value where the record has
    no such key.  [natsorted] belongs to the [natsort] package and is a
    parameter. *)

Record DataFrame : Type := mk_df {
  df_columns : list string;
  df_rows : list (list (option value))
}.

Definition make_frame (records_list : list (dict value)) (columns : list string)
  : DataFrame :=
  {| df_columns := columns;
     df_rows := map (fun r => map (Dict.get r) columns) records_list |}.

Section Pipeline.
Variable g : config.
Variable natsorted : list string -> list string.

(** The body of the loop over the subjects. *)
Definition record_subject (transcript subj : string) (data_dict : dict value)
  : M (dict value) :=
  subj_grades <- grades_of_subj transcript subj ;;
  let data_dict := Dict.update data_dict (Dict.map_values VStr subj_grades) in
  creds <- read_creds ;;
  summary <- lift (subj_summary g subj subj_grades creds) ;;
  ret (Dict.update data_dict summary).

(** The body of the loop over the transcripts. *)
Definition record_transcript (transcript : string) (records_list : list (dict value))
  : M (list (dict value)) :=
  data_dict <- lift (personal_info transcript) ;;
  data_dict <- for_each (SUBJECTS g) (record_subject transcript) data_dict ;;
  ret (records_list ++ [data_dict])%list.

Definition subj_summ_cols : list string :=
  flat_map (fun subj => ["Num " ++ subj ++ "^ courses"; subj ++ "^ GPA";
                         "Num " ++ subj ++ "^ now"]) (SUBJECTS g).

Definition transcript_data (transcripts : list string) : M DataFrame :=
  records_list <- for_each transcripts record_transcript [] ;;
  creds <- read_creds ;;
  ret (make_frame records_list
         (["Name"; "Student_ID"; "Plan"]
          ++ ["Sex"; "Address1"; "Address2"; "Address3"]
          ++ subj_summ_cols
          ++ natsorted (Dict.keys creds))%list).

(** *** Default arguments

    [def transcript_data(transcripts, creds=dict())] and
    [def grades_of_subj(transcript, subj, creds={})] build their default
    dictionaries once, when the module is loaded; a call that leaves
    [creds] out works on that one object.  The state of a process is
    these two objects. *)
Record process : Type := mk_process {
  transcript_data_creds : dict float;
  grades_of_subj_creds : dict float
}.

Definition fresh_process : process :=
  {| transcript_data_creds := []; grades_of_subj_creds := [] |}.

(** [transcript_data(transcripts)] *)
Definition call_transcript_data (transcripts : list string) (p : process)
  : result DataFrame * process :=
  let '(r, c) := transcript_data transcripts (transcript_data_creds p) in
  (r, {| transcript_data_creds := c; grades_of_subj_creds := grades_of_subj_creds p |}).

(** [grades_of_subj(transcript, subj)] *)
Definition call_grades_of_subj (transcript subj : string) (p : process)
  : result (dict string) * process :=
  let '(r, c) := grades_of_subj transcript subj (grades_of_subj_creds p) in
  (r, {| transcript_data_creds := transcript_data_creds p; grades_of_subj_creds := c |}).
End Pipeline.

(** ** Sample transcripts *)

Definition lines (l : list string) : string :=
  join (map (fun x => x ++ String nl EmptyString) l).


(** * Properties *)

(** ** Strings *)

Lemma append_nil_r (s : string) : s ++ "" = s.
Proof. induction s as [|c s IH]; simpl; [reflexivity | now rewrite IH]. Qed.

Lemma append_assoc (a b c : string) : (a ++ b) ++ c = a ++ b ++ c.
Proof. induction a as [|x a IH]; simpl; [reflexivity | now rewrite IH]. Qed.

Lemma length_append (a b : string) :
  String.length (a ++ b) = String.length a + String.length b.
Proof. induction a as [|x a IH]; simpl; [reflexivity | now rewrite IH]. Qed.

Lemma take_append (t s : string) : take (String.length t) (t ++ s) = t.
Proof. induction t as [|x t IH]; simpl; [now destruct s | now rewrite IH]. Qed.

Lemma consumed_append (t s : string) : consumed (t ++ s) s = t.
Proof.
  unfold consumed. rewrite length_append.
  replace (String.length t + String.length s - String.length s)
    with (String.length t) by lia.
  apply take_append.
Qed.

Lemma append_cancel_l (t a b : string) : t ++ a = t ++ b -> a = b.
Proof. induction t as [|x t IH]; simpl; intros H; [exact H | injection H; auto]. Qed.

Lemma starts_with_append (d s : string) : starts_with d (d ++ s) = true.
Proof.
  induction d as [|x d IH]; simpl; [reflexivity|].
  now rewrite Ascii.eqb_refl, IH.
Qed.

Lemma starts_with_inv (d s : string) :
  starts_with d s = true -> exists rest, s = d ++ rest.
Proof.
  revert s. induction d as [|x d IH]; intros s H; simpl in *.
  - now exists s.
  - destruct s as [|y s]; [discriminate|].
    apply andb_prop in H as [Hxy Hd]. apply Ascii.eqb_eq in Hxy. subst y.
    destruct (IH _ Hd) as [rest ->]. now exists rest.
Qed.

(** ** The matcher against a declarative reading of the patterns *)

Module ReFacts.

Fixpoint all_in (p : charset) (t : string) : bool :=
  match t with
  | EmptyString => true
  | String c t' => p c && all_in p t'
  end.

(** [matches r t gs gs']: [r] matches the text [t] exactly, and the
    groups it closes extend [gs] to [gs']. *)
Inductive matches : regex -> string -> list string -> list string -> Prop :=
| m_eps gs : matches Eps EmptyString gs gs
| m_atom p c gs : p c = true -> matches (Atom p) (String c EmptyString) gs gs
| m_seq r1 r2 t1 t2 gs g1 g2 :
    matches r1 t1 gs g1 -> matches r2 t2 g1 g2 ->
    matches (Seq r1 r2) (t1 ++ t2) gs g2
| m_alt_l r1 r2 t gs g1 : matches r1 t gs g1 -> matches (Alt r1 r2) t gs g1
| m_alt_r r1 r2 t gs g1 : matches r2 t gs g1 -> matches (Alt r1 r2) t gs g1
| m_star p t gs : all_in p t = true -> matches (Star p) t gs gs
| m_grp r t gs g1 : matches r t gs g1 -> matches (Grp r) t gs (g1 ++ [t])%list.

Lemma star_sound {A : Type} (p : charset) (s : string) (k : string -> option A) a :
  star p s k = Some a ->
  exists t s', s = t ++ s' /\ all_in p t = true /\ k s' = Some a.
Proof.
  induction s as [|c s IH]; simpl; intros H.
  - exists EmptyString, EmptyString. auto.
  - destruct (p c) eqn:Hp.
    + destruct (star p s k) as [b|] eqn:Hs.
      * injection H as ->. destruct (IH eq_refl) as (t & s' & -> & Ht & Hk).
        exists (String c t), s'. simpl. rewrite Hp, Ht. auto.
      * exists EmptyString, (String c s). auto.
    + exists EmptyString, (String c s). auto.
Qed.

Lemma star_complete {A : Type} (p : charset) (t s' : string)
      (k : string -> option A) a :
  all_in p t = true -> k s' = Some a -> exists a', star p (t ++ s') k = Some a'.
Proof.
  intros Ht Hk. induction t as [|c t IH]; simpl in *.
  - destruct s' as [|c s']; simpl.
    + now exists a.
    + destruct (p c); [destruct (star p s' k) as [b|]; [now exists b|]|]; now exists a.
  - apply andb_prop in Ht as [Hc Ht]. rewrite Hc.
    destruct (IH Ht) as [a' ->]. now exists a'.
Qed.

Lemma exec_sound {A : Type} (r : regex) :
  forall (s : string) gs (k : string -> list string -> option A) a,
    exec r s gs k = Some a ->
    exists t s' gs', s = t ++ s' /\ matches r t gs gs' /\ k s' gs' = Some a.
Proof.
  induction r as [|p|r1 IH1 r2 IH2|r1 IH1 r2 IH2|p|r IH]; simpl; intros s gs k a H.
  - exists EmptyString, s, gs. repeat split; auto. constructor.
  - destruct s as [|c s]; [discriminate|]. destruct (p c) eqn:Hp; [|discriminate].
    exists (String c EmptyString), s, gs. repeat split; auto. now constructor.
  - apply IH1 in H as (t1 & s1 & g1 & -> & M1 & H).
    apply IH2 in H as (t2 & s2 & g2 & -> & M2 & H).
    exists (t1 ++ t2), s2, g2. rewrite append_assoc. repeat split; auto.
    econstructor; eauto.
  - destruct (exec r1 s gs k) as [b|] eqn:H1.
    + injection H as ->. apply IH1 in H1 as (t & s' & g' & -> & M1 & H).
      exists t, s', g'. repeat split; auto. now apply m_alt_l.
    + apply IH2 in H as (t & s' & g' & -> & M2 & H).
      exists t, s', g'. repeat split; auto. now apply m_alt_r.
  - apply star_sound in H as (t & s' & -> & Ht & H).
    exists t, s', gs. repeat split; auto. now constructor.
  - apply IH in H as (t & s' & g' & -> & M1 & H).
    rewrite consumed_append in H.
    exists t, s', (g' ++ [t])%list. repeat split; auto. now constructor.
Qed.

Lemma exec_complete {A : Type} (r : regex) t gs gs' :
  matches r t gs gs' ->
  forall s' (k : string -> list string -> option A) a,
    k s' gs' = Some a -> exists a', exec r (t ++ s') gs k = Some a'.
Proof.
  induction 1 as [gs|p c gs Hp|r1 r2 t1 t2 gs g1 g2 _ IH1 _ IH2
                 |r1 r2 t gs g1 _ IH|r1 r2 t gs g1 _ IH|p t gs Ht|r t gs g1 _ IH];
    intros s' k a Hk; simpl.
  - now exists a.
  - rewrite Hp. now exists a.
  - rewrite append_assoc.
    destruct (IH2 _ _ _ Hk) as [a2 H2]. exact (IH1 _ _ _ H2).
  - destruct (IH _ _ _ Hk) as [a1 ->]. now exists a1.
  - destruct (exec r1 (t ++ s') gs k) as [b|]; [now exists b|]. eauto.
  - eapply star_complete; eauto.
  - apply (IH s' _ a). now rewrite consumed_append.
Qed.

(** An anchored match succeeds exactly where the pattern matches a
    prefix. *)
Lemma match_here_sound r s gs rest :
  match_here r s = Some (gs, rest) ->
  exists t, s = t ++ rest /\ matches r t [] gs.
Proof.
  unfold match_here. intros H.
  apply exec_sound in H as (t & s' & gs' & -> & Hm & H).
  injection H as -> ->. now exists t.
Qed.

Lemma match_here_complete r t gs s' :
  matches r t [] gs -> exists x, match_here r (t ++ s') = Some x.
Proof.
  intros Hm. unfold match_here.
  exact (exec_complete r t [] gs Hm s' _ (gs, s') eq_refl).
Qed.

(** The number of groups a pattern closes. *)
Fixpoint ngroups (r : regex) : nat :=
  match r with
  | Eps | Atom _ | Star _ => 0
  | Seq r1 r2 => ngroups r1 + ngroups r2
  | Alt r1 r2 => Nat.max (ngroups r1) (ngroups r2)
  | Grp r1 => S (ngroups r1)
  end.

(** Patterns whose alternatives close the same number of groups: all
    those of the program. *)
Fixpoint uniform (r : regex) : bool :=
  match r with
  | Eps | Atom _ | Star _ => true
  | Seq r1 r2 => uniform r1 && uniform r2
  | Alt r1 r2 => uniform r1 && uniform r2 && Nat.eqb (ngroups r1) (ngroups r2)
  | Grp r1 => uniform r1
  end.

Lemma matches_ngroups r t gs gs' :
  matches r t gs gs' -> uniform r = true ->
  List.length gs' = List.length gs + ngroups r.
Proof.
  induction 1; simpl; intros U;
    repeat match goal with
           | H : _ && _ = true |- _ => apply andb_prop in H as [? ?]
           | H : Nat.eqb _ _ = true |- _ => apply Nat.eqb_eq in H
           end.
  - lia.
  - lia.
  - rewrite IHmatches2, IHmatches1 by assumption. lia.
  - rewrite IHmatches by assumption. lia.
  - rewrite IHmatches by assumption. lia.
  - lia.
  - rewrite length_app, IHmatches by assumption. simpl. lia.
Qed.

(** A pattern that cannot match the empty string. *)
Fixpoint nullable (r : regex) : bool :=
  match r with
  | Eps | Star _ => true
  | Atom _ => false
  | Seq r1 r2 => nullable r1 && nullable r2
  | Alt r1 r2 => nullable r1 || nullable r2
  | Grp r1 => nullable r1
  end.

Lemma matches_nonempty r t gs gs' :
  matches r t gs gs' -> nullable r = false -> t <> EmptyString.
Proof.
  induction 1; simpl; intros N; try discriminate.
  - apply andb_false_iff in N as [N|N].
    + specialize (IHmatches1 N). destruct t1; [congruence | discriminate].
    + specialize (IHmatches2 N). destruct t1; simpl; [assumption | discriminate].
  - apply orb_false_iff in N as [N _]. auto.
  - apply orb_false_iff in N as [_ N]. auto.
  - auto.
Qed.

End ReFacts.

Import ReFacts.

(** ** The scan *)

Module ScanFacts.

Arguments consumed : simpl never.
Arguments match_here : simpl never.

Lemma drop_append (t s : string) : drop (String.length t) (t ++ s) = s.
Proof. induction t as [|x t IH]; simpl; [now destruct s | exact IH]. Qed.

Lemma scan_skip r : forall s n pre,
    n <= String.length s -> scan r s n pre = scan r (drop n s) 0 pre.
Proof.
  induction s as [|c s IH]; intros [|n] pre Hn; simpl in *; try reflexivity; try lia.
  apply IH. lia.
Qed.

(** The scan, one match at a time. *)
Lemma scan_match r s pre gs rest :
  match_here r s = Some (gs, rest) ->
  consumed s rest <> EmptyString ->
  scan r s 0 pre =
    (mk_mt pre (consumed s rest) gs :: fst (scan r rest 0 EmptyString),
     snd (scan r rest 0 EmptyString)).
Proof.
  intros Hm Hne.
  destruct (match_here_sound _ _ _ _ Hm) as (t & Hs & _).
  assert (Ht : consumed s rest = t) by (rewrite Hs; apply consumed_append).
  rewrite Ht in *.
  destruct s as [|c s'].
  - destruct t; [congruence | discriminate].
  - simpl. rewrite Hm, Ht.
    destruct t as [|x t']; [congruence|]. simpl in Hs. injection Hs as -> ->.
    simpl String.length. cbv iota.
    rewrite scan_skip by (rewrite length_append; lia).
    rewrite drop_append.
    now destruct (scan r rest 0 EmptyString).
Qed.

Lemma scan_no_match r c s pre :
  match_here r (String c s) = None ->
  scan r (String c s) 0 pre = scan r s 0 (pre ++ String c EmptyString).
Proof. intros H. simpl. now rewrite H. Qed.

Lemma scan_end r pre :
  match_here r EmptyString = None -> scan r EmptyString 0 pre = ([], pre).
Proof. intros H. simpl. now rewrite H. Qed.

Lemma match_here_nonempty r s gs rest :
  nullable r = false -> match_here r s = Some (gs, rest) ->
  consumed s rest <> EmptyString /\
  String.length rest < String.length s.
Proof.
  intros N Hm. destruct (match_here_sound _ _ _ _ Hm) as (t & -> & M).
  rewrite consumed_append. pose proof (matches_nonempty _ _ _ _ M N) as Hne.
  split; [assumption|]. rewrite length_append. destruct t; [congruence | simpl; lia].
Qed.

(** Induction along the scan of a pattern that cannot match the empty
    string: the end of the subject, a match, or one character passed. *)
Lemma scan_ind r (N : nullable r = false)
      (P : string -> string -> list mt * string -> Prop) :
  (forall pre, match_here r EmptyString = None -> P EmptyString pre ([], pre)) ->
  (forall s pre gs rest,
      match_here r s = Some (gs, rest) ->
      P rest EmptyString (scan r rest 0 EmptyString) ->
      P s pre (mk_mt pre (consumed s rest) gs :: fst (scan r rest 0 EmptyString),
               snd (scan r rest 0 EmptyString))) ->
  (forall c s pre,
      match_here r (String c s) = None ->
      P s (pre ++ String c EmptyString) (scan r s 0 (pre ++ String c EmptyString)) ->
      P (String c s) pre (scan r s 0 (pre ++ String c EmptyString))) ->
  forall s pre, P s pre (scan r s 0 pre).
Proof.
  intros Hend Hmatch Hstep s.
  remember (String.length s) as n eqn:Hn.
  revert s Hn. induction n as [n IH] using lt_wf_ind. intros s Hn pre.
  destruct (match_here r s) as [[gs rest]|] eqn:Hm.
  - destruct (match_here_nonempty _ _ _ _ N Hm) as [Hne Hlt].
    rewrite (scan_match _ _ _ _ _ Hm Hne).
    apply Hmatch; [assumption|].
    apply (IH (String.length rest)); [lia | reflexivity].
  - destruct s as [|c s].
    + rewrite scan_end by assumption. now apply Hend.
    + rewrite scan_no_match by assumption. apply Hstep; [assumption|].
      apply (IH (String.length s)); [simpl in Hn; lia | reflexivity].
Qed.

(** No part of [s] matches [r]. *)
Definition no_match (r : regex) (s : string) : Prop :=
  forall u t v gs, s = u ++ t ++ v -> ~ matches r t [] gs.

Lemma no_match_tail r c s : no_match r (String c s) -> no_match r s.
Proof. intros H u t v gs ->. apply (H (String c u) t v gs). reflexivity. Qed.

Section Scan.
Variable r : regex.
Hypothesis N : nullable r = false.

(** Every match of the scan is a part of the subject that the
    pattern matches. *)
Lemma scan_in : forall s pre m,
    In m (fst (scan r s 0 pre)) ->
    matches r (m_text m) [] (m_groups m) /\
    exists u v, s = u ++ m_text m ++ v.
Proof.
  intros s pre. pattern s, pre, (scan r s 0 pre).
  apply (scan_ind r N); clear s pre.
  - intros pre _ m [].
  - intros s pre gs rest Hm IH m [<-|Hin]; simpl.
    + destruct (match_here_sound _ _ _ _ Hm) as (t & -> & M).
      rewrite consumed_append. split; [assumption|]. now exists EmptyString, rest.
    + destruct (IH _ Hin) as (M & u & v & Hrest). split; [assumption|].
      destruct (match_here_sound _ _ _ _ Hm) as (t & -> & _).
      exists (t ++ u), v. rewrite Hrest at 1. now rewrite append_assoc.
  - intros c s pre _ IH m Hin.
    destruct (IH _ Hin) as (M & u & v & Hs). split; [assumption|].
    exists (String c u), v. simpl. now rewrite <- Hs.
Qed.

(** Without a match the scan returns the subject whole. *)
Lemma scan_none : forall s pre,
    no_match r s -> scan r s 0 pre = ([], pre ++ s).
Proof.
  intros s pre. pattern s, pre, (scan r s 0 pre).
  apply (scan_ind r N); clear s pre.
  - intros pre _ _. now rewrite append_nil_r.
  - intros s pre gs rest Hm _ Hno. exfalso.
    destruct (match_here_sound _ _ _ _ Hm) as (t & -> & M).
    apply (Hno EmptyString t rest gs); auto.
  - intros c s pre _ IH Hno. rewrite IH by (eapply no_match_tail; eauto).
    now rewrite append_assoc.
Qed.

(** Where some part of the subject matches, the scan finds a match. *)
Lemma scan_some : forall s pre u t v gs,
    s = u ++ t ++ v -> matches r t [] gs -> fst (scan r s 0 pre) <> [].
Proof.
  intros s pre. pattern s, pre, (scan r s 0 pre).
  apply (scan_ind r N); clear s pre.
  - intros pre Hnone u t v gs Hs M. exfalso.
    destruct u; [|discriminate]. destruct t; simpl in Hs.
    + exact (matches_nonempty _ _ _ _ M N eq_refl).
    + discriminate.
  - intros; simpl; discriminate.
  - intros c s pre Hnone IH u t v gs Hs M.
    destruct u as [|x u]; simpl in Hs.
    + destruct (match_here_complete r t gs v M) as [x Hx]. congruence.
    + injection Hs as _ Hs. exact (IH u t v gs Hs M).
Qed.

(** The subject is the pieces and the matched texts, in order. *)
Lemma scan_concat : forall s pre,
    join (map (fun m => m_pre m ++ m_text m) (fst (scan r s 0 pre)))
      ++ snd (scan r s 0 pre) = pre ++ s.
Proof.
  intros s pre. pattern s, pre, (scan r s 0 pre).
  apply (scan_ind r N); clear s pre.
  - intros pre _. simpl. now rewrite append_nil_r.
  - intros s pre gs rest Hm IH. cbn [fst snd map join m_pre m_text].
    destruct (match_here_sound _ _ _ _ Hm) as (t & -> & M).
    rewrite consumed_append. simpl in IH.
    rewrite !append_assoc. now rewrite IH.
  - intros c s pre _ IH. rewrite IH. now rewrite append_assoc.
Qed.
End Scan.

End ScanFacts.

Import ScanFacts.

Import ScanFacts.

(** ** Computations on the credit table *)

Module MFacts.

Section Rel.
(** A relation between the table before and after a computation that
    composes along sequencing and loops. *)
Variable R : dict float -> dict float -> Prop.
Hypothesis R_refl : forall c, R c c.
Hypothesis R_trans : forall a b c, R a b -> R b c -> R a c.

Definition respects {A : Type} (m : M A) : Prop :=
  forall c r c', m c = (r, c') -> R c c'.

Lemma respects_ret {A : Type} (a : A) : respects (ret a).
Proof. intros c r c' H. injection H as _ <-. apply R_refl. Qed.

Lemma respects_raise {A : Type} (e : exn) : respects (@raise A e).
Proof. intros c r c' H. injection H as _ <-. apply R_refl. Qed.

Lemma respects_lift {A : Type} (x : result A) : respects (lift x).
Proof. intros c r c' H. injection H as _ <-. apply R_refl. Qed.

Lemma respects_read : respects read_creds.
Proof. intros c r c' H. injection H as _ <-. apply R_refl. Qed.

Lemma respects_bind {A B : Type} (m : M A) (f : A -> M B) :
  respects m -> (forall a, respects (f a)) -> respects (bind m f).
Proof.
  intros Hm Hf c r c' H. unfold bind in H.
  destruct (m c) as [[a|e] c1] eqn:E.
  - eapply R_trans; [eapply Hm; eauto | eapply Hf; eauto].
  - injection H as _ <-. eapply Hm; eauto.
Qed.

Lemma respects_for_each {A S : Type} (l : list A) (body : A -> S -> M S) :
  (forall x acc, In x l -> respects (body x acc)) ->
  forall acc, respects (for_each l body acc).
Proof.
  induction l as [|x l IH]; intros Hb acc; simpl.
  - apply respects_ret.
  - apply respects_bind; [apply Hb; now left|].
    intros acc'. apply IH. intros y a Hy. apply Hb. now right.
Qed.
End Rel.

(** The exceptions a computation may raise. *)
Definition raises {A : Type} (E : exn -> Prop) (m : M A) : Prop :=
  forall c e c', m c = (Raise e, c') -> E e.

Section Raises.
Variable E : exn -> Prop.

Lemma raises_ret {A : Type} (a : A) : raises E (ret a).
Proof. intros c e c' H. discriminate. Qed.

Lemma raises_raise {A : Type} (e : exn) : E e -> raises E (@raise A e).
Proof. intros He c e' c' H. injection H as <- _. exact He. Qed.

Lemma raises_lift {A : Type} (x : result A) :
  (forall e, x = Raise e -> E e) -> raises E (lift x).
Proof. intros Hx c e c' H. injection H as -> _. now apply Hx. Qed.

Lemma raises_read : raises E read_creds.
Proof. intros c e c' H. discriminate. Qed.

Lemma raises_set k v : raises E (set_cred k v).
Proof. intros c e c' H. discriminate. Qed.

Lemma raises_bind {A B : Type} (m : M A) (f : A -> M B) :
  raises E m -> (forall a, raises E (f a)) -> raises E (bind m f).
Proof.
  intros Hm Hf c e c' H. unfold bind in H.
  destruct (m c) as [[a|e1] c1] eqn:E1.
  - eapply Hf; eauto.
  - injection H as <- _. eapply Hm; eauto.
Qed.

Lemma raises_for_each {A S : Type} (l : list A) (body : A -> S -> M S) :
  (forall x acc, raises E (body x acc)) ->
  forall acc, raises E (for_each l body acc).
Proof.
  intros Hb. induction l as [|x l IH]; intros acc; simpl.
  - apply raises_ret.
  - apply raises_bind; auto.
Qed.
End Raises.

Lemma py_index_raises {A : Type} (l : list A) i e :
  py_index l i = Raise e -> e = IndexError.
Proof.
  unfold py_index. destruct (_ <? 0)%Z; [congruence|].
  destruct (nth_error _ _); congruence.
Qed.

Lemma py_float_raises s e : py_float s = Raise e -> e = ValueError.
Proof.
  unfold py_float.
  destruct s as [|a [|p [|b [|c [|]]]]]; try congruence.
  destruct (_ && _); congruence.
Qed.

Lemma py_index_nat {A : Type} (l : list A) (i : nat) :
  py_index l (Z.of_nat i)
  = match nth_error l i with Some a => Ok a | None => Raise IndexError end.
Proof.
  unfold py_index.
  destruct (Z.of_nat i <? 0)%Z eqn:E; [apply Z.ltb_lt in E; lia|].
  rewrite E. now rewrite Nat2Z.id.
Qed.

Lemma py_index_zero {A : Type} (l : list A) :
  py_index l 0 = match l with a :: _ => Ok a | [] => Raise IndexError end.
Proof. change 0%Z with (Z.of_nat 0). rewrite py_index_nat. now destruct l. Qed.

Lemma py_index_last {A : Type} (l : list A) (a : A) :
  py_index (l ++ [a]) (-1) = Ok a.
Proof.
  unfold py_index. cbv zeta. change (-1 <? 0)%Z with true. cbv iota.
  rewrite length_app, Nat.add_1_r.
  replace (-1 + Z.of_nat (S (List.length l)))%Z with (Z.of_nat (List.length l)) by lia.
  destruct (Z.of_nat (List.length l) <? 0)%Z eqn:E; [apply Z.ltb_lt in E; lia|].
  rewrite Nat2Z.id. rewrite nth_error_app2 by lia. now rewrite Nat.sub_diag.
Qed.

End MFacts.

Import MFacts.

(** ** Semester segmentation *)

Lemma flat_map_length_const {A B : Type} (f : A -> list B) (n : nat) (l : list A) :
  (forall x, In x l -> List.length (f x) = n) ->
  List.length (flat_map f l) = n * List.length l.
Proof.
  induction l as [|x l IH]; intros H; simpl; [lia|].
  rewrite length_app, H, IH; [lia | | now left].
  intros y Hy. apply H. now right.
Qed.

Lemma split_length r s :
  nullable r = false -> uniform r = true ->
  List.length (Re.split r s)
  = (1 + ngroups r) * List.length (fst (finditer r s)) + 1.
Proof.
  intros N U. unfold Re.split, finditer.
  destruct (scan r s 0 EmptyString) as [ms tl] eqn:E.
  rewrite length_app. simpl List.length at 2. f_equal.
  apply flat_map_length_const. intros m Hm. simpl. f_equal.
  assert (Hin : In m (fst (scan r s 0 EmptyString))) by now rewrite E.
  destruct (scan_in r N _ _ _ Hin) as [M _].
  now rewrite (matches_ngroups _ _ _ _ M U).
Qed.

Lemma semester_split_mod2 transcript :
  List.length (Re.split semester_re transcript) mod 2 = 1.
Proof.
  rewrite split_length by reflexivity.
  change (1 + ngroups semester_re) with 2.
  rewrite Nat.add_comm, (Nat.mul_comm 2), Nat.Div0.mod_add. reflexivity.
Qed.

Definition index_or_value (e : exn) : Prop := e = IndexError \/ e = ValueError.

Lemma grade_line_raises subj semester line gd :
  raises index_or_value (grade_line subj semester line gd).
Proof.
  unfold grade_line.
  apply raises_bind.
  { apply raises_lift. intros e H. left. eapply py_index_raises; eauto. }
  intros num. apply raises_bind; [apply raises_read|]. intros creds.
  apply raises_bind; [|intros; apply raises_ret].
  destruct (Dict.mem creds _); [apply raises_ret|].
  apply raises_bind.
  { apply raises_lift. intros e H. left. eapply py_index_raises; eauto. }
  intros tok. apply raises_bind; [|intros; apply raises_set].
  apply raises_lift. intros e H. right. eapply py_float_raises; eauto.
Qed.

Lemma grade_semester_raises subj sp i gd :
  raises index_or_value (grade_semester subj sp i gd).
Proof.
  unfold grade_semester.
  apply raises_bind.
  { apply raises_lift. intros e H. left. eapply py_index_raises; eauto. }
  intros semester. apply raises_bind.
  { apply raises_lift. intros e H. left. eapply py_index_raises; eauto. }
  intros info. apply raises_for_each. intros. apply grade_line_raises.
Qed.

Lemma grades_of_subj_raises transcript subj :
  raises index_or_value (grades_of_subj transcript subj).
Proof.
  unfold grades_of_subj. rewrite semester_split_mod2.
  change (negb (Nat.eqb 1 1)) with false. cbv iota.
  apply raises_bind.
  { apply raises_lift. intros e H. left. eapply py_index_raises; eauto. }
  intros last_seg. apply raises_for_each. intros. apply grade_semester_raises.
Qed.

(** C4.  Splitting a student block by the semester-header pattern always
    yields an odd number of segments; a block no part of which matches
    the header pattern yields the block alone; and [grades_of_subj]
    never raises the exception of its segment-count check. *)
Theorem semester_split_odd :
  (forall block, Nat.odd (List.length (Re.split semester_re block)) = true) /\
  (forall block, no_match semester_re block ->
                 Re.split semester_re block = [block]) /\
  (forall transcript subj creds msg,
      fst (grades_of_subj transcript subj creds) <> Raise (Exception msg)).
Proof.
  split; [|split].
  - intros block. apply Nat.odd_spec.
    exists (List.length (fst (finditer semester_re block))).
    now rewrite split_length by reflexivity.
  - intros block H. unfold Re.split, finditer.
    now rewrite (scan_none semester_re eq_refl _ _ H).
  - intros transcript subj creds msg H.
    destruct (grades_of_subj transcript subj creds) as [r c'] eqn:E.
    simpl in H. subst r.
    destruct (grades_of_subj_raises _ _ _ _ _ E); discriminate.
Qed.

(** ** Dictionaries *)

Module DictFacts.
Section Facts.
Context {V : Type}.
Implicit Types (d : dict V) (k : string) (v : V).

Lemma get_set_same d k v : Dict.get (Dict.set d k v) k = Some v.
Proof.
  induction d as [|[k' v'] d IH]; simpl.
  - now rewrite String.eqb_refl.
  - destruct (String.eqb k' k) eqn:E; simpl; rewrite E; [reflexivity | exact IH].
Qed.

Lemma get_set_other d k v k' :
  k <> k' -> Dict.get (Dict.set d k v) k' = Dict.get d k'.
Proof.
  intros Hne. induction d as [|[k0 v0] d IH]; simpl.
  - apply String.eqb_neq in Hne. now rewrite Hne.
  - destruct (String.eqb k0 k) eqn:E; simpl.
    + apply String.eqb_eq in E. subst k0.
      apply String.eqb_neq in Hne. now rewrite Hne.
    + now rewrite IH.
Qed.

Lemma keys_set_in d k v : In k (Dict.keys (Dict.set d k v)).
Proof.
  induction d as [|[k' v'] d IH]; simpl; [now left|].
  destruct (String.eqb k' k) eqn:E; simpl.
  - left. now apply String.eqb_eq.
  - now right.
Qed.

Lemma get_in_keys d k v : Dict.get d k = Some v -> In k (Dict.keys d).
Proof.
  induction d as [|[k' v'] d IH]; simpl; [discriminate|].
  destruct (String.eqb k' k) eqn:E.
  - intros _. left. now apply String.eqb_eq.
  - intros H. right. auto.
Qed.

Lemma mem_false_get d k : Dict.mem d k = false -> Dict.get d k = None.
Proof. unfold Dict.mem. now destruct (Dict.get d k). Qed.
End Facts.
End DictFacts.

Import DictFacts.

(** ** The credit table only grows *)

(** Every course of [c] has the same credit value in [c']. *)
Definition extends (c c' : dict float) : Prop :=
  forall k v, Dict.get c k = Some v -> Dict.get c' k = Some v.

Lemma extends_refl c : extends c c.
Proof. intros k v H. exact H. Qed.

Lemma extends_trans a b c : extends a b -> extends b c -> extends a c.
Proof. intros H1 H2 k v H. auto. Qed.

Lemma extends_set_absent c k v : Dict.get c k = None -> extends c (Dict.set c k v).
Proof.
  intros Hk k' v' H. rewrite get_set_other; [exact H|]. congruence.
Qed.

Create HintDb creds.
#[local] Hint Resolve extends_refl extends_trans : creds.

Lemma grade_line_extends subj semester line gd :
  respects extends (grade_line subj semester line gd).
Proof.
  intros c r c' H.
  unfold grade_line, bind, lift, read_creds, ret, set_cred in H.
  destruct (py_index (findall1 _ line) 0) as [num|e].
  2:{ injection H as _ <-. auto with creds. }
  destruct (Dict.mem c _) eqn:Hmem.
  { injection H as _ <-. auto with creds. }
  destruct (py_index (findall credit_re line) 0) as [tok|e].
  2:{ injection H as _ <-. auto with creds. }
  destruct (py_float tok) as [v|e]; injection H as _ <-; auto with creds.
  apply extends_set_absent. now apply mem_false_get.
Qed.

Lemma grade_semester_extends subj sp i gd :
  respects extends (grade_semester subj sp i gd).
Proof.
  unfold grade_semester.
  repeat (apply (respects_bind extends extends_trans);
          [apply (respects_lift extends extends_refl) | intros ?]).
  apply (respects_for_each extends extends_refl extends_trans).
  intros. apply grade_line_extends.
Qed.

Lemma grades_of_subj_extends transcript subj :
  respects extends (grades_of_subj transcript subj).
Proof.
  unfold grades_of_subj.
  destruct (negb _); [apply (respects_raise extends extends_refl)|].
  apply (respects_bind extends extends_trans);
    [apply (respects_lift extends extends_refl) | intros ?].
  apply (respects_for_each extends extends_refl extends_trans).
  intros. apply grade_semester_extends.
Qed.

Lemma record_transcript_extends g transcript records :
  respects extends (record_transcript g transcript records).
Proof.
  unfold record_transcript.
  apply (respects_bind extends extends_trans);
    [apply (respects_lift extends extends_refl) | intros d].
  apply (respects_bind extends extends_trans);
    [|intros; apply (respects_ret extends extends_refl)].
  apply (respects_for_each extends extends_refl extends_trans).
  intros subj acc _. unfold record_subject.
  apply (respects_bind extends extends_trans); [apply grades_of_subj_extends|].
  intros sg.
  apply (respects_bind extends extends_trans);
    [apply (respects_read extends extends_refl) | intros creds].
  apply (respects_bind extends extends_trans);
    [apply (respects_lift extends extends_refl) | intros summ].
  apply (respects_ret extends extends_refl).
Qed.

(** A loop over [l1 ++ l2] is the loop over [l1], then the loop over [l2]
    unless the first one raised. *)
Lemma for_each_app {A S : Type} (l1 l2 : list A) (body : A -> S -> M S) acc c :
  for_each (l1 ++ l2) body acc c
  = bind (for_each l1 body acc) (for_each l2 body) c.
Proof.
  revert acc c. induction l1 as [|x l1 IH]; intros acc c; simpl.
  - reflexivity.
  - unfold bind. destruct (body x acc c) as [[acc'|e] c1]; [|reflexivity].
    rewrite IH. reflexivity.
Qed.

Lemma transcript_data_table g natsorted transcripts c :
  snd (transcript_data g natsorted transcripts c)
  = snd (for_each transcripts (record_transcript g) [] c).
Proof.
  unfold transcript_data, bind, read_creds, ret.
  now destruct (for_each transcripts (record_transcript g) [] c) as [[rl|e] c1].
Qed.

(** The first line that mentions a course gives it the credit value of
    its first credit-hour token. *)
Lemma grade_line_first_credit subj semester line gd creds gd' creds' num rest :
  grade_line subj semester line gd creds = (Ok gd', creds') ->
  findall1 (course_num_re subj) line = num :: rest ->
  Dict.get creds (subj ++ " " ++ num) = None ->
  exists tok toks c,
    findall credit_re line = tok :: toks /\ py_float tok = Ok c /\
    Dict.get creds' (subj ++ " " ++ num) = Some c.
Proof.
  unfold grade_line, bind, lift, read_creds, ret, set_cred.
  rewrite !py_index_zero. intros H Hnum Habsent. rewrite Hnum in H.
  unfold Dict.mem in H. rewrite Habsent in H.
  destruct (findall credit_re line) as [|tok toks]; [discriminate|].
  destruct (py_float tok) as [c|e] eqn:Ef; [|discriminate].
  injection H as _ <-. exists tok, toks, c.
  split; [reflexivity|]. split; [exact Ef|]. apply get_set_same.
Qed.

(** C2.  The credit table is first-seen-wins.  A course line leaves every
    credit value of the table as it is, and gives a course the table
    does not hold the value of the first credit-hour token of the line;
    and what the table holds once the leading transcripts of a run are
    processed, it holds at the end of the run, whatever the later
    transcripts say. *)
Theorem credit_table_first_seen_wins :
  (forall subj semester line grades_dict creds r creds' course v,
      grade_line subj semester line grades_dict creds = (r, creds') ->
      Dict.get creds course = Some v -> Dict.get creds' course = Some v) /\
  (forall subj semester line grades_dict creds grades' creds' num rest,
      grade_line subj semester line grades_dict creds = (Ok grades', creds') ->
      findall1 (course_num_re subj) line = num :: rest ->
      Dict.get creds (subj ++ " " ++ num) = None ->
      exists tok toks c,
        findall credit_re line = tok :: toks /\ py_float tok = Ok c /\
        Dict.get creds' (subj ++ " " ++ num) = Some c) /\
  (forall g natsorted ts1 ts2 creds course v,
      Dict.get (snd (transcript_data g natsorted ts1 creds)) course = Some v ->
      Dict.get (snd (transcript_data g natsorted (ts1 ++ ts2) creds)) course = Some v).
Proof.
  split; [|split].
  - intros subj semester line gd creds r creds' course v H.
    exact (grade_line_extends _ _ _ _ _ _ _ H course v).
  - intros. eapply grade_line_first_credit; eauto.
  - intros g natsorted ts1 ts2 creds course v.
    rewrite !transcript_data_table, for_each_app. unfold bind.
    destruct (for_each ts1 (record_transcript g) [] creds) as [[rl|e] c1] eqn:E1;
      simpl; [|auto].
    destruct (for_each ts2 (record_transcript g) rl c1) as [r2 c2] eqn:E2. simpl.
    revert course v.
    eapply (respects_for_each extends extends_refl extends_trans); [|exact E2].
    intros. apply record_transcript_extends.
Qed.

(** ** The latest occurrence of a course wins *)

(** The semesters of a transcript in document order, each label with the
    text up to the next label. *)
Fixpoint pair_up (l : list string) : list (string * string) :=
  match l with
  | label :: body :: l' => (label, body) :: pair_up l'
  | _ => []
  end.

Definition semesters (transcript : string) : list (string * string) :=
  pair_up (tl (Re.split semester_re transcript)).

(** The course lines of a subject in document order, each with the label
    of its semester. *)
Definition course_lines (transcript subj : string) : list (string * string) :=
  flat_map (fun sb => map (pair (fst sb)) (findall (raw_grades_re subj) (snd sb)))
           (semesters transcript).

(** The course key a line is filed under. *)
Definition line_course (subj line : string) : option string :=
  match findall1 (course_num_re subj) line with
  | num :: _ => Some (subj ++ " " ++ num)
  | [] => None
  end.

(** The grade of a line, or the placeholder of its semester. *)
Definition line_grade (semester line : string) : string :=
  match findall1 grade_re line with
  | g :: _ => g
  | [] => sem_abbr semester
  end.

Definition is_course (subj course : string) (sl : string * string) : bool :=
  match line_course subj (snd sl) with
  | Some c => String.eqb c course
  | None => false
  end.

(** The last of the lines filed under [course]. *)
Definition latest_line (subj course : string) (ls : list (string * string))
  : option (string * string) :=
  fold_left (fun acc sl => if is_course subj course sl then Some sl else acc) ls None.

(** What the body of the line loop does to the grades of the student. *)
Lemma grade_line_ok subj semester line gd c gd' c' :
  grade_line subj semester line gd c = (Ok gd', c') ->
  exists course,
    line_course subj line = Some course /\
    gd' = Dict.set gd course (line_grade semester line).
Proof.
  unfold grade_line, line_course, line_grade, bind, lift, read_creds, ret, set_cred.
  rewrite py_index_zero.
  destruct (findall1 (course_num_re subj) line) as [|num nums]; [discriminate|].
  intros H. exists (subj ++ " " ++ num). split; [reflexivity|].
  destruct (Dict.mem c _).
  - now injection H as <- _.
  - destruct (py_index (findall credit_re line) 0); [|discriminate].
    destruct (py_float _); [|discriminate]. now injection H as <- _.
Qed.

(** The loop over the indexes of the semesters is a loop over the
    semesters. *)
Lemma semester_loop subj sp :
  forall m k front rest gd c,
    sp = (front ++ rest)%list ->
    List.length front = 2 * k + 1 -> List.length rest = 2 * m ->
    for_each (seq k m) (grade_semester subj sp) gd c
    = for_each (pair_up rest)
        (fun sb => for_each (findall (raw_grades_re subj) (snd sb))
                            (grade_line subj (fst sb))) gd c.
Proof.
  induction m as [|m IH]; intros k front rest gd c Hsp Hf Hr.
  - destruct rest; [reflexivity | discriminate].
  - destruct rest as [|label [|body rest]]; try (simpl in Hr; lia).
    simpl seq. simpl pair_up. cbn [for_each]. unfold bind.
    assert (Hg : forall acc c0,
               grade_semester subj sp k acc c0
               = for_each (findall (raw_grades_re subj) body)
                          (grade_line subj label) acc c0).
    { intros acc c0. unfold grade_semester, bind, lift.
      replace (2 * Z.of_nat k + 1)%Z with (Z.of_nat (List.length front)) by lia.
      replace (2 * Z.of_nat k + 2)%Z with (Z.of_nat (S (List.length front))) by lia.
      rewrite !py_index_nat, Hsp.
      assert (H1 : nth_error (front ++ label :: body :: rest) (List.length front)
                   = Some label)
        by (rewrite nth_error_app2 by lia; now rewrite Nat.sub_diag).
      assert (H2 : nth_error (front ++ label :: body :: rest) (S (List.length front))
                   = Some body).
      { rewrite nth_error_app2 by lia.
        now replace (S (List.length front) - List.length front) with 1 by lia. }
      now rewrite H1, H2. }
    rewrite Hg. cbn [fst snd].
    destruct (for_each _ (grade_line subj label) gd c) as [[gd1|e] c1]; [|reflexivity].
    apply (IH (S k) (front ++ [label; body])%list).
    + now rewrite <- app_assoc.
    + rewrite length_app. simpl. lia.
    + simpl in Hr. lia.
Qed.

(** Nested loops are one loop over the lines in document order. *)
Lemma nested_loop subj (sems : list (string * string)) :
  forall gd c,
    for_each sems
      (fun sb => for_each (findall (raw_grades_re subj) (snd sb))
                          (grade_line subj (fst sb))) gd c
    = for_each (flat_map (fun sb => map (pair (fst sb))
                                        (findall (raw_grades_re subj) (snd sb))) sems)
        (fun sl => grade_line subj (fst sl) (snd sl)) gd c.
Proof.
  induction sems as [|[sem info] sems IH]; intros gd c; [reflexivity|].
  cbn [for_each flat_map fst snd]. rewrite for_each_app. unfold bind.
  assert (Hl : forall ls acc c0,
             for_each ls (grade_line subj sem) acc c0
             = for_each (map (pair sem) ls)
                        (fun sl => grade_line subj (fst sl) (snd sl)) acc c0).
  { induction ls as [|l ls IHl]; intros acc c0; [reflexivity|].
    cbn [for_each map fst snd]. unfold bind.
    destruct (grade_line subj sem l acc c0) as [[a|e] c1]; [apply IHl | reflexivity]. }
  rewrite Hl.
  destruct (for_each (map _ _) _ gd c) as [[gd1|e] c1]; [apply IH | reflexivity].
Qed.

Lemma line_loop_latest subj course :
  forall ls gd c gd' c',
    for_each ls (fun sl => grade_line subj (fst sl) (snd sl)) gd c = (Ok gd', c') ->
    Dict.get gd' course
    = match fold_left (fun acc sl => if is_course subj course sl then Some sl else acc)
                      ls None with
      | Some sl => Some (line_grade (fst sl) (snd sl))
      | None => Dict.get gd course
      end.
Proof.
  intros ls. induction ls as [|sl ls IH] using rev_ind; intros gd c gd' c' H.
  - simpl in H. injection H as <- _. reflexivity.
  - rewrite for_each_app in H. unfold bind in H.
    destruct (for_each ls _ gd c) as [[gd1|e] c1] eqn:E1; [|discriminate].
    simpl in H. unfold bind, ret in H.
    destruct (grade_line subj (fst sl) (snd sl) gd1 c1) as [[gd2|e] c2] eqn:E2;
      [|discriminate].
    injection H as <- _.
    destruct (grade_line_ok _ _ _ _ _ _ _ E2) as (crs & Hc & ->).
    rewrite fold_left_app. simpl. unfold is_course at 1. rewrite Hc.
    destruct (String.eqb crs course) eqn:Eq.
    + apply String.eqb_eq in Eq. subst crs. apply get_set_same.
    + apply String.eqb_neq in Eq. rewrite get_set_other by assumption.
      exact (IH _ _ _ _ E1).
Qed.

Lemma split_nonempty r s : exists seg segs, Re.split r s = (segs ++ [seg])%list.
Proof.
  unfold Re.split. destruct (finditer r s) as [ms tl0]. eauto.
Qed.

(** The mapping before the first course line: the plan, if the text after
    the last semester header has one. *)
Definition plan_dict (transcript : string) : dict string :=
  match findall1 (field_re "Plan : ")
                 (List.last (Re.split semester_re transcript) EmptyString) with
  | p :: _ => Dict.set [] "Plan" p
  | [] => []
  end.

(** [grades_of_subj] as one loop over the course lines of the transcript. *)
Lemma grades_of_subj_lines transcript subj c :
  grades_of_subj transcript subj c
  = for_each (course_lines transcript subj)
             (fun sl => grade_line subj (fst sl) (snd sl)) (plan_dict transcript) c.
Proof.
  unfold grades_of_subj, plan_dict. rewrite semester_split_mod2.
  change (negb (Nat.eqb 1 1)) with false. cbv iota.
  destruct (split_nonempty semester_re transcript) as (seg & segs & Hsp).
  unfold bind, lift. rewrite Hsp at 1. rewrite py_index_last.
  rewrite Hsp at 3. rewrite last_last.
  unfold course_lines, semesters. rewrite <- nested_loop.
  pose proof (semester_split_mod2 transcript) as Hodd.
  destruct (Re.split semester_re transcript) as [|front rest] eqn:E; [discriminate|].
  simpl tl. simpl List.length in *.
  assert (Hlen : exists m, List.length rest = 2 * m).
  { exists (List.length rest / 2).
    pose proof (Nat.div_mod_eq (S (List.length rest)) 2) as H1.
    pose proof (Nat.div_mod_eq (List.length rest) 2) as H2.
    pose proof (Nat.mod_upper_bound (List.length rest) 2) as H3. lia. }
  destruct Hlen as [m Hm].
  replace (S (List.length rest) / 2) with m.
  2:{ rewrite Hm. replace (S (2 * m)) with (1 + m * 2) by lia.
      rewrite Nat.div_add by lia. reflexivity. }
  apply (semester_loop subj (front :: rest) m 0 [front] rest); auto.
Qed.

(** C3.  In the mapping returned by [grades_of_subj], a course key is
    bound to the grade, or the placeholder, of the last line of the
    transcript filed under it, the lines taken in document order across
    all semesters. *)
Theorem grades_of_subj_last_write_wins transcript subj creds grades creds' :
  grades_of_subj transcript subj creds = (Ok grades, creds') ->
  forall course semester line,
    latest_line subj course (course_lines transcript subj) = Some (semester, line) ->
    Dict.get grades course = Some (line_grade semester line).
Proof.
  intros H course semester line Hl.
  rewrite grades_of_subj_lines in H.
  rewrite (line_loop_latest subj course _ _ _ _ _ H).
  unfold latest_line in Hl. now rewrite Hl.
Qed.

(** ** The subject summary *)

Lemma get_in_nodup {V : Type} (d : dict V) k v :
  NoDup (Dict.keys d) -> In (k, v) d -> Dict.get d k = Some v.
Proof.
  induction d as [|[k' v'] d IH]; simpl; intros Hnd Hin; [contradiction|].
  inversion Hnd as [|? ? Hnotin Hnd']; subst.
  destruct Hin as [E|Hin].
  - injection E as -> ->. now rewrite String.eqb_refl.
  - destruct (String.eqb_spec k' k) as [->|_].
    + exfalso. apply Hnotin. change k with (fst (k, v)). now apply in_map.
    + auto.
Qed.

Section SummaryFacts.
Variable g : config.
Variables (subj : string) (grades : dict string) (excluded : list string).
Hypothesis Hnodup : NoDup (Dict.keys grades).
Hypothesis Hexcl : Dict.get (IGNORE_COURSES g) subj = Some excluded.

(** The comprehensions of [subj_summary] select the items of the
    mapping that are not excluded and whose grade passes [cond]. *)
Lemma rfilter_counted (cond : string -> bool) :
  rfilter (counted g subj grades cond) (Dict.keys grades)
  = Ok (map fst (filter (fun cg => negb (in_set (fst cg) excluded) && cond (snd cg))
                        grades)).
Proof.
  assert (H : forall l, (forall cg, In cg l -> In cg grades) ->
              rfilter (counted g subj grades cond) (map fst l)
              = Ok (map fst (filter (fun cg => negb (in_set (fst cg) excluded)
                                               && cond (snd cg)) l))).
  { induction l as [|[k v] l IH]; intros Hl; [reflexivity|].
    cbn [map rfilter filter fst snd].
    rewrite IH by (intros; apply Hl; now right).
    unfold counted at 1. unfold py_getitem. rewrite Hexcl. cbn [rbind].
    destruct (in_set k excluded); cbn [negb andb rbind]; [reflexivity|].
    rewrite (get_in_nodup grades k v Hnodup) by (apply Hl; now left).
    cbn [rbind]. now destruct (cond v). }
  apply H. auto.
Qed.
End SummaryFacts.

(** [grade_point_value]: the entry of the grade-point table. *)
Definition grade_point_value (g : config) (grade : string) : float :=
  match Dict.get (GPA_VAL g) grade with
  | Some p => p
  | None => PrimFloat.nan
  end.

(** The courses that count, after the words of the specification: not
    excluded, and with a recognized letter grade. *)
Definition filtered_set (g : config) (excluded : list string) (grades : dict string)
  : list (string * string) :=
  filter (fun cg => negb (in_set (fst cg) excluded) && Dict.mem (GPA_VAL g) (snd cg))
         grades.

(** The sum of the specification, on doubles: the terms are added one
    after the other, in the order of the courses, to a total that
    starts at 0. *)
Fixpoint sum_from (total : float) (terms : list float) : float :=
  match terms with
  | [] => total
  | term :: terms' => sum_from (PrimFloat.add total term) terms'
  end.

Definition float_sum (terms : list float) : float := sum_from 0%float terms.

(** The credit total of the courses that count. *)
Definition credit_total (credit : string -> float) (courses : list (string * string))
  : float :=
  float_sum (map (fun cg => credit (fst cg)) courses).

(** The sum of grade point value times credit over the courses that
    count. *)
Definition weighted_points (g : config) (credit : string -> float)
           (courses : list (string * string)) : float :=
  float_sum
    (map (fun cg => PrimFloat.mul (grade_point_value g (snd cg)) (credit (fst cg)))
         courses).

(** [sum] adds as the specification does. *)
Lemma py_sum_float_sum (l : list float) : py_sum l = float_sum l.
Proof.
  unfold py_sum, float_sum. generalize 0%float.
  induction l as [|x l IH]; intros total; [reflexivity|]. apply IH.
Qed.

Lemma length_ne_neq (a b : string) : String.length a <> String.length b -> a <> b.
Proof. intros H E. apply H. now rewrite E. Qed.

Lemma summary_key_distinct subj : "Num " ++ subj ++ "^ now" <> subj ++ "^ GPA".
Proof. apply length_ne_neq. simpl. rewrite !length_append. simpl. lia. Qed.

Lemma nan_not_zero : PrimFloat.nan <> 0%float.
Proof.
  intros H. apply (f_equal PrimFloat.is_nan) in H. vm_compute in H. discriminate.
Qed.

Lemma rmap_ok {A B : Type} (f : A -> result B) (h : A -> B) (l : list A) :
  (forall x, In x l -> f x = Ok (h x)) -> rmap f l = Ok (map h l).
Proof.
  induction l as [|x l IH]; intros H; [reflexivity|].
  cbn [rmap map]. rewrite H by now left. cbn [rbind].
  rewrite IH by (intros; apply H; now right). reflexivity.
Qed.

(** C1, amended.  Where the subject has an exclusion set and every course
    that counts has a credit, [subj_summary] computes the GPA over the
    courses that are not excluded and have a recognized letter grade:
    when the credit total of these courses is greater than 0, the GPA is
    the sum of grade point value times credit over them, divided by that
    credit total; when the credit total is not greater than 0, which it
    is at 0, below 0 and at NaN, the GPA is NaN, and not 0. *)
Theorem subj_summary_gpa g subj grades creds excluded credit :
  NoDup (Dict.keys grades) ->
  Dict.get (IGNORE_COURSES g) subj = Some excluded ->
  (forall cg, In cg (filtered_set g excluded grades) ->
              Dict.get creds (fst cg) = Some (credit (fst cg))) ->
  let courses := filtered_set g excluded grades in
  let total := credit_total credit courses in
  exists summary gpa,
    subj_summary g subj grades creds = Ok summary /\
    Dict.get summary ("Num " ++ subj ++ "^ creds")
    = Some (match courses with
            | [] => VInt 0
            | _ :: _ => VFloat total
            end) /\
    Dict.get summary (subj ++ "^ GPA") = Some (VFloat gpa) /\
    (PrimFloat.ltb 0 total = true ->
     gpa = PrimFloat.div (weighted_points g credit courses) total) /\
    (PrimFloat.ltb 0 total = false -> gpa = PrimFloat.nan /\ gpa <> 0%float) /\
    (total = 0%float -> gpa = PrimFloat.nan /\ gpa <> 0%float).
Proof.
  intros Hnd Hex Hcred courses total.
  unfold subj_summary.
  rewrite (rfilter_counted g subj grades excluded Hnd Hex (Dict.mem (GPA_VAL g))).
  rewrite (rfilter_counted g subj grades excluded Hnd Hex (String.eqb (CURR_SEM g))).
  fold (filtered_set g excluded grades). fold courses. cbn [rbind].
  rewrite (rmap_ok (py_getitem creds) (fun k => credit k)).
  2:{ intros k Hk. apply in_map_iff in Hk as (cg & <- & Hcg).
      unfold py_getitem. now rewrite (Hcred cg Hcg). }
  cbn [rbind].
  rewrite (rmap_ok _ (fun k => match Dict.get grades k with
                               | Some grade =>
                                   PrimFloat.mul (grade_point_value g grade) (credit k)
                               | None => PrimFloat.nan
                               end)).
  2:{ intros k Hk. apply in_map_iff in Hk as (cg & <- & Hcg).
      pose proof Hcg as Hf. apply filter_In in Hf as [Hin Hc].
      apply andb_prop in Hc as [_ Hmem]. destruct cg as [k v]. cbn [fst snd] in *.
      unfold py_getitem. rewrite (get_in_nodup grades k v Hnd Hin). cbn [rbind].
      unfold grade_point_value. unfold Dict.mem in Hmem.
      destruct (Dict.get (GPA_VAL g) v); [|discriminate]. cbn [rbind].
      pose proof (Hcred (k, v) Hcg) as Hkv. cbn [fst] in Hkv. now rewrite Hkv. }
  cbn [rbind].
  assert (Hmap : map (fun k => credit k) (map fst courses)
                 = map (fun cg => credit (fst cg)) courses) by apply map_map.
  assert (Hw : py_sum (map (fun k => match Dict.get grades k with
                                     | Some grade =>
                                         PrimFloat.mul (grade_point_value g grade)
                                                       (credit k)
                                     | None => PrimFloat.nan
                                     end) (map fst courses))
               = weighted_points g credit courses).
  { unfold weighted_points. rewrite py_sum_float_sum, map_map. f_equal.
    apply map_ext_in.
    intros [k v] Hcg. apply filter_In in Hcg as [Hin _]. cbn [fst snd].
    now rewrite (get_in_nodup grades k v Hnd Hin). }
  assert (Hc : py_sum (map (fun cg => credit (fst cg)) courses) = total)
    by apply py_sum_float_sum.
  assert (Hv : py_sum_value (map (fun cg => credit (fst cg)) courses)
               = match courses with
                 | [] => VInt 0
                 | _ :: _ => VFloat total
                 end).
  { unfold py_sum_value. rewrite Hc. now destruct courses. }
  rewrite Hw, Hmap, Hc, Hv.
  assert (Hnan : PrimFloat.ltb 0 total = false ->
                 (if PrimFloat.ltb 0 total
                  then PrimFloat.div (weighted_points g credit courses) total
                  else PrimFloat.nan) = PrimFloat.nan
                 /\ (if PrimFloat.ltb 0 total
                     then PrimFloat.div (weighted_points g credit courses) total
                     else PrimFloat.nan) <> 0%float).
  { intros Hneg. rewrite Hneg. split; [reflexivity | apply nan_not_zero]. }
  eexists. eexists. split; [reflexivity|].
  unfold dict_of, Dict.update. cbn [fold_left fst snd].
  split; [|split; [|split; [|split]]].
  - rewrite get_set_other by (apply length_ne_neq; rewrite !length_append; simpl; lia).
    rewrite get_set_other by (apply length_ne_neq; rewrite !length_append; simpl; lia).
    apply get_set_same.
  - rewrite get_set_other by apply summary_key_distinct. apply get_set_same.
  - intros Hpos. now rewrite Hpos.
  - exact Hnan.
  - intros Hz. apply Hnan. rewrite Hz. reflexivity.
Qed.

Definition sample_grades : dict string :=
  [("MTH 9", "A-"); ("MTH 22", "S22"); ("MTH 1", "B"); ("MTH 7", "C+")].

Definition sample_creds : dict float :=
  [("MTH 9", 4.0%float); ("MTH 22", 3.0%float); ("MTH 1", 3.0%float);
   ("MTH 7", 3.0%float)].

Definition sample_credit (course : string) : float :=
  match Dict.get sample_creds course with
  | Some c => c
  | None => PrimFloat.nan
  end.

Definition sample_excluded : list string :=
  ["MTH 1"; "MTH 3"; "MTH 4"; "MTH 5"; "MTH 6"; "MTH 15"; "MTH 16"; "MTH 19"; "MTH 90"].

Lemma subj_summary_gpa_witness :
  exists summary gpa,
    subj_summary globals "MTH" sample_grades sample_creds = Ok summary /\
    Dict.get summary ("Num " ++ "MTH" ++ "^ creds")
    = Some (match filtered_set globals sample_excluded sample_grades with
            | [] => VInt 0
            | _ :: _ =>
                VFloat (credit_total sample_credit
                          (filtered_set globals sample_excluded sample_grades))
            end) /\
    Dict.get summary ("MTH" ++ "^ GPA") = Some (VFloat gpa) /\
    (PrimFloat.ltb 0 (credit_total sample_credit
                        (filtered_set globals sample_excluded sample_grades)) = true ->
     gpa = PrimFloat.div
             (weighted_points globals sample_credit
                (filtered_set globals sample_excluded sample_grades))
             (credit_total sample_credit
                (filtered_set globals sample_excluded sample_grades))) /\
    (PrimFloat.ltb 0 (credit_total sample_credit
                        (filtered_set globals sample_excluded sample_grades)) = false ->
     gpa = PrimFloat.nan /\ gpa <> 0%float) /\
    (credit_total sample_credit (filtered_set globals sample_excluded sample_grades)
     = 0%float -> gpa = PrimFloat.nan /\ gpa <> 0%float).
Proof.
  apply (subj_summary_gpa globals "MTH" sample_grades sample_creds
                          sample_excluded sample_credit).
  - repeat (constructor;
            [simpl; intros H; repeat (destruct H as [H|H]; [discriminate|]); exact H|]).
    constructor.
  - reflexivity.
  - intros cg H. vm_compute in H.
    destruct H as [<-|[<-|[]]]; reflexivity.
Defined.

(** *** A credit total below 0

    On a table with a negative credit the credit total is not 0 and the
    quotient of the two sums is a number, here 4; [subj_summary] tests
    that the total is greater than 0 and gives NaN. *)

Definition negative_grades : dict string := [("MTH 9", "A")].
Definition negative_creds : dict float := [("MTH 9", PrimFloat.opp 3%float)].

Definition negative_credit (course : string) : float :=
  match Dict.get negative_creds course with
  | Some c => c
  | None => PrimFloat.nan
  end.

Lemma negative_total_gpa_nan :
  let courses := filtered_set globals sample_excluded negative_grades in
  let total := credit_total negative_credit courses in
  exists summary,
    subj_summary globals "MTH" negative_grades negative_creds = Ok summary /\
    Dict.get summary "MTH^ GPA" = Some (VFloat PrimFloat.nan) /\
    courses = [("MTH 9", "A")] /\
    total = PrimFloat.opp 3%float /\
    PrimFloat.eqb total 0%float = false /\
    PrimFloat.div (weighted_points globals negative_credit courses) total = 4%float /\
    PrimFloat.nan <> 4%float.
Proof.
  eexists. split; [vm_compute; reflexivity|].
  repeat split; try (vm_compute; reflexivity).
  intros H. apply (f_equal PrimFloat.is_nan) in H. vm_compute in H. discriminate.
Qed.

(** *** The example of the specification *)

Definition no_exclusions : config := {|
  CURR_SEM := CURR_SEM globals;
  SUBJECTS := SUBJECTS globals;
  IGNORE_COURSES := [("MTH", []); ("PHY", [])];
  GPA_VAL := GPA_VAL globals
|}.

Definition two_courses : dict string := [("A", "A"); ("B", "B-")].
Definition two_credits : dict float := [("A", 3.00%float); ("B", 4.00%float)].

(** Equal once rounded to three decimals. *)
Definition approx (x y : float) : bool :=
  PrimFloat.ltb (PrimFloat.abs (PrimFloat.sub x y)) 0.0005%float.

Lemma two_courses_gpa_not_2667 :
  exists summary gpa,
    subj_summary no_exclusions "MTH" two_courses two_credits = Ok summary /\
    Dict.get summary "MTH^ GPA" = Some (VFloat gpa) /\
    approx gpa 2.667%float = false /\
    PrimFloat.ltb 3.2%float gpa = true.
Proof.
  eexists. eexists. split; [vm_compute; reflexivity|].
  split; [vm_compute; reflexivity|]. split; vm_compute; reflexivity.
Qed.

(** C8, amended.  For course A with grade A and credit 3.00 and course B
    with grade B- and credit 4.00, nothing excluded, [subj_summary] yields
    the GPA (4.0*3 + 2.667*4)/7, which is 3.238 to three decimals. *)
Theorem two_courses_gpa :
  exists summary gpa,
    subj_summary no_exclusions "MTH" two_courses two_credits = Ok summary /\
    Dict.get summary "MTH^ GPA" = Some (VFloat gpa) /\
    gpa = PrimFloat.div
            (PrimFloat.add (PrimFloat.mul 4.0%float 3%float)
                           (PrimFloat.mul 2.667%float 4%float))
            7%float /\
    approx gpa 3.238%float = true.
Proof.
  eexists. eexists. split; [vm_compute; reflexivity|].
  split; [vm_compute; reflexivity|]. split; vm_compute; reflexivity.
Qed.

(** ** Personal information *)

(** The label occurs nowhere in the text. *)
Definition absent (label t : string) : Prop :=
  forall pre post, t <> pre ++ label ++ post.

(** The text has a line that goes on from the label to a newline. *)
Definition has_line (label t : string) : Prop :=
  exists pre x post,
    t = pre ++ label ++ x ++ String nl post /\ all_in dot x = true.

Lemma lit_matches d gs : matches (lit d) d gs gs.
Proof.
  induction d as [|c d IH]; simpl; [constructor|].
  change (String c d) with (String c EmptyString ++ d).
  econstructor; [|exact IH]. constructor. apply Ascii.eqb_refl.
Qed.

Lemma matches_lit d : forall t gs gs', matches (lit d) t gs gs' -> t = d /\ gs' = gs.
Proof.
  induction d as [|c d IH]; simpl; intros t gs gs' H.
  - inversion H; subst. auto.
  - inversion H as [| |r1 r2 t1 t2 gs0 g1 g2 H1 H2| | | |]; subst.
    inversion H1 as [|p c0 gs0 Hp| | | | |]; subst.
    apply Ascii.eqb_eq in Hp. subst c0.
    destruct (IH _ _ _ H2) as [-> ->]. auto.
Qed.

Lemma field_re_nullable label : nullable (field_re label) = false.
Proof. simpl. apply andb_false_r. Qed.

Lemma any_line_matches x gs :
  all_in dot x = true ->
  matches any_line (x ++ String nl EmptyString) gs (gs ++ [x])%list.
Proof.
  intros Hx. unfold any_line. econstructor.
  - constructor. now constructor.
  - constructor. apply Ascii.eqb_refl.
Qed.

Lemma field_found label t :
  has_line label t -> findall1 (field_re label) t <> [].
Proof.
  intros (pre & x & post & -> & Hx). unfold findall1, finditer.
  intros H. apply map_eq_nil in H. revert H.
  apply (scan_some (field_re label) (field_re_nullable label) _ _
                   pre (label ++ x ++ String nl EmptyString) post [x]).
  - rewrite !append_assoc. reflexivity.
  - unfold field_re. econstructor; [apply lit_matches|].
    now apply (any_line_matches x []).
Qed.

Lemma field_absent label t :
  absent label t -> findall1 (field_re label) t = [].
Proof.
  intros Habs. unfold findall1, finditer.
  destruct (fst (scan (field_re label) t 0 EmptyString)) as [|m ms] eqn:E;
    [reflexivity|exfalso].
  assert (Hin : In m (fst (scan (field_re label) t 0 EmptyString)))
    by (rewrite E; now left).
  destruct (scan_in _ (field_re_nullable label) _ _ _ Hin) as (M & u & v & Ht).
  assert (Hx : exists x, m_text m = label ++ x).
  { unfold field_re in M.
    inversion M as [| |r1 r2 t1 t2 gs0 g1 g2 H1 H2| | | |]; subst.
    destruct (matches_lit _ _ _ _ H1) as [-> _]. eauto. }
  destruct Hx as [x Hx].
  apply (Habs u (x ++ v)). rewrite Ht, Hx. now rewrite !append_assoc.
Qed.

Lemma personal_info_raises transcript e :
  personal_info transcript = Raise e -> e = IndexError.
Proof.
  unfold personal_info. intros H.
  destruct (py_index (findall1 (field_re "Name : ") transcript) 0) eqn:E1;
    [|injection H as <-; eapply py_index_raises; eauto].
  destruct (py_index (findall1 (field_re "Student ID: ") transcript) 0) eqn:E2;
    [|injection H as <-; eapply py_index_raises; eauto].
  destruct (py_index (findall1 (field_re "Sex : ") transcript) 0) eqn:E3;
    [|injection H as <-; eapply py_index_raises; eauto].
  cbn [rbind] in H. destruct (findalln address_re transcript); discriminate.
Qed.

(** C5.  [personal_info] raises [IndexError] when one of the labels of
    the name, the student ID or the sex is absent from the block, and the
    exception ends the run; where the three fields are there and no part
    of the block matches the three-line address pattern, it returns with
    the three address fields equal to the empty string. *)
Theorem personal_info_fields transcript :
  (absent "Name : " transcript \/ absent "Student ID: " transcript
   \/ absent "Sex : " transcript ->
   personal_info transcript = Raise IndexError /\
   forall g natsorted ts1 ts2 creds records creds1,
     for_each ts1 (record_transcript g) [] creds = (Ok records, creds1) ->
     transcript_data g natsorted (ts1 ++ transcript :: ts2) creds
     = (Raise IndexError, creds1)) /\
  (has_line "Name : " transcript -> has_line "Student ID: " transcript ->
   has_line "Sex : " transcript -> no_match address_re transcript ->
   exists info,
     personal_info transcript = Ok info /\
     Dict.get info "Address1" = Some (VStr "") /\
     Dict.get info "Address2" = Some (VStr "") /\
     Dict.get info "Address3" = Some (VStr "")).
Proof.
  split.
  - intros Habs.
    assert (Hraise : personal_info transcript = Raise IndexError).
    { destruct (personal_info transcript) as [info|e] eqn:E.
      - exfalso. unfold personal_info in E. rewrite !py_index_zero in E.
        destruct Habs as [H|[H|H]]; apply field_absent in H; rewrite H in E;
          cbn [rbind] in E;
          repeat match type of E with
                 | context [match ?l with [] => _ | _ :: _ => _ end] =>
                     destruct l; cbn [rbind] in E; try discriminate
                 end; discriminate.
      - f_equal. eapply personal_info_raises; eauto. }
    split; [exact Hraise|].
    intros g natsorted ts1 ts2 creds records creds1 H1.
    unfold transcript_data. unfold bind at 1. rewrite for_each_app.
    unfold bind at 1. rewrite H1. cbn [for_each]. unfold bind at 1.
    unfold record_transcript at 1. unfold bind at 1. unfold lift at 1.
    now rewrite Hraise.
  - intros Hn Hi Hs Ha. unfold personal_info. rewrite !py_index_zero.
    apply field_found in Hn, Hi, Hs.
    destruct (findall1 (field_re "Name : ") transcript) as [|name ?]; [congruence|].
    destruct (findall1 (field_re "Student ID: ") transcript) as [|sid ?]; [congruence|].
    destruct (findall1 (field_re "Sex : ") transcript) as [|sex ?]; [congruence|].
    cbn [rbind].
    assert (Hnone : findalln address_re transcript = []).
    { unfold findalln, finditer. now rewrite (scan_none address_re eq_refl _ _ Ha). }
    rewrite Hnone. eexists. split; [reflexivity|]. repeat split.
Qed.

(** ** Student segmentation *)

(** The number of positions of [s] at which [d] occurs. *)
Fixpoint occurrences (d s : string) : nat :=
  match s with
  | EmptyString => if starts_with d s then 1 else 0
  | String _ s' => (if starts_with d s then 1 else 0) + occurrences d s'
  end.

(** A delimiter that is not empty and cannot overlap itself: none of its
    proper suffixes is one of its prefixes. *)
Definition unbordered (d : string) : bool :=
  negb (String.eqb d EmptyString)
  && forallb (fun j => negb (starts_with (drop j d) d)) (seq 1 (String.length d - 1)).

Lemma starts_with_extend d w s :
  starts_with d w = true -> starts_with d (w ++ s) = true.
Proof.
  intros H. apply starts_with_inv in H as [rest ->].
  rewrite append_assoc. apply starts_with_append.
Qed.

Lemma starts_with_prefix : forall x d rest,
    starts_with d (x ++ rest) = true -> String.length x <= String.length d ->
    starts_with x d = true.
Proof.
  induction x as [|a x IH]; intros d rest H Hlen; [reflexivity|].
  destruct d as [|b d]; [simpl in Hlen; lia|].
  simpl in *. apply andb_prop in H as [Hab H].
  apply Ascii.eqb_eq in Hab. subst b. rewrite Ascii.eqb_refl. simpl.
  apply (IH d rest H). lia.
Qed.

Lemma length_drop : forall j d, String.length (drop j d) = String.length d - j.
Proof.
  induction j as [|j IH]; intros [|c d]; simpl; auto. 
Qed.

Lemma drop_S : forall j d c x, drop j d = String c x -> drop (S j) d = x.
Proof.
  induction j as [|j IH]; intros d0 c x H.
  - simpl in H. now subst d0.
  - destruct d0 as [|a d0]; simpl in H; [discriminate|].
    simpl. exact (IH _ _ _ H).
Qed.

Lemma occurrences_zero d p :
  occurrences d p = 0 <-> (forall u w, p = u ++ w -> starts_with d w = false).
Proof.
  induction p as [|c p IH]; simpl.
  - split.
    + intros H u w E. destruct u; [|discriminate]. simpl in E. subst w.
      now destruct (starts_with d EmptyString).
    + intros H. now rewrite (H EmptyString EmptyString eq_refl).
  - split.
    + intros H u w E.
      destruct (starts_with d (String c p)) eqn:Hs; [discriminate|].
      destruct u as [|a u]; simpl in E.
      * now subst w.
      * injection E as _ E. apply (proj1 IH H u w E).
    + intros H. rewrite (H EmptyString (String c p) eq_refl). simpl.
      apply IH. intros u w E. apply (H (String c u) w). simpl. now rewrite E.
Qed.

Section Delimiter.
Variable d : string.
Hypothesis Hd : unbordered d = true.

Lemma delimiter_nonempty : d <> EmptyString.
Proof.
  unfold unbordered in Hd. apply andb_prop in Hd as [H _].
  intros E. rewrite E in H. discriminate.
Qed.

Lemma delimiter_nullable : nullable (lit d) = false.
Proof. pose proof delimiter_nonempty. destruct d; [congruence | reflexivity]. Qed.

Lemma no_self_overlap j rest :
  1 <= j -> j < String.length d -> starts_with d (drop j d ++ rest) = false.
Proof.
  intros H1 H2. destruct (starts_with d (drop j d ++ rest)) eqn:E; [|reflexivity].
  apply starts_with_prefix in E; [|rewrite length_drop; lia].
  unfold unbordered in Hd. apply andb_prop in Hd as [_ Hall].
  rewrite forallb_forall in Hall. specialize (Hall j).
  rewrite E in Hall. simpl in Hall. symmetry. apply Hall. apply in_seq. lia.
Qed.

Lemma occurrences_suffix rest : forall n j,
    n = String.length d - j -> 1 <= j -> j <= String.length d ->
    occurrences d (drop j d ++ rest) = occurrences d rest.
Proof.
  induction n as [|n IH]; intros j Hn H1 H2.
  - assert (E : drop j d = EmptyString).
    { pose proof (length_drop j d). destruct (drop j d); [reflexivity | simpl in *; lia]. }
    now rewrite E.
  - destruct (drop j d) as [|c x] eqn:E.
    { pose proof (length_drop j d) as L. rewrite E in L. simpl in L. lia. }
    pose proof (length_drop j d) as L. rewrite E in L. simpl in L.
    cbn [append occurrences].
    change (String c (x ++ rest)) with (String c x ++ rest). rewrite <- E.
    rewrite no_self_overlap by lia. simpl.
    rewrite <- (drop_S _ _ _ _ E). apply IH; lia.
Qed.

Lemma occurrences_skip rest : occurrences d (d ++ rest) = S (occurrences d rest).
Proof.
  pose proof delimiter_nonempty as Hne.
  assert (H : exists c, d = String c (drop 1 d))
    by (destruct d; [congruence | eexists; reflexivity]).
  destruct H as [c Hc].
  assert (Hlen : 1 <= String.length d) by (rewrite Hc; simpl; lia).
  rewrite Hc at 2. cbn [append occurrences].
  change (String c (drop 1 d ++ rest)) with (String c (drop 1 d) ++ rest).
  rewrite <- Hc, starts_with_append.
  now rewrite (occurrences_suffix rest (String.length d - 1) 1) by lia.
Qed.

Lemma match_here_lit s gs rest :
  match_here (lit d) s = Some (gs, rest) -> s = d ++ rest /\ gs = [].
Proof.
  intros H. apply match_here_sound in H as (t & -> & M).
  now destruct (matches_lit _ _ _ _ M) as [-> ->].
Qed.

Lemma match_here_lit_none s :
  match_here (lit d) s = None -> starts_with d s = false.
Proof.
  intros H. destruct (starts_with d s) eqn:E; [|reflexivity].
  apply starts_with_inv in E as [rest ->].
  destruct (match_here_complete (lit d) d [] rest (lit_matches d [])) as [x Hx].
  congruence.
Qed.

Lemma scan_lit_count : forall s pre,
    List.length (fst (scan (lit d) s 0 pre)) = occurrences d s.
Proof.
  intros s pre. pattern s, pre, (scan (lit d) s 0 pre).
  apply (scan_ind (lit d) delimiter_nullable); clear s pre.
  - intros pre Hnone. simpl. now rewrite (match_here_lit_none _ Hnone).
  - intros s pre gs rest Hm IH. destruct (match_here_lit _ _ _ Hm) as [-> ->].
    simpl. rewrite occurrences_skip. now f_equal.
  - intros c s pre Hnone IH. cbn [occurrences].
    now rewrite (match_here_lit_none _ Hnone).
Qed.

Lemma scan_lit_shape s pre m :
  In m (fst (scan (lit d) s 0 pre)) -> m_text m = d /\ m_groups m = [].
Proof.
  intros Hin. destruct (scan_in _ delimiter_nullable _ _ _ Hin) as [M _].
  exact (matches_lit _ _ _ _ M).
Qed.

(** No occurrence of the delimiter in [pre ++ s] starts within [pre]. *)
Definition clear_before (pre s : string) : Prop :=
  forall u w, pre = u ++ w -> w <> EmptyString -> starts_with d (w ++ s) = false.

Lemma clear_no_occurrence pre s : clear_before pre s -> occurrences d pre = 0.
Proof.
  intros Q. apply occurrences_zero. intros u w E.
  destruct w as [|a w].
  - pose proof delimiter_nonempty. destruct d; [congruence | reflexivity].
  - destruct (starts_with d (String a w)) eqn:Hs; [|reflexivity].
    rewrite <- (Q u (String a w) E); [|discriminate].
    symmetry. now apply starts_with_extend.
Qed.

Lemma append_snoc_inv : forall u w pre c,
    u ++ w = pre ++ String c EmptyString -> w <> EmptyString ->
    exists w0, w = w0 ++ String c EmptyString /\ pre = u ++ w0.
Proof.
  induction u as [|a u IH]; intros w pre c E Hw; simpl in E.
  - exists pre. auto.
  - destruct pre as [|b pre]; simpl in E.
    + injection E as _ E. destruct u; [simpl in E; congruence | discriminate].
    + injection E as -> E. destruct (IH _ _ _ E Hw) as (w0 & -> & ->).
      now exists w0.
Qed.

Lemma scan_lit_pieces : forall s pre,
    clear_before pre s ->
    Forall (fun m => occurrences d (m_pre m) = 0) (fst (scan (lit d) s 0 pre)) /\
    occurrences d (snd (scan (lit d) s 0 pre)) = 0.
Proof.
  intros s pre. pattern s, pre, (scan (lit d) s 0 pre).
  apply (scan_ind (lit d) delimiter_nullable); clear s pre.
  - intros pre _ Q. split; [constructor|]. simpl. eapply clear_no_occurrence; eauto.
  - intros s pre gs rest Hm IH Q. cbn [fst snd].
    destruct IH as [IH1 IH2].
    { intros u w E Hw. destruct u; [simpl in E; congruence | discriminate]. }
    split; [|assumption]. constructor; [|assumption].
    simpl. eapply clear_no_occurrence; eauto.
  - intros c s pre Hnone IH Q. apply IH.
    intros u w E Hw. symmetry in E.
    destruct (append_snoc_inv _ _ _ _ E Hw) as (w0 & -> & ->).
    rewrite append_assoc. simpl.
    destruct w0 as [|a w0].
    + simpl. now apply match_here_lit_none.
    + apply (Q u (String a w0)); [reflexivity | discriminate].
Qed.

Lemma join_blocks ms tl0 :
  (forall m, In m ms -> m_text m = d) ->
  join (map (fun m => m_pre m ++ m_text m) ms) ++ tl0
  = hd EmptyString (map m_pre ms ++ [tl0])%list
    ++ join (map (append d) (tl (map m_pre ms ++ [tl0])%list)).
Proof.
  intros Ht.
  assert (Haux : forall l, (forall m, In m l -> m_text m = d) ->
                 d ++ join (map (fun m => m_pre m ++ m_text m) l) ++ tl0
                 = join (map (append d) (map m_pre l ++ [tl0])%list)).
  { induction l as [|m l IH]; intros Hl; simpl.
    - now rewrite append_nil_r.
    - rewrite <- IH by (intros; apply Hl; now right).
      rewrite (Hl m) by now left. now rewrite !append_assoc. }
  destruct ms as [|m ms]; simpl.
  - now rewrite append_nil_r.
  - rewrite <- Haux by (intros; apply Ht; now right).
    rewrite (Ht m) by now left. now rewrite !append_assoc.
Qed.

Lemma split_lit text :
  Re.split (lit d) text
  = (map m_pre (fst (finditer (lit d) text)) ++ [snd (finditer (lit d) text)])%list.
Proof.
  unfold Re.split, finditer.
  pose proof (scan_lit_shape text EmptyString) as Hshape.
  destruct (scan (lit d) text 0 EmptyString) as [ms tl0]. cbn [fst snd] in *.
  f_equal. induction ms as [|m ms IH]; [reflexivity|].
  simpl. destruct (Hshape m (or_introl eq_refl)) as [_ ->]. simpl. f_equal.
  apply IH. intros m' Hm'. apply Hshape. now right.
Qed.
End Delimiter.

(** C9.  For a delimiter that cannot overlap itself, [separate_students]
    returns one block for each occurrence of the delimiter in the text;
    each block begins with the delimiter and holds no other occurrence of
    it; the text is the blocks one after the other behind a preamble
    without occurrence, which is dropped; without an occurrence the
    result is empty. *)
Theorem separate_students_blocks text d :
  unbordered d = true ->
  let blocks := separate_students text d in
  List.length blocks = occurrences d text /\
  Forall (fun b => starts_with d b = true /\ occurrences d b = 1) blocks /\
  (exists preamble,
      occurrences d preamble = 0 /\ text = preamble ++ join blocks) /\
  (occurrences d text = 0 -> blocks = []).
Proof.
  intros Hd blocks.
  assert (Hblocks : blocks = map (append d) (tl (Re.split (lit d) text)))
    by reflexivity.
  rewrite (split_lit d Hd) in Hblocks.
  pose proof (scan_lit_count d Hd text EmptyString) as Hcount.
  pose proof (scan_lit_shape d Hd text EmptyString) as Hshape.
  destruct (scan_lit_pieces d Hd text EmptyString) as [Hpre Htl].
  { intros u w E Hw. destruct u; [simpl in E; congruence | discriminate]. }
  pose proof (scan_concat (lit d) (delimiter_nullable d Hd) text EmptyString) as Hcat.
  unfold finditer in Hblocks. simpl in Hcat.
  destruct (scan (lit d) text 0 EmptyString) as [ms tl0]. cbn [fst snd] in *.
  assert (Hlen : List.length blocks = occurrences d text).
  { rewrite Hblocks, length_map. destruct ms; simpl in *; [assumption|].
    rewrite length_app, length_map. simpl. lia. }
  assert (Hpieces : Forall (fun p => occurrences d p = 0) (map m_pre ms ++ [tl0])%list).
  { apply Forall_app. split; [|now constructor].
    apply Forall_map. exact Hpre. }
  split; [exact Hlen|]. split; [|split].
  - rewrite Hblocks. apply Forall_map.
    assert (Htail : Forall (fun p => occurrences d p = 0)
                           (tl (map m_pre ms ++ [tl0])%list)).
    { destruct (map m_pre ms ++ [tl0])%list; [constructor|].
      now inversion Hpieces. }
    eapply Forall_impl; [|exact Htail]. intros p Hp. cbv beta.
    split; [apply starts_with_append|].
    now rewrite (occurrences_skip d Hd), Hp.
  - exists (hd EmptyString (map m_pre ms ++ [tl0])%list). split.
    + destruct (map m_pre ms ++ [tl0])%list eqn:E.
      * destruct ms; discriminate.
      * now inversion Hpieces.
    + rewrite Hblocks, <- Hcat. apply join_blocks.
      intros m Hm. now destruct (Hshape m Hm).
  - intros Hz. rewrite Hz in Hlen. now destruct blocks.
Qed.

Lemma separate_students_blocks_witness :
  let text := lines ["Page 1"; "Name : Bob"; "Sex : M"; "Name : Al"; "Sex : F"] in
  let blocks := separate_students text name_splitter_default in
  List.length blocks = occurrences name_splitter_default text /\
  Forall (fun b => starts_with name_splitter_default b = true
                   /\ occurrences name_splitter_default b = 1) blocks /\
  (exists preamble,
      occurrences name_splitter_default preamble = 0
      /\ text = preamble ++ join blocks) /\
  (occurrences name_splitter_default text = 0 -> blocks = []).
Proof.
  exact (separate_students_blocks
           (lines ["Page 1"; "Name : Bob"; "Sex : M"; "Name : Al"; "Sex : F"])
           name_splitter_default eq_refl).
Defined.

(** ** The first labelled line *)

Lemma exec_lit {A : Type} d : forall s gs (k : string -> list string -> option A),
    exec (lit d) (d ++ s) gs k = k s gs.
Proof.
  induction d as [|c d IH]; intros s gs k; simpl; [reflexivity|].
  unfold chr. rewrite Ascii.eqb_refl. apply IH.
Qed.

(** The greedy star takes the whole run when the continuation accepts
    what follows it. *)
Lemma star_greedy {A : Type} (p : charset) v c post (k : string -> option A) a :
  all_in p v = true -> p c = false -> k (String c post) = Some a ->
  star p (v ++ String c post) k = Some a.
Proof.
  intros Hv Hc Hk. induction v as [|x v IH]; simpl in *.
  - now rewrite Hc.
  - apply andb_prop in Hv as [Hx Hv]. rewrite Hx. now rewrite (IH Hv).
Qed.

Lemma match_here_field label v post :
  all_in dot v = true ->
  match_here (field_re label) (label ++ v ++ String nl post) = Some ([v], post).
Proof.
  intros Hv. unfold match_here, field_re, any_line.
  cbn [exec]. rewrite exec_lit. cbn [exec].
  apply star_greedy; [assumption | reflexivity|].
  rewrite consumed_append. unfold chr. now rewrite Ascii.eqb_refl.
Qed.

Lemma starts_with_shorten : forall d x y,
    starts_with d (x ++ y) = true -> String.length d <= String.length x ->
    starts_with d x = true.
Proof.
  induction d as [|a d IH]; intros x y H Hlen; [reflexivity|].
  destruct x as [|b x]; [simpl in Hlen; lia|].
  simpl in *. apply andb_prop in H as [-> H]. simpl.
  apply (IH x y H). lia.
Qed.

(** [v] is what follows the label on the first line of [seg] that
    carries the label. *)
Definition first_line (label seg v : string) : Prop :=
  exists pre post,
    seg = pre ++ label ++ v ++ String nl post /\
    all_in dot v = true /\
    (forall u w, pre = u ++ w -> w <> EmptyString ->
                 starts_with label (w ++ label) = false).

Lemma scan_pass (r : regex) s : forall pre acc,
    (forall u w, pre = u ++ w -> w <> EmptyString -> match_here r (w ++ s) = None) ->
    scan r (pre ++ s) 0 acc = scan r s 0 (acc ++ pre).
Proof.
  induction pre as [|c pre IH]; intros acc H; simpl append.
  - now rewrite append_nil_r.
  - rewrite scan_no_match.
    + rewrite IH.
      * now rewrite append_assoc.
      * intros u w E Hw. apply (H (String c u) w); [simpl; now rewrite E | assumption].
    + apply (H EmptyString (String c pre)); [reflexivity | discriminate].
Qed.

Lemma field_first label seg v :
  first_line label seg v ->
  exists rest, findall1 (field_re label) seg = v :: rest.
Proof.
  intros (pre & post & -> & Hv & Hclear).
  unfold findall1, finditer. rewrite scan_pass.
  - pose proof (match_here_field label v post Hv) as Hm.
    rewrite (scan_match _ _ _ _ _ Hm).
    + simpl. eauto.
    + apply (match_here_nonempty _ _ _ _ (field_re_nullable label) Hm).
  - intros u w E Hw.
    destruct (match_here (field_re label) (w ++ label ++ v ++ String nl post))
      as [[gs rest]|] eqn:Hm; [exfalso | reflexivity].
    pose proof (Hclear u w E Hw) as Hfalse.
    apply match_here_sound in Hm as (t & Ht & M).
    assert (Hx : exists x, t = label ++ x).
    { unfold field_re in M.
      inversion M as [| |r1 r2 t1 t2 gs0 g1 g2 H1 H2| | | |]; subst.
      destruct (matches_lit _ _ _ _ H1) as [-> _]. eauto. }
    destruct Hx as [x ->].
    assert (Hs : starts_with label (w ++ label) = true).
    { apply (starts_with_shorten label (w ++ label) (v ++ String nl post)).
      - rewrite append_assoc, Ht, !append_assoc. apply starts_with_append.
      - rewrite length_append. lia. }
    rewrite Hfalse in Hs. discriminate.
Qed.

(** No course key is the key of the plan. *)
Lemma course_key_not_plan subj num : subj ++ " " ++ num <> "Plan".
Proof.
  destruct subj as [|a [|b [|c [|d0 [|e s]]]]]; simpl; discriminate.
Qed.

(** ** The plan among the grades *)

Lemma get_in {V : Type} (d : dict V) k v : Dict.get d k = Some v -> In (k, v) d.
Proof.
  induction d as [|[k' v'] d IH]; simpl; [discriminate|].
  destruct (String.eqb_spec k' k) as [->|_].
  - intros H. injection H as ->. now left.
  - intros H. right. auto.
Qed.

Lemma in_keys_set {V : Type} (d : dict V) k v x :
  In x (Dict.keys (Dict.set d k v)) -> x = k \/ In x (Dict.keys d).
Proof.
  induction d as [|[k' v'] d IH]; simpl.
  - intros [<-|[]]. now left.
  - destruct (String.eqb_spec k' k) as [->|_]; simpl.
    + intros [<-|H]; auto.
    + intros [<-|H]; auto. destruct (IH H); auto.
Qed.

Lemma set_keys_nodup {V : Type} (d : dict V) k v :
  NoDup (Dict.keys d) -> NoDup (Dict.keys (Dict.set d k v)).
Proof.
  induction d as [|[k' v'] d IH]; simpl; intros Hnd.
  - constructor; [intros [] | constructor].
  - inversion Hnd as [|? ? Hnotin Hnd']; subst.
    destruct (String.eqb_spec k' k) as [->|Hne]; simpl.
    + now constructor.
    + constructor; [|auto].
      intros Hin. apply in_keys_set in Hin as [->|Hin]; [congruence | contradiction].
Qed.

Lemma line_loop_nodup subj : forall ls gd c gd' c',
    NoDup (Dict.keys gd) ->
    for_each ls (fun sl => grade_line subj (fst sl) (snd sl)) gd c = (Ok gd', c') ->
    NoDup (Dict.keys gd').
Proof.
  induction ls as [|sl ls IH]; intros gd c gd' c' Hnd H; simpl in H.
  - now injection H as <- _.
  - unfold bind in H.
    destruct (grade_line subj (fst sl) (snd sl) gd c) as [[gd1|e] c1] eqn:E;
      [|discriminate].
    destruct (grade_line_ok _ _ _ _ _ _ _ E) as (crs & _ & ->).
    eapply IH; [|exact H]. now apply set_keys_nodup.
Qed.

Lemma plan_dict_nodup transcript : NoDup (Dict.keys (plan_dict transcript)).
Proof.
  unfold plan_dict. destruct (findall1 _ _); simpl; repeat constructor. intros [].
Qed.

Lemma grades_of_subj_nodup transcript subj creds grades creds' :
  grades_of_subj transcript subj creds = (Ok grades, creds') ->
  NoDup (Dict.keys grades).
Proof.
  rewrite grades_of_subj_lines. apply line_loop_nodup, plan_dict_nodup.
Qed.

Lemma never_plan_course subj ls :
  fold_left (fun acc sl => if is_course subj "Plan" sl then Some sl else acc) ls None
  = None.
Proof.
  assert (H : forall sl, is_course subj "Plan" sl = false).
  { intros sl. unfold is_course, line_course.
    destruct (findall1 _ _); [reflexivity|].
    apply String.eqb_neq, course_key_not_plan. }
  induction ls as [|sl ls IH] using rev_ind; [reflexivity|].
  rewrite fold_left_app. simpl. now rewrite H.
Qed.

(** C10.  When the text after the last semester header has a line that
    gives the plan, the mapping returned by [grades_of_subj] binds the
    key Plan to it, next to the course keys; [subj_summary] goes
    through that entry as through the courses: a plan equal to the
    current-semester marker is counted as a course in progress. *)
Theorem grades_of_subj_plan transcript subj creds grades creds' plan :
  grades_of_subj transcript subj creds = (Ok grades, creds') ->
  first_line "Plan : " (List.last (Re.split semester_re transcript) EmptyString) plan ->
  Dict.get grades "Plan" = Some plan /\
  In "Plan" (Dict.keys grades) /\
  (forall g excluded table summary,
      Dict.get (IGNORE_COURSES g) subj = Some excluded ->
      in_set "Plan" excluded = false ->
      plan = CURR_SEM g ->
      subj_summary g subj grades table = Ok summary ->
      exists n, Dict.get summary ("Num " ++ subj ++ "^ now")
                = Some (VInt (Z.of_nat (S n)))).
Proof.
  intros H Hplan.
  assert (Hget : Dict.get grades "Plan" = Some plan).
  { pose proof H as H'. rewrite grades_of_subj_lines in H'.
    rewrite (line_loop_latest subj "Plan" _ _ _ _ _ H'), never_plan_course.
    unfold plan_dict. destruct (field_first _ _ _ Hplan) as [rest ->].
    reflexivity. }
  split; [exact Hget|]. split; [eapply get_in_keys; eauto|].
  intros g excluded table summary Hex Hin Hcur Hsum.
  pose proof (grades_of_subj_nodup _ _ _ _ _ H) as Hnd.
  unfold subj_summary in Hsum.
  rewrite (rfilter_counted g subj grades excluded Hnd Hex (Dict.mem (GPA_VAL g))) in Hsum.
  rewrite (rfilter_counted g subj grades excluded Hnd Hex (String.eqb (CURR_SEM g)))
    in Hsum.
  cbn [rbind] in Hsum.
  destruct (rmap (py_getitem table) _); [|discriminate]. cbn [rbind] in Hsum.
  destruct (rmap _ _); [|discriminate]. cbn [rbind] in Hsum.
  injection Hsum as <-.
  unfold dict_of, Dict.update. cbn [fold_left fst snd]. rewrite get_set_same.
  rewrite length_map.
  assert (Hf : In ("Plan", plan)
                  (filter (fun cg => negb (in_set (fst cg) excluded)
                                     && String.eqb (CURR_SEM g) (snd cg)) grades)).
  { apply filter_In. split; [now apply get_in|]. cbn [fst snd].
    rewrite Hin, Hcur, String.eqb_refl. reflexivity. }
  destruct (filter _ grades) as [|x l]; [contradiction|].
  exists (List.length l). reflexivity.
Qed.

(** ** The grade of a course line *)

(** A credit-hour token: a digit, a dot, two digits. *)
Definition credit_token (t : string) : bool :=
  match t with
  | String a (String p (String b (String c EmptyString))) =>
      digit a && Ascii.eqb p "."%char && digit b && digit c
  | _ => false
  end.

(** What the grade group accepts: an uppercase letter, then an optional
    plus sign, then an optional minus sign. *)
Definition grade_token (g : string) : bool :=
  match g with
  | String c suffix => upper c && in_set suffix [""; "+"; "-"; "+-"]
  | EmptyString => false
  end.

(** A grade of one or two characters: an uppercase letter with at most
    one sign. *)
Definition one_sign_grade (g : string) : bool :=
  match g with
  | String c suffix => upper c && in_set suffix [""; "+"; "-"]
  | EmptyString => false
  end.

Ltac invert_matches :=
  repeat match goal with
         | H : matches (Seq _ _) _ _ _ |- _ => inversion H; clear H; subst
         | H : matches (Atom _) _ _ _ |- _ => inversion H; clear H; subst
         | H : matches (Alt _ _) _ _ _ |- _ => inversion H; clear H; subst
         | H : matches Eps _ _ _ |- _ => inversion H; clear H; subst
         | H : matches (Grp _) _ _ _ |- _ => inversion H; clear H; subst
         end.

Lemma matches_credit t gs gs' :
  matches credit_re t gs gs' -> credit_token t = true /\ gs' = gs.
Proof.
  intros M. cbv [credit_re seqs] in M. invert_matches. simpl.
  repeat match goal with H : chr _ _ = true |- _ =>
                           apply Ascii.eqb_eq in H; subst end.
  repeat match goal with H : digit _ = true |- _ => rewrite H; clear H end.
  auto.
Qed.

Lemma matches_grade t gs :
  matches grade_re t [] gs ->
  exists t1 t2 g,
    t = t1 ++ " " ++ t2 ++ " " ++ g /\
    credit_token t1 = true /\ credit_token t2 = true /\
    grade_token g = true /\ gs = [g].
Proof.
  intros M. unfold grade_re in M. cbn [seqs] in M.
  inversion M as [| |r1 r2 t1 x1 gs0 g1 g2 M1 M2| | | |]; clear M; subst.
  apply matches_credit in M1 as [C1 ->].
  inversion M2 as [| |r1 r2 s1 x2 gs0 g1 g2' L1 M3| | | |]; clear M2; subst.
  apply (matches_lit " ") in L1 as [-> ->].
  inversion M3 as [| |r1 r2 t2 x3 gs0 g1 g2' M4 M5| | | |]; clear M3; subst.
  apply matches_credit in M4 as [C2 ->].
  inversion M5 as [| |r1 r2 s2 x4 gs0 g1 g2' L2 M6| | | |]; clear M5; subst.
  apply (matches_lit " ") in L2 as [-> ->].
  inversion M6 as [| | | | | |r0 g0 gs0 g1 M7 E1 E2 E3]; clear M6; subst.
  cbv [Opt] in M7.
  exists t1, t2, x4. repeat split; auto.
  - invert_matches;
      repeat match goal with H : chr _ _ = true |- _ =>
                               apply Ascii.eqb_eq in H; subst end;
      simpl;
      match goal with H : upper _ = true |- _ => now rewrite H end.
  - invert_matches; reflexivity.
Qed.



Lemma grade_token_length g :
  grade_token g = true -> 1 <= String.length g <= 3.
Proof.
  destruct g as [|c suffix]; [discriminate|]. cbn [grade_token String.length].
  intros H. apply andb_prop in H as [_ H]. unfold in_set in H.
  apply existsb_exists in H as (x & Hin & Heq).
  apply String.eqb_eq in Heq. subst x.
  simpl in Hin. destruct Hin as [<-|[<-|[<-|[<-|[]]]]]; simpl; lia.
Qed.

Lemma scan_empty_no_match r s pre :
  nullable r = false -> fst (scan r s 0 pre) = [] -> no_match r s.
Proof.
  intros N H u t v gs E M. exact (scan_some r N s pre u t v gs E M H).
Qed.

(** C7, amended.  The value [grade_line] stores for the course of a line
    is the placeholder of the semester when no part of the line matches
    the grade pattern; otherwise it is a grade token of one to three
    characters, an uppercase letter, then an optional plus sign, then an
    optional minus sign, which stands on the line behind two credit-hour
    tokens, each followed by a space. *)
Theorem grade_line_grade subj semester line grades_dict creds grades' creds' :
  grade_line subj semester line grades_dict creds = (Ok grades', creds') ->
  exists course stored,
    line_course subj line = Some course /\
    Dict.get grades' course = Some stored /\
    ((no_match grade_re line /\ stored = sem_abbr semester) \/
     (grade_token stored = true /\
      1 <= String.length stored <= 3 /\
      exists pre t1 t2 post,
        line = pre ++ (t1 ++ " " ++ t2 ++ " " ++ stored) ++ post /\
        credit_token t1 = true /\ credit_token t2 = true)).
Proof.
  intros H. destruct (grade_line_ok _ _ _ _ _ _ _ H) as (course & Hc & ->).
  exists course, (line_grade semester line).
  split; [exact Hc|]. split; [apply get_set_same|].
  unfold line_grade, findall1, finditer.
  destruct (fst (scan grade_re line 0 EmptyString)) as [|m ms] eqn:E; simpl.
  - left. split; [|reflexivity].
    now apply (scan_empty_no_match grade_re line EmptyString).
  - right.
    assert (Hin : In m (fst (scan grade_re line 0 EmptyString)))
      by (rewrite E; now left).
    destruct (scan_in grade_re eq_refl _ _ _ Hin) as (M & u & v & Hl).
    destruct (matches_grade _ _ M) as (t1 & t2 & g & Ht & C1 & C2 & G & Hg).
    rewrite Hg. simpl. split; [exact G|]. split.
    + apply grade_token_length, G.
    + exists u, t1, t2, v. split; [|auto].
      rewrite Hl at 1. now rewrite Ht.
Qed.

(** ** Sample transcripts *)

Definition NL : string := String nl EmptyString.

Definition sample_transcript : string :=
  lines ["Name : Bob Smith"; "Student ID: 100123"; "Sex : M";
         "Fall 2018";
         "MTH 9 Calculus II 4.00 4.00 A- 14.668";
         "MTH 22 Linear Algebra 3.00 0.00";
         "PHY 3 Physics I 4.00 4.00 B 12.000";
         "Spring 2019";
         "MTH 9 Calculus II 4.00 4.00 B+ 13.332";
         "Plan : Mathematics BS"].

Definition sample_mth_grades : dict string :=
  [("Plan", "Mathematics BS"); ("MTH 9", "B+"); ("MTH 22", "F18")].

Definition sample_mth_creds : dict float :=
  [("MTH 9", 4%float); ("MTH 22", 3%float)].

Example sample_grades_of_subj :
  grades_of_subj sample_transcript "MTH" [] = (Ok sample_mth_grades, sample_mth_creds).
Proof. vm_compute. reflexivity. Qed.

Example sem_abbr_examples :
  sem_abbr "Fall 2021" = "F21" /\ sem_abbr "Spring 2099" = "S99" /\
  sem_abbr "Summer 2000" = "Sum00" /\ sem_abbr "Winter 2022" = "Win22".
Proof. vm_compute. repeat split. Qed.

Lemma grades_of_subj_last_write_wins_witness :
  Dict.get sample_mth_grades "MTH 9"
  = Some (line_grade "Spring 2019" ("MTH 9 Calculus II 4.00 4.00 B+ 13.332" ++ NL)).
Proof.
  apply (grades_of_subj_last_write_wins sample_transcript "MTH" []
           sample_mth_grades sample_mth_creds).
  - vm_compute. reflexivity.
  - vm_compute. reflexivity.
Defined.

Definition both_signs_line : string := "MTH 9 Calculus II 4.00 4.00 A+- 16.000" ++ NL.

Lemma grade_with_both_signs :
  findall (raw_grades_re "MTH") both_signs_line = [both_signs_line] /\
  exists grades creds',
    grade_line "MTH" "Fall 2018" both_signs_line [] [] = (Ok grades, creds') /\
    Dict.get grades "MTH 9" = Some "A+-" /\
    one_sign_grade "A+-" = false /\
    String.length "A+-" = 3.
Proof.
  split; [vm_compute; reflexivity|].
  eexists. eexists. split; [vm_compute; reflexivity|].
  split; [vm_compute; reflexivity|]. split; reflexivity.
Qed.

Lemma grade_line_grade_witness :
  exists course stored,
    line_course "MTH" both_signs_line = Some course /\
    Dict.get [("MTH 9", "A+-")] course = Some stored /\
    ((no_match grade_re both_signs_line /\ stored = sem_abbr "Fall 2018") \/
     (grade_token stored = true /\
      1 <= String.length stored <= 3 /\
      exists pre t1 t2 post,
        both_signs_line = pre ++ (t1 ++ " " ++ t2 ++ " " ++ stored) ++ post /\
        credit_token t1 = true /\ credit_token t2 = true)).
Proof.
  apply (grade_line_grade "MTH" "Fall 2018" both_signs_line [] []
                          [("MTH 9", "A+-")] [("MTH 9", 4%float)]).
  vm_compute. reflexivity.
Defined.

(** The check of [first_line]'s last condition on a given text. *)
Fixpoint clear_b (label pre : string) : bool :=
  match pre with
  | EmptyString => true
  | String _ pre' => negb (starts_with label (pre ++ label)) && clear_b label pre'
  end.

Lemma clear_b_spec label : forall pre,
    clear_b label pre = true ->
    forall u w, pre = u ++ w -> w <> EmptyString ->
                starts_with label (w ++ label) = false.
Proof.
  induction pre as [|c pre IH]; intros H u w E Hw.
  - destruct u; [simpl in E; congruence | discriminate].
  - cbn [clear_b] in H. apply andb_prop in H as [H1 H2].
    destruct u as [|a u]; simpl in E.
    + subst w. now apply negb_true_iff in H1.
    + injection E as _ E. exact (IH H2 u w E Hw).
Qed.

Lemma grades_of_subj_plan_witness :
  Dict.get sample_mth_grades "Plan" = Some "Mathematics BS".
Proof.
  apply (grades_of_subj_plan sample_transcript "MTH" []
           sample_mth_grades sample_mth_creds "Mathematics BS").
  - vm_compute. reflexivity.
  - exists (NL ++ "MTH 9 Calculus II 4.00 4.00 B+ 13.332" ++ NL), EmptyString.
    split; [vm_compute; reflexivity|]. split; [reflexivity|].
    apply clear_b_spec. vm_compute. reflexivity.
Defined.

(** The example of the specification: a second student whose line
    implies 3.00 for a course the first student fixed at 4.00. *)
Definition first_batch : list string :=
  [lines ["Name : Ann Lee"; "Student ID: 100001"; "Sex : F";
          "Fall 2021";
          "MTH 9 Calculus II 4.00 4.00 A 16.000"]].

Definition second_batch : list string :=
  [lines ["Name : Bob Smith"; "Student ID: 100002"; "Sex : M";
          "Fall 2021";
          "MTH 9 Calculus II 3.00 3.00 A 12.000";
          "MTH 10 Calculus III 3.00 3.00 B 9.000"]].

Example first_seen_wins_example natsorted :
  Dict.get (snd (transcript_data globals natsorted (first_batch ++ second_batch) []))
           "MTH 9" = Some 4%float.
Proof. vm_compute. reflexivity. Qed.

(** ** Default arguments between calls *)

(** The cell of the first row under the column of the MTH GPA. *)
Definition mth_gpa_cell (r : result DataFrame) : option value :=
  match r with
  | Ok df =>
      match df_rows df with
      | row :: _ => nth 8 row None
      | [] => None
      end
  | Raise _ => None
  end.

Definition cell_below (bound : float) (cell : option value) : bool :=
  match cell with
  | Some (VFloat x) => PrimFloat.ltb x bound
  | _ => false
  end.

(** C6, on the code.  A call of [transcript_data] that leaves [creds]
    out works on the dictionary the earlier calls have filled: after a
    call on [first_batch], the call on [second_batch] computes the GPA
    with the credit value of the first batch, and returns another table
    than the same call in a fresh process. *)
Theorem default_creds_shared natsorted :
  let p1 := snd (call_transcript_data globals natsorted first_batch fresh_process) in
  let fresh := fst (call_transcript_data globals natsorted second_batch fresh_process) in
  let later := fst (call_transcript_data globals natsorted second_batch p1) in
  transcript_data_creds p1 = [("MTH 9", 4%float)] /\
  mth_gpa_cell fresh = Some (VFloat 3.5%float) /\
  mth_gpa_cell later = Some (VFloat (PrimFloat.div 25%float 7%float)) /\
  fresh <> later.
Proof.
  intros p1 fresh later.
  assert (H1 : mth_gpa_cell fresh = Some (VFloat 3.5%float))
    by (vm_compute; reflexivity).
  assert (H2 : mth_gpa_cell later = Some (VFloat (PrimFloat.div 25%float 7%float)))
    by (vm_compute; reflexivity).
  split; [vm_compute; reflexivity|]. split; [exact H1|]. split; [exact H2|].
  intros E. rewrite E, H2 in H1.
  apply (f_equal (cell_below 3.55%float)) in H1. vm_compute in H1. discriminate.
Qed.

(** * Further properties of the code *)

(** ** Whitespace normalisation *)

Definition space : ascii := " "%char.

(** The text behind the leading characters of a set. *)
Fixpoint skip_while (p : charset) (s : string) : string :=
  match s with
  | String c s' => if p c then skip_while p s' else s
  | EmptyString => s
  end.

(** Runs of spaces collapsed, one character at a time; [after_space]
    says that the character before was a space. *)
Fixpoint collapse (after_space : bool) (s : string) : string :=
  match s with
  | EmptyString => EmptyString
  | String c s' =>
      if Ascii.eqb c space
      then if after_space then collapse true s' else String c (collapse true s')
      else String c (collapse false s')
  end.

(** No two spaces side by side. *)
Fixpoint single_spaced (s : string) : bool :=
  match s with
  | String a ((String b _) as s') =>
      negb (Ascii.eqb a space && Ascii.eqb b space) && single_spaced s'
  | _ => true
  end.

(** The characters that are not spaces, in order. *)
Fixpoint without_spaces (s : string) : string :=
  match s with
  | EmptyString => EmptyString
  | String c s' =>
      if Ascii.eqb c space then without_spaces s' else String c (without_spaces s')
  end.

Definition spaces_re : regex := Seq (Plus (chr space)) (Star (chr space)).

Lemma chr_space c : chr space c = Ascii.eqb c space.
Proof. unfold chr. apply Ascii.eqb_sym. Qed.

Lemma star_longest {A : Type} (p : charset) (k : string -> option A) a : forall s,
    k (skip_while p s) = Some a -> star p s k = Some a.
Proof.
  induction s as [|c s IH]; cbn [star skip_while]; intros H; [exact H|].
  destruct (p c); [now rewrite (IH H) | exact H].
Qed.

Lemma skip_while_idem p s : skip_while p (skip_while p s) = skip_while p s.
Proof.
  induction s as [|c s IH]; cbn [skip_while]; [reflexivity|].
  destruct (p c) eqn:E; [exact IH | cbn [skip_while]; now rewrite E].
Qed.

Lemma match_here_spaces s :
  match_here spaces_re s
  = match s with
    | String c s' =>
        if Ascii.eqb c space then Some ([], skip_while (chr space) s') else None
    | EmptyString => None
    end.
Proof.
  unfold match_here, spaces_re, Plus. cbn [exec].
  destruct s as [|c s']; [reflexivity|].
  rewrite chr_space.
  destruct (Ascii.eqb c space); [|reflexivity].
  apply star_longest, star_longest. now rewrite skip_while_idem.
Qed.

Lemma collapse_skip s : collapse true s = collapse false (skip_while (chr space) s).
Proof.
  induction s as [|c s IH]; cbn [collapse skip_while]; [reflexivity|].
  rewrite chr_space.
  destruct (Ascii.eqb c space) eqn:E; [exact IH|]. cbn [collapse]. now rewrite E.
Qed.

Lemma remove_extra_spaces_collapse text :
  remove_extra_spaces text = collapse false text.
Proof.
  unfold remove_extra_spaces, Re.sub, finditer. fold space. fold spaces_re.
  change (collapse false text) with (EmptyString ++ collapse false text).
  generalize EmptyString at 1 3 as pre. revert text. intros s pre.
  pattern s, pre, (scan spaces_re s 0 pre).
  apply (scan_ind spaces_re eq_refl); clear s pre.
  - intros pre _. cbn [map join append collapse]. now rewrite append_nil_r.
  - intros s pre gs rest Hm IH. rewrite match_here_spaces in Hm.
    destruct s as [|c s']; [discriminate|].
    destruct (Ascii.eqb c space) eqn:E; [|discriminate].
    injection Hm as <- <-. apply Ascii.eqb_eq in E. subst c.
    destruct (scan spaces_re (skip_while (chr space) s') 0 EmptyString) as [ms tl0].
    cbn [fst snd map join m_pre m_groups] in *.
    cbn [collapse]. rewrite Ascii.eqb_refl, collapse_skip.
    cbn [append] in IH. rewrite <- IH. now rewrite !append_assoc.
  - intros c s pre Hnone IH. rewrite match_here_spaces in Hnone.
    destruct (Ascii.eqb c space) eqn:E; [discriminate|].
    destruct (scan spaces_re s 0 (pre ++ String c EmptyString)) as [ms tl0].
    cbn [collapse]. rewrite E. rewrite IH. now rewrite append_assoc.
Qed.

Definition head_space (s : string) : bool :=
  match s with
  | String c _ => Ascii.eqb c space
  | EmptyString => false
  end.

Lemma single_spaced_cons a t :
  single_spaced (String a t)
  = negb (Ascii.eqb a space && head_space t) && single_spaced t.
Proof. destruct t; cbn [single_spaced head_space]; [|reflexivity].
       now rewrite andb_false_r. Qed.

Lemma collapse_single_spaced s : forall b,
    single_spaced (collapse b s) = true /\
    (b = true -> head_space (collapse b s) = false).
Proof.
  induction s as [|c s IH]; intros b; cbn [collapse].
  - split; reflexivity.
  - destruct (Ascii.eqb c space) eqn:E.
    + destruct b.
      * apply IH.
      * split; [|discriminate]. rewrite single_spaced_cons, E.
        destruct (IH true) as [H1 H2]. now rewrite H1, H2.
    + split.
      * rewrite single_spaced_cons, E. apply (IH false).
      * intros _. cbn [head_space]. exact E.
Qed.

Lemma collapse_fixed s : forall b,
    single_spaced s = true -> (b = true -> head_space s = false) ->
    collapse b s = s.
Proof.
  induction s as [|c s IH]; intros b Hs Hb; [reflexivity|].
  rewrite single_spaced_cons in Hs. apply andb_prop in Hs as [H1 H2].
  cbn [collapse]. destruct (Ascii.eqb c space) eqn:E.
  - destruct b; [specialize (Hb eq_refl); cbn [head_space] in Hb; congruence|].
    f_equal. apply IH; [assumption|]. intros _.
    cbn [andb] in H1. now apply negb_true_iff in H1.
  - f_equal. apply IH; [assumption | discriminate].
Qed.

Lemma collapse_without_spaces s : forall b,
    without_spaces (collapse b s) = without_spaces s.
Proof.
  induction s as [|c s IH]; intros b; cbn [collapse without_spaces]; [reflexivity|].
  destruct (Ascii.eqb c space) eqn:E.
  - destruct b; [apply IH|]. cbn [without_spaces]. rewrite E. apply IH.
  - cbn [without_spaces]. rewrite E. now rewrite IH.
Qed.

(** X1.  The text [remove_extra_spaces] returns has no two spaces side by
    side; a text without two spaces side by side is returned as it is,
    so that normalising twice is normalising once. *)
Theorem remove_extra_spaces_normal text :
  single_spaced (remove_extra_spaces text) = true /\
  (single_spaced text = true -> remove_extra_spaces text = text) /\
  remove_extra_spaces (remove_extra_spaces text) = remove_extra_spaces text.
Proof.
  rewrite !remove_extra_spaces_collapse.
  pose proof (collapse_single_spaced text false) as [H _].
  split; [exact H|]. split.
  - intros Hs. apply collapse_fixed; [assumption | discriminate].
  - apply collapse_fixed; [assumption | discriminate].
Qed.

(** X2.  [remove_extra_spaces] removes spaces and nothing else: the other
    characters, newlines among them, come out the same and in the same
    order, and the text does not get longer. *)
Theorem remove_extra_spaces_content text :
  without_spaces (remove_extra_spaces text) = without_spaces text /\
  String.length (remove_extra_spaces text) <= String.length text.
Proof.
  rewrite !remove_extra_spaces_collapse. split.
  - apply collapse_without_spaces.
  - generalize false as b. induction text as [|c s IH]; intros b; simpl; [lia|].
    destruct (Ascii.eqb c space), b; simpl; try (specialize (IH true); lia);
      specialize (IH false); lia.
Qed.

(** ** Semester abbreviations *)

Definition digits10 : list ascii :=
  ["0"; "1"; "2"; "3"; "4"; "5"; "6"; "7"; "8"; "9"]%char.

Lemma digit_cases c : digit c = true -> In c digits10.
Proof.
  destruct c as [[] [] [] [] [] [] [] []]; intros H; vm_compute in H;
    try discriminate H; unfold digits10; simpl; tauto.
Qed.

(** The two digits of a year as a string. *)
Definition yy (a b : ascii) : string := String a (String b EmptyString).

(** A semester header with a year of this century: season, space, 20 and
    two digits. *)
Definition semester_label (season : string) (a b : ascii) : string :=
  season ++ " 20" ++ yy a b.

(** The abbreviation of each season. *)
Definition season_abbr : list (string * string) :=
  [("Fall", "F"); ("Spring", "S"); ("Summer", "Sum"); ("Winter", "Win")].

(** X3.  For a semester header with a two-digit year behind 20,
    [sem_abbr] returns the abbreviation of the season followed by the
    two digits: F, S, Sum and Win for Fall, Spring, Summer and Winter. *)
Theorem sem_abbr_year season short a b :
  In (season, short) season_abbr -> digit a = true -> digit b = true ->
  sem_abbr (semester_label season a b) = short ++ yy a b.
Proof.
  intros Hs Ha Hb. apply digit_cases in Ha, Hb. unfold digits10 in *.
  simpl in Hs.
  repeat destruct Hs as [Hs|Hs]; try contradiction; injection Hs as <- <-;
    repeat destruct Ha as [Ha|Ha]; try contradiction; subst a;
    repeat destruct Hb as [Hb|Hb]; try contradiction; subst b;
    vm_compute; reflexivity.
Qed.

Lemma sem_abbr_year_witness :
  sem_abbr (semester_label "Summer" "1" "9") = "Sum" ++ yy "1" "9".
Proof.
  apply sem_abbr_year; [simpl; tauto | reflexivity | reflexivity].
Defined.

(** X4.  The placeholders of two different semester headers differ, and
    no placeholder is a grade of the grade-point table of the file: a
    course in progress never enters a GPA. *)
Theorem sem_abbr_placeholder s1 h1 a1 b1 s2 h2 a2 b2 :
  In (s1, h1) season_abbr -> digit a1 = true -> digit b1 = true ->
  In (s2, h2) season_abbr -> digit a2 = true -> digit b2 = true ->
  (sem_abbr (semester_label s1 a1 b1) = sem_abbr (semester_label s2 a2 b2) ->
   semester_label s1 a1 b1 = semester_label s2 a2 b2) /\
  Dict.mem (GPA_VAL globals) (sem_abbr (semester_label s1 a1 b1)) = false.
Proof.
  intros H1 Ha1 Hb1 H2 Ha2 Hb2.
  rewrite (sem_abbr_year s1 h1 a1 b1), (sem_abbr_year s2 h2 a2 b2) by assumption.
  simpl in H1, H2.
  repeat destruct H1 as [H1|H1]; try contradiction; injection H1 as <- <-;
    (split;
     [ repeat destruct H2 as [H2|H2]; try contradiction; injection H2 as <- <-;
       intros E; try discriminate E; injection E as -> ->; reflexivity
     | reflexivity ]).
Qed.

Lemma sem_abbr_placeholder_witness :
  (sem_abbr (semester_label "Fall" "2" "1") = sem_abbr (semester_label "Spring" "2" "1") ->
   semester_label "Fall" "2" "1" = semester_label "Spring" "2" "1") /\
  Dict.mem (GPA_VAL globals) (sem_abbr (semester_label "Fall" "2" "1")) = false.
Proof.
  apply (sem_abbr_placeholder "Fall" "F" "2" "1" "Spring" "S" "2" "1");
    first [reflexivity | simpl; tauto].
Defined.

(** ** When [grades_of_subj] fails *)

Lemma credit_token_float t : credit_token t = true -> exists c, py_float t = Ok c.
Proof.
  unfold credit_token, py_float.
  destruct t as [|a [|p [|b [|c [|? ?]]]]]; try discriminate.
  intros H. rewrite H. eauto.
Qed.

Lemma findall_in r s t :
  nullable r = false -> In t (findall r s) ->
  exists gs u v, matches r t [] gs /\ s = u ++ t ++ v.
Proof.
  intros N Hin. unfold findall, finditer in Hin.
  apply in_map_iff in Hin as (m & <- & Hm).
  destruct (scan_in r N _ _ _ Hm) as (M & u & v & Hs). eauto.
Qed.

Lemma raw_grades_nullable subj : nullable (raw_grades_re subj) = false.
Proof.
  unfold raw_grades_re. cbn [seqs nullable]. now rewrite !andb_false_r.
Qed.

(** A line that the course-line pattern matched carries a credit-hour
    token, and [float] accepts the first one. *)
Lemma course_line_credit subj info line :
  In line (findall (raw_grades_re subj) info) ->
  exists tok toks c, findall credit_re line = tok :: toks /\ py_float tok = Ok c.
Proof.
  intros Hin.
  destruct (findall_in _ _ _ (raw_grades_nullable subj) Hin) as (gs & _ & _ & M & _).
  assert (Hpart : exists u t v g, line = u ++ t ++ v /\ matches credit_re t [] g).
  { unfold raw_grades_re in M. cbn [seqs] in M.
    inversion M as [| |r1 r2 t1 x1 g0 g1 g2 M1 M2| | | |]; clear M; subst.
    inversion M2 as [| |r1 r2 t2 x2 g0 g3 g2' M3 M4| | | |]; clear M2; subst.
    inversion M4 as [| |r1 r2 t3 x3 g0 g4 g2' M5 M6| | | |]; clear M4; subst.
    inversion M6 as [| |r1 r2 t4 x4 g0 g5 g2' M7 M8| | | |]; clear M6; subst.
    inversion M8 as [| |r1 r2 t5 x5 g0 g6 g2' M9 M10| | | |]; clear M8; subst.
    assert (g5 = []).
    { apply (matches_lit " ") in M7 as [_ ->].
      inversion M5; subst. apply (matches_lit " ") in M3 as [_ ->].
      now apply matches_lit in M1 as [_ ->]. }
    subst g5. exists (t1 ++ t2 ++ t3 ++ t4), t5, x5, g6.
    split; [now rewrite !append_assoc | assumption]. }
  destruct Hpart as (u & t & v & g & Hl & Mc).
  pose proof (scan_some credit_re eq_refl line EmptyString u t v g Hl Mc) as Hne.
  unfold findall, finditer.
  destruct (fst (scan credit_re line 0 EmptyString)) as [|m ms] eqn:E; [congruence|].
  assert (Hm : In m (fst (scan credit_re line 0 EmptyString)))
    by (rewrite E; now left).
  destruct (scan_in credit_re eq_refl _ _ _ Hm) as (Mm & _).
  apply matches_credit in Mm as [Hc _].
  destruct (credit_token_float _ Hc) as [c Hf].
  exists (m_text m), (map m_text ms), c. auto.
Qed.

(** The body of the line loop on a line with a credit-hour token: it
    fails, with [IndexError] and the table untouched, exactly when the
    line has no course number. *)
Lemma grade_line_outcome subj semester line gd creds :
  (exists tok toks c, findall credit_re line = tok :: toks /\ py_float tok = Ok c) ->
  match line_course subj line with
  | Some course =>
      exists creds',
        grade_line subj semester line gd creds
        = (Ok (Dict.set gd course (line_grade semester line)), creds') /\
        Dict.mem creds' course = true
  | None => grade_line subj semester line gd creds = (Raise IndexError, creds)
  end.
Proof.
  intros (tok & toks & c & Ht & Hf).
  unfold line_course, grade_line, bind, lift, read_creds, ret, set_cred.
  rewrite !py_index_zero, Ht.
  destruct (findall1 (course_num_re subj) line) as [|num nums]; [reflexivity|].
  unfold line_grade.
  destruct (Dict.mem creds (subj ++ " " ++ num)) eqn:Hmem.
  - eexists. split; [reflexivity | exact Hmem].
  - rewrite Hf. eexists. split; [reflexivity|].
    unfold Dict.mem. now rewrite get_set_same.
Qed.

Definition has_course (subj : string) (sl : string * string) : bool :=
  match line_course subj (snd sl) with
  | Some _ => true
  | None => false
  end.

Lemma course_lines_credit transcript subj sl :
  In sl (course_lines transcript subj) ->
  exists tok toks c,
    findall credit_re (snd sl) = tok :: toks /\ py_float tok = Ok c.
Proof.
  unfold course_lines. intros Hin.
  apply in_flat_map in Hin as (sb & _ & Hin).
  apply in_map_iff in Hin as (line & <- & Hline).
  exact (course_line_credit subj _ _ Hline).
Qed.

Lemma line_loop_outcome subj : forall ls gd creds,
    (forall sl, In sl ls ->
                exists tok toks c,
                  findall credit_re (snd sl) = tok :: toks /\ py_float tok = Ok c) ->
    if forallb (has_course subj) ls
    then exists gd' creds',
        for_each ls (fun sl => grade_line subj (fst sl) (snd sl)) gd creds
        = (Ok gd', creds')
    else exists creds',
        for_each ls (fun sl => grade_line subj (fst sl) (snd sl)) gd creds
        = (Raise IndexError, creds').
Proof.
  induction ls as [|sl ls IH]; intros gd creds Hcred; cbn [forallb for_each].
  - eexists. eexists. reflexivity.
  - pose proof (grade_line_outcome subj (fst sl) (snd sl) gd creds
                                   (Hcred sl (or_introl eq_refl))) as Hl.
    unfold has_course at 1. unfold bind.
    destruct (line_course subj (snd sl)) as [course|].
    + destruct Hl as (creds1 & -> & _). cbn [andb].
      apply IH. intros sl' Hin. apply Hcred. now right.
    + rewrite Hl. cbn [andb]. eexists. reflexivity.
Qed.

(** X5.  [grades_of_subj] returns a mapping when every course line of the
    subject has a course number, digits with an optional letter or NE,
    behind the subject; when one line has none it raises [IndexError].
    It raises nothing else: each course line has a credit-hour token
    that [float] accepts. *)
Theorem grades_of_subj_outcome transcript subj creds :
  (forallb (has_course subj) (course_lines transcript subj) = true ->
   exists grades creds', grades_of_subj transcript subj creds = (Ok grades, creds')) /\
  (forallb (has_course subj) (course_lines transcript subj) = false ->
   exists creds', grades_of_subj transcript subj creds = (Raise IndexError, creds')) /\
  (forall e creds', grades_of_subj transcript subj creds = (Raise e, creds') ->
                    e = IndexError).
Proof.
  pose proof (line_loop_outcome subj (course_lines transcript subj)
                (plan_dict transcript) creds
                (course_lines_credit transcript subj)) as H.
  rewrite <- grades_of_subj_lines in H.
  destruct (forallb (has_course subj) (course_lines transcript subj)).
  - destruct H as (gd & c' & H). split; [eauto|]. split; [discriminate|].
    intros e c1 E. congruence.
  - destruct H as (c' & H). split; [discriminate|]. split; [eauto|].
    intros e c1 E. congruence.
Qed.

Example grades_of_subj_no_number :
  grades_of_subj
    (lines ["Name : Ann Lee"; "Fall 2021";
            "MTH 9 Calculus II 4.00 4.00 A 16.000";
            "MTH Elective 3.00 3.00 B 9.000"]) "MTH" []
  = (Raise IndexError, [("MTH 9", 4%float)]).
Proof. vm_compute. reflexivity. Qed.

(** ** Credits of the courses of a student *)

(** Every course of the mapping has a credit in the table. *)
Definition covered (gd : dict string) (creds : dict float) : Prop :=
  forall k, k <> "Plan" -> In k (Dict.keys gd) -> Dict.mem creds k = true.

Lemma extends_mem c c' k : extends c c' -> Dict.mem c k = true -> Dict.mem c' k = true.
Proof.
  unfold Dict.mem. intros He H.
  destruct (Dict.get c k) as [v|] eqn:E; [|discriminate].
  now rewrite (He k v E).
Qed.

Lemma grade_line_covered subj semester line gd creds gd' creds' :
  covered gd creds ->
  grade_line subj semester line gd creds = (Ok gd', creds') ->
  covered gd' creds'.
Proof.
  intros Hcov H k Hk Hin.
  pose proof (grade_line_extends _ _ _ _ _ _ _ H) as Hext.
  destruct (grade_line_ok _ _ _ _ _ _ _ H) as (course & Hc & ->).
  apply in_keys_set in Hin as [->|Hin].
  - unfold line_course in Hc. revert H.
    unfold grade_line, bind, lift, read_creds, ret, set_cred.
    rewrite !py_index_zero.
    destruct (findall1 (course_num_re subj) line) as [|num nums]; [discriminate|].
    injection Hc as <-.
    destruct (Dict.mem creds (subj ++ " " ++ num)) eqn:Hmem.
    + intros H. apply (f_equal snd) in H. cbn [snd] in H. subst creds'. exact Hmem.
    + destruct (findall credit_re line); [discriminate|].
      destruct (py_float _); [|discriminate].
      intros H. apply (f_equal snd) in H. cbn [snd] in H. subst creds'.
      unfold Dict.mem. now rewrite get_set_same.
  - eapply extends_mem; eauto.
Qed.

Lemma line_loop_covered subj : forall ls gd creds gd' creds',
    covered gd creds ->
    for_each ls (fun sl => grade_line subj (fst sl) (snd sl)) gd creds = (Ok gd', creds') ->
    covered gd' creds'.
Proof.
  induction ls as [|sl ls IH]; intros gd creds gd' creds' Hcov H; simpl in H.
  - now injection H as <- <-.
  - unfold bind in H.
    destruct (grade_line subj (fst sl) (snd sl) gd creds) as [[gd1|e] c1] eqn:E;
      [|discriminate].
    eapply IH; [|exact H]. eapply grade_line_covered; eauto.
Qed.

Lemma plan_dict_covered transcript creds : covered (plan_dict transcript) creds.
Proof.
  intros k Hk Hin. unfold plan_dict in Hin.
  destruct (findall1 _ _); simpl in Hin; [contradiction|].
  destruct Hin as [<-|[]]. congruence.
Qed.

Lemma grades_of_subj_covered transcript subj creds grades creds' :
  grades_of_subj transcript subj creds = (Ok grades, creds') -> covered grades creds'.
Proof.
  rewrite grades_of_subj_lines. apply line_loop_covered, plan_dict_covered.
Qed.

(** [subj_summary] returns when the subject has an exclusion set and the
    courses that count have a credit. *)
Lemma subj_summary_returns g subj grades creds excluded :
  NoDup (Dict.keys grades) ->
  Dict.get (IGNORE_COURSES g) subj = Some excluded ->
  (forall cg, In cg (filtered_set g excluded grades) ->
              Dict.mem creds (fst cg) = true) ->
  exists summary, subj_summary g subj grades creds = Ok summary.
Proof.
  intros Hnd Hex Hcred. unfold subj_summary.
  rewrite (rfilter_counted g subj grades excluded Hnd Hex (Dict.mem (GPA_VAL g))).
  rewrite (rfilter_counted g subj grades excluded Hnd Hex (String.eqb (CURR_SEM g))).
  fold (filtered_set g excluded grades). cbn [rbind].
  set (credit := fun k => match Dict.get creds k with
                          | Some c => c
                          | None => PrimFloat.nan
                          end).
  assert (Hget : forall cg, In cg (filtered_set g excluded grades) ->
                            Dict.get creds (fst cg) = Some (credit (fst cg))).
  { intros cg Hcg. specialize (Hcred cg Hcg). unfold Dict.mem in Hcred.
    unfold credit. now destruct (Dict.get creds (fst cg)). }
  rewrite (rmap_ok (py_getitem creds) credit).
  2:{ intros k Hk. apply in_map_iff in Hk as (cg & <- & Hcg).
      unfold py_getitem. now rewrite (Hget cg Hcg). }
  cbn [rbind].
  rewrite (rmap_ok _ (fun k => match Dict.get grades k with
                               | Some grade =>
                                   PrimFloat.mul (grade_point_value g grade) (credit k)
                               | None => PrimFloat.nan
                               end)).
  2:{ intros k Hk. apply in_map_iff in Hk as (cg & <- & Hcg).
      pose proof Hcg as Hf. apply filter_In in Hf as [Hin Hc].
      apply andb_prop in Hc as [_ Hmem]. destruct cg as [k v]. cbn [fst snd] in *.
      unfold py_getitem. rewrite (get_in_nodup grades k v Hnd Hin). cbn [rbind].
      unfold grade_point_value. unfold Dict.mem in Hmem.
      destruct (Dict.get (GPA_VAL g) v); [|discriminate]. cbn [rbind].
      pose proof (Hget (k, v) Hcg) as Hkv. cbn [fst] in Hkv. now rewrite Hkv. }
  cbn [rbind]. eauto.
Qed.

(** X6.  Every course of the mapping [grades_of_subj] returns has a
    credit in the table it leaves; so [subj_summary], called on the two
    as [transcript_data] does, returns whenever the subject has an
    exclusion set and the plan, when there is one, is excluded or is no
    letter grade of the grade-point table. *)
Theorem grades_then_summary g transcript subj creds grades creds' excluded :
  grades_of_subj transcript subj creds = (Ok grades, creds') ->
  Dict.get (IGNORE_COURSES g) subj = Some excluded ->
  (forall plan, Dict.get grades "Plan" = Some plan ->
                in_set "Plan" excluded = true \/ Dict.mem (GPA_VAL g) plan = false) ->
  (forall course, course <> "Plan" -> In course (Dict.keys grades) ->
                  Dict.mem creds' course = true) /\
  exists summary, subj_summary g subj grades creds' = Ok summary.
Proof.
  intros H Hex Hplan.
  pose proof (grades_of_subj_covered _ _ _ _ _ H) as Hcov.
  pose proof (grades_of_subj_nodup _ _ _ _ _ H) as Hnd.
  split; [exact Hcov|].
  apply (subj_summary_returns g subj grades creds' excluded Hnd Hex).
  intros [k v] Hcg. cbn [fst].
  pose proof Hcg as Hf. apply filter_In in Hf as [Hin Hc]. cbn [fst snd] in Hc.
  apply andb_prop in Hc as [Hnot Hmem].
  destruct (String.eqb_spec k "Plan") as [->|Hk].
  - exfalso. destruct (Hplan v (get_in_nodup grades "Plan" v Hnd Hin)) as [E|E].
    + rewrite E in Hnot. discriminate.
    + rewrite E in Hmem. discriminate.
  - apply Hcov; [assumption|]. change k with (fst (k, v)). now apply in_map.
Qed.

Lemma grades_then_summary_witness :
  (forall course, course <> "Plan" -> In course (Dict.keys sample_mth_grades) ->
                  Dict.mem sample_mth_creds course = true) /\
  exists summary, subj_summary globals "MTH" sample_mth_grades sample_mth_creds = Ok summary.
Proof.
  apply (grades_then_summary globals sample_transcript "MTH" []
           sample_mth_grades sample_mth_creds sample_excluded).
  - vm_compute. reflexivity.
  - reflexivity.
  - intros plan H. vm_compute in H. injection H as <-. right. reflexivity.
Defined.

(** ** The counts of a summary *)

(** The courses in progress: not excluded, and with the marker of the
    current semester for grade. *)
Definition in_progress (g : config) (excluded : list string) (grades : dict string)
  : list (string * string) :=
  filter (fun cg => negb (in_set (fst cg) excluded) && String.eqb (CURR_SEM g) (snd cg))
         grades.

Lemma summary_keys subj (a b c d : value) :
  Dict.keys (dict_of [("Num " ++ subj ++ "^ courses", a);
                      ("Num " ++ subj ++ "^ creds", b);
                      (subj ++ "^ GPA", c);
                      ("Num " ++ subj ++ "^ now", d)])
  = ["Num " ++ subj ++ "^ courses"; "Num " ++ subj ++ "^ creds";
     subj ++ "^ GPA"; "Num " ++ subj ++ "^ now"].
Proof.
  assert (Hne : forall x y : string,
             String.length x <> String.length y -> String.eqb x y = false).
  { intros x y H. apply String.eqb_neq. now apply length_ne_neq. }
  unfold dict_of, Dict.update. cbn [fold_left fst snd Dict.set].
  rewrite (Hne ("Num " ++ subj ++ "^ courses") ("Num " ++ subj ++ "^ creds"))
    by (simpl; rewrite !length_append; simpl; lia).
  cbn [Dict.set].
  rewrite (Hne ("Num " ++ subj ++ "^ courses") (subj ++ "^ GPA"))
    by (simpl; rewrite !length_append; simpl; lia).
  rewrite (Hne ("Num " ++ subj ++ "^ creds") (subj ++ "^ GPA"))
    by (simpl; rewrite !length_append; simpl; lia).
  cbn [Dict.set].
  rewrite (Hne ("Num " ++ subj ++ "^ courses") ("Num " ++ subj ++ "^ now"))
    by (simpl; rewrite !length_append; simpl; lia).
  rewrite (Hne ("Num " ++ subj ++ "^ creds") ("Num " ++ subj ++ "^ now"))
    by (simpl; rewrite !length_append; simpl; lia).
  rewrite (Hne (subj ++ "^ GPA") ("Num " ++ subj ++ "^ now"))
    by (simpl; rewrite !length_append; simpl; lia).
  reflexivity.
Qed.

Lemma filter_disjoint_length {A : Type} (p q : A -> bool) (l : list A) :
  (forall x, In x l -> p x = true -> q x = false) ->
  List.length (filter p l) + List.length (filter q l) <= List.length l.
Proof.
  induction l as [|x l IH]; intros H; simpl; [lia|].
  assert (IH' := IH (fun y Hy => H y (or_intror Hy))).
  pose proof (H x (or_introl eq_refl)) as Hx.
  destruct (p x); [rewrite Hx by reflexivity|]; destruct (q x); simpl; lia.
Qed.

(** X7.  The summary [subj_summary] returns has four entries; the course
    count is the number of courses that are not excluded and have a
    letter grade of the grade-point table, the in-progress count the
    number of courses that are not excluded and carry the marker of the
    current semester; when that marker is no letter grade, no course is
    counted twice. *)
Theorem subj_summary_counts g subj grades creds excluded summary :
  NoDup (Dict.keys grades) ->
  Dict.get (IGNORE_COURSES g) subj = Some excluded ->
  subj_summary g subj grades creds = Ok summary ->
  Dict.keys summary
  = ["Num " ++ subj ++ "^ courses"; "Num " ++ subj ++ "^ creds";
     subj ++ "^ GPA"; "Num " ++ subj ++ "^ now"] /\
  Dict.get summary ("Num " ++ subj ++ "^ courses")
  = Some (VInt (Z.of_nat (List.length (filtered_set g excluded grades)))) /\
  Dict.get summary ("Num " ++ subj ++ "^ now")
  = Some (VInt (Z.of_nat (List.length (in_progress g excluded grades)))) /\
  (Dict.mem (GPA_VAL g) (CURR_SEM g) = false ->
   List.length (filtered_set g excluded grades)
   + List.length (in_progress g excluded grades) <= List.length grades).
Proof.
  intros Hnd Hex Hsum. unfold subj_summary in Hsum.
  rewrite (rfilter_counted g subj grades excluded Hnd Hex (Dict.mem (GPA_VAL g))) in Hsum.
  rewrite (rfilter_counted g subj grades excluded Hnd Hex (String.eqb (CURR_SEM g)))
    in Hsum.
  fold (filtered_set g excluded grades) in Hsum.
  fold (in_progress g excluded grades) in Hsum.
  cbn [rbind] in Hsum.
  destruct (rmap (py_getitem creds) _) as [cs|]; [|discriminate]. cbn [rbind] in Hsum.
  destruct (rmap _ _) as [ws|]; [|discriminate]. cbn [rbind] in Hsum.
  injection Hsum as <-. rewrite !length_map.
  split; [apply summary_keys|]. split; [|split].
  - unfold dict_of, Dict.update. cbn [fold_left fst snd].
    rewrite !get_set_other
      by (apply length_ne_neq; simpl; rewrite !length_append; simpl; lia).
    apply get_set_same.
  - unfold dict_of, Dict.update. cbn [fold_left fst snd]. apply get_set_same.
  - intros Hcur. apply filter_disjoint_length.
    intros [k v] _ Hp. cbn [fst snd] in *.
    apply andb_prop in Hp as [_ Hp].
    destruct (String.eqb_spec (CURR_SEM g) v) as [<-|_];
      [congruence | apply andb_false_r].
Qed.

Lemma subj_summary_counts_witness :
  let summary := dict_of [("Num MTH^ courses", VInt 2);
                          ("Num MTH^ creds", VFloat 7%float);
                          ("MTH^ GPA", VFloat (PrimFloat.div
                             (PrimFloat.add (PrimFloat.add 0 (PrimFloat.mul 3.667 4))
                                            (PrimFloat.mul 2.333 3)) 7)%float);
                          ("Num MTH^ now", VInt 1)] in
  Dict.keys summary
  = ["Num " ++ "MTH" ++ "^ courses"; "Num " ++ "MTH" ++ "^ creds";
     "MTH" ++ "^ GPA"; "Num " ++ "MTH" ++ "^ now"] /\
  Dict.get summary ("Num " ++ "MTH" ++ "^ courses")
  = Some (VInt (Z.of_nat (List.length (filtered_set globals sample_excluded
                                                     sample_grades)))) /\
  Dict.get summary ("Num " ++ "MTH" ++ "^ now")
  = Some (VInt (Z.of_nat (List.length (in_progress globals sample_excluded
                                                    sample_grades)))) /\
  (Dict.mem (GPA_VAL globals) (CURR_SEM globals) = false ->
   List.length (filtered_set globals sample_excluded sample_grades)
   + List.length (in_progress globals sample_excluded sample_grades)
   <= List.length sample_grades).
Proof.
  apply (subj_summary_counts globals "MTH" sample_grades sample_creds sample_excluded).
  - repeat constructor; simpl; intuition discriminate.
  - reflexivity.
  - vm_compute. reflexivity.
Defined.

(** ** The exceptions of a summary *)

Lemma py_getitem_raises {V : Type} (d : dict V) k e :
  py_getitem d k = Raise e -> e = KeyError.
Proof. unfold py_getitem. destruct (Dict.get d k); congruence. Qed.

Lemma rfilter_raises {A : Type} (f : A -> result bool) (e0 : exn) :
  (forall x e, f x = Raise e -> e = e0) ->
  forall l e, rfilter f l = Raise e -> e = e0.
Proof.
  intros Hf. induction l as [|x l IH]; intros e H; cbn [rfilter] in H; [discriminate|].
  destruct (f x) as [b|e1] eqn:E; cbn [rbind] in H.
  - destruct (rfilter f l) as [l'|e2]; cbn [rbind] in H; [discriminate|].
    injection H as <-. now apply IH.
  - injection H as <-. eapply Hf; eauto.
Qed.

Lemma rmap_raises {A B : Type} (f : A -> result B) (e0 : exn) :
  (forall x e, f x = Raise e -> e = e0) ->
  forall l e, rmap f l = Raise e -> e = e0.
Proof.
  intros Hf. induction l as [|x l IH]; intros e H; cbn [rmap] in H; [discriminate|].
  destruct (f x) as [b|e1] eqn:E; cbn [rbind] in H.
  - destruct (rmap f l) as [l'|e2]; cbn [rbind] in H; [discriminate|].
    injection H as <-. now apply IH.
  - injection H as <-. eapply Hf; eauto.
Qed.

Lemma rmap_missing {A B : Type} (f : A -> result B) (l : list A) :
  (exists x e, In x l /\ f x = Raise e) -> exists e, rmap f l = Raise e.
Proof.
  induction l as [|x l IH]; intros (y & e & Hin & Hy); [contradiction|].
  cbn [rmap]. destruct (f x) as [b|e1] eqn:E; cbn [rbind]; [|eauto].
  destruct Hin as [->|Hin]; [congruence|].
  destruct IH as [e2 ->]; [eauto|]. cbn [rbind]. eauto.
Qed.

Lemma counted_raises g subj grades cond course e :
  counted g subj grades cond course = Raise e -> e = KeyError.
Proof.
  unfold counted. intros H.
  destruct (py_getitem (IGNORE_COURSES g) subj) as [ignored|e1] eqn:E1; cbn [rbind] in H.
  - destruct (in_set course ignored); [discriminate|].
    destruct (py_getitem grades course) as [grade|e2] eqn:E2; cbn [rbind] in H;
      [discriminate|].
    injection H as <-. eapply py_getitem_raises; eauto.
  - injection H as <-. eapply py_getitem_raises; eauto.
Qed.

Lemma subj_summary_raises g subj grades creds e :
  subj_summary g subj grades creds = Raise e -> e = KeyError.
Proof.
  unfold subj_summary. intros H.
  destruct (rfilter (counted g subj grades (Dict.mem (GPA_VAL g))) _)
    as [courses|e1] eqn:E1; cbn [rbind] in H.
  2:{ injection H as <-. eapply rfilter_raises; [|exact E1].
      intros x e0. apply counted_raises. }
  destruct (rmap (py_getitem creds) courses) as [cs|e2] eqn:E2; cbn [rbind] in H.
  2:{ injection H as <-. eapply rmap_raises; [|exact E2].
      intros x e0. apply py_getitem_raises. }
  match type of H with
  | context [rmap ?f courses] => destruct (rmap f courses) as [ws|e3] eqn:E3
  end; cbn [rbind] in H.
  2:{ injection H as <-. eapply rmap_raises; [|exact E3].
      intros x e0 Hx. cbv beta in Hx.
      destruct (py_getitem grades x) as [grade|e4] eqn:E4; cbn [rbind] in Hx;
        [|injection Hx as <-; eapply py_getitem_raises; eauto].
      destruct (py_getitem (GPA_VAL g) grade) as [p|e5] eqn:E5; cbn [rbind] in Hx;
        [|injection Hx as <-; eapply py_getitem_raises; eauto].
      destruct (py_getitem creds x) as [c|e6] eqn:E6; cbn [rbind] in Hx;
        [discriminate|injection Hx as <-; eapply py_getitem_raises; eauto]. }
  match type of H with
  | context [rfilter ?f ?l] => destruct (rfilter f l) as [now|e7] eqn:E7
  end; cbn [rbind] in H; [discriminate|].
  injection H as <-. eapply rfilter_raises; [|exact E7].
  intros x e0. apply counted_raises.
Qed.

(** The summary of a student without course of the subject. *)
Definition empty_summary (subj : string) : dict value :=
  dict_of [("Num " ++ subj ++ "^ courses", VInt 0);
           ("Num " ++ subj ++ "^ creds", VInt 0);
           (subj ++ "^ GPA", VFloat PrimFloat.nan);
           ("Num " ++ subj ++ "^ now", VInt 0)].

(** X8.  [subj_summary] raises nothing but [KeyError].  For a subject
    without entry in [IGNORE_COURSES] it raises it as soon as the
    mapping has one entry, and returns zero counts and a NaN average for
    the empty mapping; for a subject with an entry, it returns when
    every course that counts has a credit in the table and raises
    [KeyError] when one has none. *)
Theorem subj_summary_outcome g subj grades creds :
  (forall e, subj_summary g subj grades creds = Raise e -> e = KeyError) /\
  (Dict.get (IGNORE_COURSES g) subj = None ->
   subj_summary g subj grades creds
   = match grades with
     | [] => Ok (empty_summary subj)
     | _ :: _ => Raise KeyError
     end) /\
  (forall excluded,
      NoDup (Dict.keys grades) ->
      Dict.get (IGNORE_COURSES g) subj = Some excluded ->
      if forallb (fun cg => Dict.mem creds (fst cg)) (filtered_set g excluded grades)
      then exists summary, subj_summary g subj grades creds = Ok summary
      else subj_summary g subj grades creds = Raise KeyError).
Proof.
  split; [apply subj_summary_raises|]. split.
  - intros Hnone. destruct grades as [|[k v] grades]; [reflexivity|].
    unfold subj_summary. cbn [Dict.keys map fst rfilter].
    unfold counted at 1. unfold py_getitem at 1. rewrite Hnone. reflexivity.
  - intros excluded Hnd Hex.
    destruct (forallb _ _) eqn:Hall.
    + apply (subj_summary_returns g subj grades creds excluded Hnd Hex).
      intros cg Hcg. rewrite forallb_forall in Hall. now apply Hall.
    + destruct (subj_summary g subj grades creds) as [summary|e] eqn:E;
        [exfalso | f_equal; eapply subj_summary_raises; eauto].
      unfold subj_summary in E.
      rewrite (rfilter_counted g subj grades excluded Hnd Hex (Dict.mem (GPA_VAL g)))
        in E.
      fold (filtered_set g excluded grades) in E. cbn [rbind] in E.
      destruct (rmap_missing (py_getitem creds)
                  (map fst (filtered_set g excluded grades))) as [e He].
      * assert (Hex' : exists cg, In cg (filtered_set g excluded grades)
                                  /\ Dict.mem creds (fst cg) = false).
        { clear E. induction (filtered_set g excluded grades) as [|cg l IH];
            [discriminate|].
          cbn [forallb] in Hall. apply andb_false_iff in Hall as [H|H].
          - exists cg. split; [now left | exact H].
          - destruct (IH H) as (cg' & Hin & Hm). exists cg'. split; [now right | exact Hm]. }
        destruct Hex' as (cg & Hin & Hm).
        exists (fst cg), KeyError. split; [now apply in_map|].
        unfold py_getitem. now rewrite (mem_false_get _ _ Hm).
      * rewrite He in E. discriminate.
Qed.

Example subj_summary_unconfigured :
  subj_summary globals "CHM" [] [] = Ok (empty_summary "CHM") /\
  subj_summary globals "CHM" [("CHM 3", "A")] [("CHM 3", 4%float)] = Raise KeyError /\
  subj_summary globals "MTH" [("MTH 7", "A")] [] = Raise KeyError /\
  subj_summary globals "MTH" [("MTH 7", "S22")] [] = Ok
    (dict_of [("Num MTH^ courses", VInt 0); ("Num MTH^ creds", VInt 0);
              ("MTH^ GPA", VFloat PrimFloat.nan); ("Num MTH^ now", VInt 1)]).
Proof. repeat split; vm_compute; reflexivity. Qed.

(** ** The table of [transcript_data] *)

Definition index_or_key (e : exn) : Prop := e = IndexError \/ e = KeyError.

Lemma grades_of_subj_index transcript subj :
  raises (eq IndexError) (grades_of_subj transcript subj).
Proof.
  intros c e c' H.
  pose proof (line_loop_outcome subj (course_lines transcript subj)
                (plan_dict transcript) c
                (course_lines_credit transcript subj)) as Hl.
  rewrite <- grades_of_subj_lines in Hl.
  destruct (forallb _ _).
  - destruct Hl as (gd & c1 & Hl). congruence.
  - destruct Hl as (c1 & Hl). congruence.
Qed.

Lemma record_subject_raises g transcript subj data_dict :
  raises index_or_key (record_subject g transcript subj data_dict).
Proof.
  unfold record_subject. apply raises_bind.
  { intros c e c' H. left. symmetry. eapply grades_of_subj_index; eauto. }
  intros grades. apply raises_bind; [apply raises_read|]. intros creds.
  apply raises_bind; [|intros; apply raises_ret].
  apply raises_lift. intros e H. right. eapply subj_summary_raises; eauto.
Qed.

Lemma record_transcript_raises g transcript records :
  raises index_or_key (record_transcript g transcript records).
Proof.
  unfold record_transcript. apply raises_bind.
  { apply raises_lift. intros e H. left. eapply personal_info_raises; eauto. }
  intros info. apply raises_bind; [|intros; apply raises_ret].
  apply raises_for_each. intros. apply record_subject_raises.
Qed.

Lemma record_transcript_snoc g transcript records records' c c' :
  record_transcript g transcript records c = (Ok records', c') ->
  exists data_dict, records' = (records ++ [data_dict])%list.
Proof.
  unfold record_transcript, bind, lift, ret. intros H.
  destruct (personal_info transcript) as [info|]; [|discriminate].
  destruct (for_each _ _ info c) as [[d|] c1]; [|discriminate].
  injection H as <- _. eauto.
Qed.

Lemma records_length g : forall transcripts records records' c c',
    for_each transcripts (record_transcript g) records c = (Ok records', c') ->
    List.length records' = List.length records + List.length transcripts.
Proof.
  induction transcripts as [|t ts IH]; intros records records' c c' H; simpl in H.
  - injection H as <- _. simpl. lia.
  - unfold bind in H.
    destruct (record_transcript g t records c) as [[r1|] c1] eqn:E; [|discriminate].
    destruct (record_transcript_snoc _ _ _ _ _ _ E) as [d ->].
    rewrite (IH _ _ _ _ H), length_app. simpl. lia.
Qed.

Lemma subj_summ_cols_length g :
  List.length (subj_summ_cols g) = 3 * List.length (SUBJECTS g).
Proof.
  unfold subj_summ_cols. apply flat_map_length_const. reflexivity.
Qed.

(** X9.  [transcript_data] raises nothing but [IndexError] and
    [KeyError].  The table it returns has one row for each transcript,
    each row with one cell for each column; the columns are the seven
    personal columns, three summary columns for each subject, and the
    courses of the credit table as it is after the run, in the order
    [natsorted] gives them. *)
Theorem transcript_data_frame g natsorted transcripts creds :
  (forall e creds',
      transcript_data g natsorted transcripts creds = (Raise e, creds') ->
      e = IndexError \/ e = KeyError) /\
  (forall df creds',
      transcript_data g natsorted transcripts creds = (Ok df, creds') ->
      List.length (df_rows df) = List.length transcripts /\
      Forall (fun row => List.length row = List.length (df_columns df)) (df_rows df) /\
      df_columns df
      = (["Name"; "Student_ID"; "Plan"; "Sex"; "Address1"; "Address2"; "Address3"]
         ++ subj_summ_cols g ++ natsorted (Dict.keys creds'))%list /\
      List.length (df_columns df)
      = 7 + 3 * List.length (SUBJECTS g) + List.length (natsorted (Dict.keys creds'))).
Proof.
  split.
  - assert (Hr : raises index_or_key (transcript_data g natsorted transcripts)).
    { unfold transcript_data. apply raises_bind.
      - apply raises_for_each. intros. apply record_transcript_raises.
      - intros records. apply raises_bind; [apply raises_read|].
        intros c. apply raises_ret. }
    intros e creds' H. exact (Hr _ _ _ H).
  - intros df creds' H. unfold transcript_data, bind, read_creds, ret in H.
    destruct (for_each transcripts (record_transcript g) [] creds)
      as [[records|] c1] eqn:E; [|discriminate].
    injection H as <- <-. unfold make_frame. cbn [df_rows df_columns].
    split; [|split; [|split]].
    + rewrite length_map. now rewrite (records_length _ _ _ _ _ _ E).
    + apply Forall_map. apply Forall_forall. intros r _. apply length_map.
    + reflexivity.
    + cbn [app List.length]. rewrite length_app, subj_summ_cols_length. lia.
Qed.

(** ** The rows of the table *)

Fixpoint has_space (s : string) : bool :=
  match s with
  | EmptyString => false
  | String c s' => Ascii.eqb c space || has_space s'
  end.

Lemma has_space_append a b : has_space (a ++ b) = has_space a || has_space b.
Proof.
  induction a as [|c a IH]; simpl; [reflexivity|].
  now rewrite IH, orb_assoc.
Qed.

Lemma course_key_space subj num : has_space (subj ++ " " ++ num) = true.
Proof. rewrite has_space_append. simpl. apply orb_true_r. Qed.

Lemma line_loop_keys subj : forall ls gd c gd' c',
    for_each ls (fun sl => grade_line subj (fst sl) (snd sl)) gd c = (Ok gd', c') ->
    forall k, In k (Dict.keys gd') -> In k (Dict.keys gd) \/ has_space k = true.
Proof.
  induction ls as [|sl ls IH]; intros gd c gd' c' H k Hin; simpl in H.
  - injection H as <- _. now left.
  - unfold bind in H.
    destruct (grade_line subj (fst sl) (snd sl) gd c) as [[gd1|e] c1] eqn:E;
      [|discriminate].
    destruct (grade_line_ok _ _ _ _ _ _ _ E) as (crs & Hc & ->).
    destruct (IH _ _ _ _ H k Hin) as [Hk|Hk]; [|now right].
    apply in_keys_set in Hk as [->|Hk]; [right | now left].
    unfold line_course in Hc. destruct (findall1 _ _); [discriminate|].
    injection Hc as <-. apply course_key_space.
Qed.

Lemma grades_of_subj_keys transcript subj c grades c' :
  grades_of_subj transcript subj c = (Ok grades, c') ->
  forall k, In k (Dict.keys grades) -> k = "Plan" \/ has_space k = true.
Proof.
  rewrite grades_of_subj_lines. intros H k Hin.
  destruct (line_loop_keys _ _ _ _ _ _ H k Hin) as [Hk|Hk]; [left | now right].
  unfold plan_dict in Hk. destruct (findall1 _ _); simpl in Hk; [contradiction|].
  now destruct Hk as [<-|[]].
Qed.

Lemma subj_summary_keys g subj grades creds summary :
  subj_summary g subj grades creds = Ok summary ->
  forall k, In k (Dict.keys summary) -> has_space k = true.
Proof.
  unfold subj_summary. intros H.
  destruct (rfilter _ _) as [courses|]; [|discriminate]. cbn [rbind] in H.
  destruct (rmap (py_getitem creds) courses) as [cs|]; [|discriminate].
  cbn [rbind] in H.
  match type of H with
  | context [rmap ?f courses] => destruct (rmap f courses) as [ws|]
  end; [|discriminate]. cbn [rbind] in H.
  destruct (rfilter _ _) as [now|]; [|discriminate]. cbn [rbind] in H.
  injection H as <-. intros k Hin.
  match type of Hin with
  | In k (Dict.keys (dict_of [(_, ?a); (_, ?b); (_, ?c); (_, ?d)])) =>
      pose proof (summary_keys subj a b c d) as Hk
  end.
  assert (Hin' : In k ["Num " ++ subj ++ "^ courses"; "Num " ++ subj ++ "^ creds";
                       subj ++ "^ GPA"; "Num " ++ subj ++ "^ now"])
    by (rewrite <- Hk; exact Hin).
  destruct Hin' as [<-|[<-|[<-|[<-|[]]]]]; try reflexivity.
  rewrite has_space_append. apply orb_true_r.
Qed.

Lemma not_in_keys_get {V : Type} (d : dict V) k : ~ In k (Dict.keys d) -> Dict.get d k = None.
Proof.
  intros H. destruct (Dict.get d k) eqn:E; [|reflexivity].
  exfalso. apply H. eapply get_in_keys; eauto.
Qed.

(** [d.update(e)]: the entries of [e] over those of [d]. *)
Lemma get_update {V : Type} (e : dict V) : forall d k,
    NoDup (Dict.keys e) ->
    Dict.get (Dict.update d e) k
    = match Dict.get e k with
      | Some v => Some v
      | None => Dict.get d k
      end.
Proof.
  unfold Dict.update.
  induction e as [|[k0 v0] e IH]; intros d k Hnd; [reflexivity|].
  inversion Hnd as [|? ? Hnotin Hnd']; subst.
  cbn [fold_left fst snd Dict.get]. rewrite IH by assumption.
  destruct (String.eqb_spec k0 k) as [->|Hne].
  - rewrite (not_in_keys_get e k Hnotin). apply get_set_same.
  - now rewrite get_set_other.
Qed.

Lemma get_update_other {V : Type} (e : dict V) : forall d k,
    ~ In k (Dict.keys e) -> Dict.get (Dict.update d e) k = Dict.get d k.
Proof.
  unfold Dict.update.
  induction e as [|[k0 v0] e IH]; intros d k Hnotin; [reflexivity|].
  cbn [fold_left fst snd]. rewrite IH by (intros H; apply Hnotin; now right).
  apply get_set_other. intros ->. apply Hnotin. now left.
Qed.

Lemma map_values_keys {V W : Type} (f : V -> W) (d : dict V) :
  Dict.keys (Dict.map_values f d) = Dict.keys d.
Proof. unfold Dict.keys, Dict.map_values. rewrite map_map. reflexivity. Qed.

Lemma map_values_get {V W : Type} (f : V -> W) (d : dict V) k :
  Dict.get (Dict.map_values f d) k = option_map f (Dict.get d k).
Proof.
  induction d as [|[k0 v0] d IH]; [reflexivity|].
  cbn [Dict.map_values map fst snd Dict.get].
  destruct (String.eqb k0 k); [reflexivity | exact IH].
Qed.

(** The plan of a transcript, as [grades_of_subj] reads it for every
    subject. *)
Definition plan_of (transcript : string) : option string :=
  Dict.get (plan_dict transcript) "Plan".

Lemma grades_of_subj_plan_entry transcript subj c grades c' :
  grades_of_subj transcript subj c = (Ok grades, c') ->
  Dict.get grades "Plan" = plan_of transcript.
Proof.
  rewrite grades_of_subj_lines. intros H.
  now rewrite (line_loop_latest subj "Plan" _ _ _ _ _ H), never_plan_course.
Qed.

(** What one subject writes to the record of a student: entries whose
    keys hold a space, and the plan. *)
Lemma record_subject_cells g transcript subj d c d' c' :
  record_subject g transcript subj d c = (Ok d', c') ->
  (forall k, has_space k = false -> k <> "Plan" -> Dict.get d' k = Dict.get d k) /\
  Dict.get d' "Plan"
  = match plan_of transcript with
    | Some p => Some (VStr p)
    | None => Dict.get d "Plan"
    end.
Proof.
  unfold record_subject, bind, read_creds, lift, ret. intros H.
  destruct (grades_of_subj transcript subj c) as [[grades|] c1] eqn:E; [|discriminate].
  destruct (subj_summary g subj grades c1) as [summary|] eqn:Es; [|discriminate].
  injection H as <- _.
  pose proof (grades_of_subj_keys _ _ _ _ _ E) as Hkeys.
  pose proof (subj_summary_keys _ _ _ _ _ Es) as Hsum.
  split.
  - intros k Hk Hplan.
    rewrite get_update_other.
    2:{ intros Hin. apply Hsum in Hin. congruence. }
    rewrite get_update_other; [reflexivity|].
    rewrite map_values_keys. intros Hin.
    destruct (Hkeys k Hin); congruence.
  - rewrite get_update_other.
    2:{ intros Hin. apply Hsum in Hin. discriminate. }
    rewrite get_update.
    2:{ rewrite map_values_keys. eapply grades_of_subj_nodup; eauto. }
    rewrite map_values_get, (grades_of_subj_plan_entry _ _ _ _ _ E).
    now destruct (plan_of transcript).
Qed.

Lemma subject_loop_cells g transcript : forall subjects d c d' c',
    for_each subjects (record_subject g transcript) d c = (Ok d', c') ->
    (forall k, has_space k = false -> k <> "Plan" -> Dict.get d' k = Dict.get d k) /\
    Dict.get d' "Plan"
    = match subjects, plan_of transcript with
      | _ :: _, Some p => Some (VStr p)
      | _, _ => Dict.get d "Plan"
      end.
Proof.
  induction subjects as [|subj subjects IH]; intros d c d' c' H; simpl in H.
  - injection H as <- _. split; [reflexivity|]. reflexivity.
  - unfold bind in H.
    destruct (record_subject g transcript subj d c) as [[d1|] c1] eqn:E; [|discriminate].
    destruct (record_subject_cells _ _ _ _ _ _ _ E) as [H1 H2].
    destruct (IH _ _ _ _ H) as [H3 H4].
    split.
    + intros k Hk Hp. now rewrite H3, H1.
    + rewrite H4, H2. destruct subjects, (plan_of transcript); reflexivity.
Qed.

(** The cell of the plan: the plan line of the transcript, if it has
    one and there is a subject to look for it. *)
Definition plan_cell (g : config) (transcript : string) : option value :=
  match SUBJECTS g with
  | [] => None
  | _ :: _ => option_map VStr (plan_of transcript)
  end.

(** The first seven cells of the row of a student. *)
Definition personal_cells (g : config) (transcript : string) (info : dict value)
  : list (option value) :=
  [Dict.get info "Name"; Dict.get info "Student_ID"; plan_cell g transcript;
   Dict.get info "Sex"; Dict.get info "Address1"; Dict.get info "Address2";
   Dict.get info "Address3"].

Lemma personal_info_no_plan transcript info :
  personal_info transcript = Ok info -> Dict.get info "Plan" = None.
Proof.
  unfold personal_info. intros H.
  destruct (py_index _ 0) as [name|]; [|discriminate]. cbn [rbind] in H.
  destruct (py_index _ 0) as [sid|]; [|discriminate]. cbn [rbind] in H.
  destruct (py_index _ 0) as [sex|]; [|discriminate]. cbn [rbind] in H.
  destruct (findalln address_re transcript); injection H as <-; reflexivity.
Qed.

Lemma record_transcript_row g transcript records records' c c' :
  record_transcript g transcript records c = (Ok records', c') ->
  exists info data_dict,
    personal_info transcript = Ok info /\
    records' = (records ++ [data_dict])%list /\
    map (Dict.get data_dict)
        ["Name"; "Student_ID"; "Plan"; "Sex"; "Address1"; "Address2"; "Address3"]
    = personal_cells g transcript info.
Proof.
  unfold record_transcript, bind, lift, ret. intros H.
  destruct (personal_info transcript) as [info|] eqn:Ei; [|discriminate].
  destruct (for_each _ _ info c) as [[d|] c1] eqn:E; [|discriminate].
  injection H as <- _. exists info, d.
  split; [reflexivity|]. split; [reflexivity|].
  destruct (subject_loop_cells _ _ _ _ _ _ _ E) as [H1 H2].
  cbn [map]. unfold personal_cells, plan_cell.
  rewrite H2, (personal_info_no_plan _ _ Ei).
  rewrite !H1 by (reflexivity || discriminate).
  destruct (SUBJECTS g), (plan_of transcript); reflexivity.
Qed.

(** The record of a student carries the personal cells of the student. *)
Definition row_of (g : config) (transcript : string) (data_dict : dict value) : Prop :=
  exists info,
    personal_info transcript = Ok info /\
    map (Dict.get data_dict)
        ["Name"; "Student_ID"; "Plan"; "Sex"; "Address1"; "Address2"; "Address3"]
    = personal_cells g transcript info.

Lemma records_rows g : forall transcripts records records' c c',
    for_each transcripts (record_transcript g) records c = (Ok records', c') ->
    exists new,
      records' = (records ++ new)%list /\ Forall2 (row_of g) transcripts new.
Proof.
  induction transcripts as [|t ts IH]; intros records records' c c' H; simpl in H.
  - injection H as <- _. exists []. split; [now rewrite app_nil_r | constructor].
  - unfold bind in H.
    destruct (record_transcript g t records c) as [[r1|] c1] eqn:E; [|discriminate].
    destruct (record_transcript_row _ _ _ _ _ _ E) as (info & d & Hi & -> & Hd).
    destruct (IH _ _ _ _ H) as (new & -> & Hnew).
    exists (d :: new). split; [now rewrite <- app_assoc|].
    constructor; [|exact Hnew]. now exists info.
Qed.

(** X10.  The rows of the table follow the transcripts, in their order.
    The first seven cells of a row are the name and the student ID that
    [personal_info] reads from the transcript of the row, the plan of
    that transcript, and the sex and the three address fields of
    [personal_info]: no grade and no summary entry of a subject
    overwrites them. *)
Theorem transcript_data_rows g natsorted transcripts creds df creds' :
  transcript_data g natsorted transcripts creds = (Ok df, creds') ->
  Forall2 (fun transcript row =>
             exists info,
               personal_info transcript = Ok info /\
               firstn 7 row = personal_cells g transcript info)
          transcripts (df_rows df).
Proof.
  unfold transcript_data, bind, read_creds, ret. intros H.
  destruct (for_each transcripts (record_transcript g) [] creds)
    as [[records|] c1] eqn:E; [|discriminate].
  injection H as <- _. unfold make_frame. cbn [df_rows].
  destruct (records_rows _ _ _ _ _ _ E) as (new & -> & Hnew).
  cbn [app]. clear E. induction Hnew as [|t d ts ds (info & Hi & Hd) _ IH];
    [constructor|].
  cbn [map]. constructor; [|exact IH].
  exists info. split; [exact Hi|]. cbn [app map firstn] in *. exact Hd.
Qed.

Definition sample_frame : DataFrame :=
  Eval vm_compute in
    match fst (transcript_data globals (fun l => l) [sample_transcript] []) with
    | Ok df => df
    | Raise _ => make_frame [] []
    end.

Lemma transcript_data_rows_witness :
  Forall2 (fun transcript row =>
             exists info,
               personal_info transcript = Ok info /\
               firstn 7 row = personal_cells globals transcript info)
          [sample_transcript] (df_rows sample_frame).
Proof.
  apply (transcript_data_rows globals (fun l => l) [sample_transcript] []
           sample_frame [("MTH 9", 4%float); ("MTH 22", 3%float); ("PHY 3", 4%float)]).
  vm_compute. reflexivity.
Defined.

Example sample_frame_cells :
  map (firstn 7) (df_rows sample_frame)
  = [[Some (VStr "Bob Smith"); Some (VStr "100123"); Some (VStr "Mathematics BS");
      Some (VStr "M"); Some (VStr ""); Some (VStr ""); Some (VStr "")]].
Proof. vm_compute. reflexivity. Qed.

(** ** The text of the pages *)

Lemma join_app l1 l2 : join (l1 ++ l2) = join l1 ++ join l2.
Proof.
  induction l1 as [|x l1 IH]; simpl; [reflexivity|].
  now rewrite IH, append_assoc.
Qed.

Lemma pages_text pages : forall text,
    fold_left (fun text page => (text ++ page) ++ NL) pages text = text ++ lines pages.
Proof.
  unfold lines. induction pages as [|page pages IH]; intros text; simpl.
  - now rewrite append_nil_r.
  - rewrite IH. now rewrite !append_assoc.
Qed.

Lemma separate_students_length text d :
  unbordered d = true ->
  List.length (separate_students text d) = occurrences d text.
Proof.
  intros Hd. unfold separate_students, separate_students_names. cbn [fst].
  rewrite length_map, (split_lit d Hd).
  pose proof (scan_lit_count d Hd text EmptyString) as Hcount.
  unfold finditer. destruct (scan (lit d) text 0 EmptyString) as [ms tl0].
  cbn [fst snd] in *. destruct ms; simpl in *; [assumption|].
  rewrite length_app, length_map. simpl. lia.
Qed.


(** * The run on a file

    [analyze_transcripts] and the [main] of [transcript_runner.py] work
    on the world around the program: the PDF file, the spreadsheet, the
    terminal.  The packages that reach it are parameters: what
    [pdfplumber] extracts from the pages of a file, whether [to_excel]
    manages to write, and [os.path.join]. *)

Definition IN_DIR : string := "data".
Definition OUT_DIR : string := "data".

(** What a run leaves behind: the default-argument dictionaries of the
    module, the lines printed, the spreadsheets written. *)
Record world : Type := mk_world {
  w_process : process;
  w_stdout : list string;
  w_files : list (string * DataFrame)
}.

Definition print (s : string) (w : world) : world :=
  {| w_process := w_process w;
     w_stdout := (w_stdout w ++ [s])%list;
     w_files := w_files w |}.

(** How [main] ends: it returns, [sys.exit] ends the process with a
    message, or an exception escapes. *)
Inductive outcome : Type :=
| Returned
| Exited (msg : string)
| Failed (e : exn).

Section Run.
Variable g : config.
Variable natsorted : list string -> list string.
Variable path_join : string -> string -> string.
Variable pdf_pages : string -> result (list string).
Variable to_excel : string -> DataFrame -> result unit.

Definition scrape_pdf (file : string) : result string :=
  pages <~ pdf_pages file ;;
  Ok (fold_left (fun text page => (text ++ page) ++ NL) pages NL).

Definition analyze_transcripts (file output_file : string) (w : world)
  : result DataFrame * world :=
  match scrape_pdf (path_join IN_DIR file) with
  | Raise e => (Raise e, w)
  | Ok raw_text =>
      let one_space_text := remove_extra_spaces raw_text in
      let transcripts := separate_students one_space_text name_splitter_default in
      let '(r, p) := call_transcript_data g natsorted transcripts (w_process w) in
      let w := {| w_process := p; w_stdout := w_stdout w; w_files := w_files w |} in
      match r with
      | Raise e => (Raise e, w)
      | Ok df =>
          if negb (String.eqb output_file EmptyString) then
            let path := path_join OUT_DIR output_file in
            match to_excel path df with
            | Ok _ =>
                (Ok df, {| w_process := w_process w;
                           w_stdout := w_stdout w;
                           w_files := (w_files w ++ [(path, df)])%list |})
            | Raise e => (Raise e, w)
            end
          else (Ok df, w)
      end
  end.

Definition default_output_file : string := "TranscriptSummary.xlsx".

Definition usage : string := "Usage: python transcript_runner.py 'Transcripts.pdf' ".

(** One of the two blocks of [main] that run the analysis. *)
Definition analysis (input_file output_file : string) (w : world) : outcome * world :=
  let w := print "Analyzing transcripts..." w in
  match analyze_transcripts input_file output_file w with
  | (Ok _, w) => (Returned, print "All done!" w)
  | (Raise e, w) => (Failed e, w)
  end.

(** A statement of [main], and the statements after it if it returns. *)
Definition and_then (m : world -> outcome * world) (k : world -> outcome * world)
           (w : world) : outcome * world :=
  match m w with
  | (Returned, w') => k w'
  | (o, w') => (o, w')
  end.

Definition main (argv : list string) (w : world) : outcome * world :=
  if Nat.leb (List.length argv) 1 then (Exited usage, w)
  else
    match py_index argv 1 with
    | Raise e => (Failed e, w)
    | Ok input_file =>
        and_then
          (fun w => if Nat.eqb (List.length argv) 2
                    then analysis input_file default_output_file w
                    else (Returned, w))
          (and_then
             (fun w => if Nat.ltb 3 (List.length argv)
                       then (Returned, print "Warning: Using only first two arguments." w)
                       else (Returned, w))
             (fun w => if Nat.leb 3 (List.length argv)
                       then match py_index argv 2 with
                            | Raise e => (Failed e, w)
                            | Ok output_file => analysis input_file output_file w
                            end
                       else (Returned, w))) w
    end.
(** The spreadsheet a call with [output_file] writes for the table [df]. *)
Definition written (output_file : string) (df : DataFrame)
  : list (string * DataFrame) :=
  if String.eqb output_file EmptyString then []
  else [(path_join OUT_DIR output_file, df)].

Lemma analyze_transcripts_world file output_file w :
  match pdf_pages (path_join IN_DIR file) with
  | Raise e => analyze_transcripts file output_file w = (Raise e, w)
  | Ok pages =>
      let text := remove_extra_spaces (NL ++ lines pages) in
      w_stdout (snd (analyze_transcripts file output_file w)) = w_stdout w /\
      match fst (analyze_transcripts file output_file w) with
      | Ok df =>
          List.length (df_rows df) = occurrences "Name : " text /\
          w_files (snd (analyze_transcripts file output_file w))
          = (w_files w ++ written output_file df)%list
      | Raise e =>
          w_files (snd (analyze_transcripts file output_file w)) = w_files w
      end
  end.
Proof.
  unfold analyze_transcripts, scrape_pdf.
  destruct (pdf_pages (path_join IN_DIR file)) as [pages|e]; cbn [rbind];
    [|reflexivity].
  rewrite pages_text. cbv zeta.
  set (text := remove_extra_spaces (NL ++ lines pages)).
  unfold call_transcript_data.
  destruct (transcript_data g natsorted (separate_students text name_splitter_default)
              (transcript_data_creds (w_process w))) as [[df|e] c] eqn:E;
    cbn [w_process w_stdout w_files].
  - assert (Hrows : List.length (df_rows df) = occurrences "Name : " text).
    { unfold transcript_data, bind, read_creds, ret in E.
      destruct (for_each _ _ [] _) as [[records|] c1] eqn:Er; [|discriminate].
      injection E as <- _. unfold make_frame. cbn [df_rows].
      rewrite length_map, (records_length _ _ _ _ _ _ Er).
      apply (separate_students_length text "Name : " eq_refl). }
    unfold written.
    destruct (String.eqb output_file EmptyString); cbn [negb].
    + cbn [fst snd w_stdout w_files]. now rewrite app_nil_r.
    + destruct (to_excel _ df); cbn [fst snd w_stdout w_files]; auto.
  - cbn [fst snd w_stdout w_files]. auto.
Qed.
Lemma analyze_transcripts_effects file output_file w :
  w_stdout (snd (analyze_transcripts file output_file w)) = w_stdout w /\
  match fst (analyze_transcripts file output_file w) with
  | Ok df =>
      w_files (snd (analyze_transcripts file output_file w))
      = (w_files w ++ written output_file df)%list
  | Raise e => w_files (snd (analyze_transcripts file output_file w)) = w_files w
  end.
Proof.
  pose proof (analyze_transcripts_world file output_file w) as H.
  destruct (pdf_pages (path_join IN_DIR file)) as [pages|e].
  - destruct H as [H1 H2]. split; [exact H1|].
    destruct (fst (analyze_transcripts file output_file w)); [apply H2 | exact H2].
  - rewrite H. cbn [fst snd]. auto.
Qed.

Definition warning : string := "Warning: Using only first two arguments.".

(** What [main] prints before the analysis. *)
Definition warned (rest : list string) : list string :=
  match rest with
  | _ :: _ :: _ => [warning]
  | _ => []
  end.

Lemma main_analysis script input_file rest w :
  main (script :: input_file :: rest) w
  = analysis input_file (hd default_output_file rest)
             {| w_process := w_process w;
                w_stdout := (w_stdout w ++ warned rest)%list;
                w_files := w_files w |}.
Proof.
  unfold main. cbn [List.length Nat.leb].
  change 1%Z with (Z.of_nat 1). rewrite py_index_nat. cbn [nth_error].
  destruct rest as [|output_file [|extra rest]].
  - cbn [List.length Nat.eqb Nat.ltb Nat.leb hd warned and_then].
    rewrite app_nil_r. destruct w as [p out files]. cbn [w_process w_stdout w_files].
    unfold and_then.
    destruct (analysis input_file default_output_file _) as [[| |] w']; reflexivity.
  - cbn [List.length Nat.eqb Nat.ltb Nat.leb hd warned]. unfold and_then.
    change 2%Z with (Z.of_nat 2). rewrite py_index_nat. cbn [nth_error].
    rewrite app_nil_r. destruct w as [p out files]. reflexivity.
  - cbn [List.length Nat.eqb Nat.ltb Nat.leb hd warned]. unfold and_then.
    change 2%Z with (Z.of_nat 2). rewrite py_index_nat. cbn [nth_error].
    reflexivity.
Qed.

Lemma analysis_world input_file output_file w :
  let call := analyze_transcripts input_file output_file
                                  (print "Analyzing transcripts..." w) in
  match fst call with
  | Ok df =>
      fst (analysis input_file output_file w) = Returned /\
      w_stdout (snd (analysis input_file output_file w))
      = (w_stdout w ++ ["Analyzing transcripts..."; "All done!"])%list /\
      w_files (snd (analysis input_file output_file w))
      = (w_files w ++ written output_file df)%list
  | Raise e =>
      fst (analysis input_file output_file w) = Failed e /\
      w_stdout (snd (analysis input_file output_file w))
      = (w_stdout w ++ ["Analyzing transcripts..."])%list /\
      w_files (snd (analysis input_file output_file w)) = w_files w
  end.
Proof.
  cbv zeta. unfold analysis.
  destruct (analyze_transcripts_effects input_file output_file
              (print "Analyzing transcripts..." w)) as [Hout Hfiles].
  destruct (analyze_transcripts input_file output_file _) as [[df|e] w'].
  - cbn [fst snd print w_stdout w_files] in *.
    rewrite Hout, Hfiles, <- app_assoc. auto.
  - cbn [fst snd print w_stdout w_files] in *. auto.
Qed.
End Run.

(** X11.  [analyze_transcripts] on a file whose pages cannot be read
    raises and leaves everything as it was.  On a file that can, it
    prints nothing; the table it returns has one row for each occurrence
    of the delimiter of a student in the text of the pages, every page
    closed by a line feed, after the runs of spaces are collapsed; it
    writes that table, once, under the name of the output file, and it
    writes nothing when that name is empty or when it raises. *)
Theorem analyze_transcripts_run g natsorted path_join pdf_pages to_excel
        file output_file w :
  let run := analyze_transcripts g natsorted path_join pdf_pages to_excel
                                 file output_file w in
  match pdf_pages (path_join IN_DIR file) with
  | Raise e => run = (Raise e, w)
  | Ok pages =>
      let text := remove_extra_spaces (NL ++ lines pages) in
      w_stdout (snd run) = w_stdout w /\
      match fst run with
      | Ok df =>
          List.length (df_rows df) = occurrences "Name : " text /\
          w_files (snd run)
          = (w_files w ++ if String.eqb output_file EmptyString then []
                          else [(path_join OUT_DIR output_file, df)])%list
      | Raise e => w_files (snd run) = w_files w
      end
  end.
Proof.
  exact (analyze_transcripts_world g natsorted path_join pdf_pages to_excel
           file output_file w).
Qed.

(** X12.  Without an argument behind the name of the script, [main]
    leaves with the usage message and does nothing else.  With one or
    more, it runs the analysis once, on the first argument, for the
    output file of the second argument or, without one, for
    TranscriptSummary.xlsx; it prints the warning first when there are
    more than two, and it prints that all is done only when the analysis
    returned; it writes no spreadsheet when the analysis raised. *)
Theorem main_run g natsorted path_join pdf_pages to_excel argv w :
  let run := main g natsorted path_join pdf_pages to_excel argv w in
  match argv with
  | [] | [_] => run = (Exited usage, w)
  | _ :: input_file :: rest =>
      let output_file := hd "TranscriptSummary.xlsx" rest in
      let before := (w_stdout w ++ if Nat.leb 2 (List.length rest)
                                   then ["Warning: Using only first two arguments."]
                                   else [])%list in
      match fst (analyze_transcripts g natsorted path_join pdf_pages to_excel
                   input_file output_file
                   {| w_process := w_process w;
                      w_stdout := (before ++ ["Analyzing transcripts..."])%list;
                      w_files := w_files w |}) with
      | Ok df =>
          fst run = Returned /\
          w_stdout (snd run)
          = (before ++ ["Analyzing transcripts..."; "All done!"])%list /\
          w_files (snd run)
          = (w_files w ++ if String.eqb output_file EmptyString then []
                          else [(path_join OUT_DIR output_file, df)])%list
      | Raise e =>
          fst run = Failed e /\
          w_stdout (snd run) = (before ++ ["Analyzing transcripts..."])%list /\
          w_files (snd run) = w_files w
      end
  end.
Proof.
  cbv zeta. destruct argv as [|script [|input_file rest]]; [reflexivity..|].
  rewrite main_analysis.
  assert (Hw : (if Nat.leb 2 (List.length rest)
                then ["Warning: Using only first two arguments."] else [])
               = warned rest)
    by (destruct rest as [|? [|? ?]]; reflexivity).
  rewrite Hw.
  exact (analysis_world g natsorted path_join pdf_pages to_excel input_file
           (hd "TranscriptSummary.xlsx" rest)
           {| w_process := w_process w;
              w_stdout := (w_stdout w ++ warned rest)%list;
              w_files := w_files w |}).
Qed.

(** ** The values of the personal fields *)

(** Three address lines: the label and the first line, then two lines
    that begin with a space. *)
Definition address_text (a1 a2 a3 post : string) : string :=
  "Address : "
  ++ a1 ++ String nl (String space (a2 ++ String nl (String space (a3 ++ String nl post)))).

(** [a1], [a2] and [a3] are the lines of the first address of [seg]. *)
Definition first_address (seg a1 a2 a3 : string) : Prop :=
  exists pre post,
    seg = pre ++ address_text a1 a2 a3 post /\
    all_in dot a1 = true /\ all_in dot a2 = true /\ all_in dot a3 = true /\
    (forall u w, pre = u ++ w -> w <> EmptyString ->
                 starts_with "Address : " (w ++ "Address : ") = false).

Lemma match_here_address a1 a2 a3 post :
  all_in dot a1 = true -> all_in dot a2 = true -> all_in dot a3 = true ->
  match_here address_re (address_text a1 a2 a3 post) = Some ([a1; a2; a3], post).
Proof.
  intros H1 H2 H3. unfold match_here, address_re, any_line, address_text.
  cbn [seqs exec]. rewrite exec_lit. cbn [exec].
  apply star_greedy; [assumption | reflexivity|].
  rewrite consumed_append. unfold chr at 1. rewrite Ascii.eqb_refl.
  cbn [lit exec]. unfold chr at 1. rewrite Ascii.eqb_refl.
  apply star_greedy; [assumption | reflexivity|].
  rewrite consumed_append. unfold chr at 1. rewrite Ascii.eqb_refl.
  unfold chr at 1. rewrite Ascii.eqb_refl.
  apply star_greedy; [assumption | reflexivity|].
  rewrite consumed_append. unfold chr at 1. rewrite Ascii.eqb_refl.
  reflexivity.
Qed.

(** A pattern that begins with a literal matches only where the literal
    stands. *)
Lemma match_here_starts label r s gs rest :
  match_here (Seq (lit label) r) s = Some (gs, rest) -> starts_with label s = true.
Proof.
  intros Hm. apply match_here_sound in Hm as (t & -> & M).
  assert (Hx : exists x, t = label ++ x).
  { inversion M as [| |r1 r2 t1 t2 gs0 g1 g2 M1 M2| | | |]; subst.
    destruct (matches_lit _ _ _ _ M1) as [-> _]. eauto. }
  destruct Hx as [x ->]. rewrite append_assoc. apply starts_with_append.
Qed.

Lemma first_address_found seg a1 a2 a3 :
  first_address seg a1 a2 a3 ->
  exists rest, findalln address_re seg = [a1; a2; a3] :: rest.
Proof.
  intros (pre & post & -> & H1 & H2 & H3 & Hclear).
  unfold findalln, finditer. rewrite scan_pass.
  - pose proof (match_here_address a1 a2 a3 post H1 H2 H3) as Hm.
    rewrite (scan_match _ _ _ _ _ Hm).
    + simpl. eauto.
    + apply (match_here_nonempty _ _ _ _ (eq_refl : nullable address_re = false) Hm).
  - intros u w E Hw.
    destruct (match_here address_re (w ++ address_text a1 a2 a3 post))
      as [[gs rest]|] eqn:Hm; [exfalso | reflexivity].
    apply (match_here_starts "Address : ") in Hm.
    unfold address_text in Hm. rewrite <- append_assoc in Hm.
    apply starts_with_shorten in Hm; [|rewrite length_append; simpl; lia].
    rewrite (Hclear u w E Hw) in Hm. discriminate.
Qed.

(** X13.  [personal_info] returns, for each of the name, the student ID
    and the sex, what stands behind the label on the first line of the
    transcript that carries the label, up to the end of that line; and,
    when the transcript has an address, the rest of the line of its
    first address label and the two lines after it, each without the
    space it begins with.  The record has these six entries, in this
    order. *)
Theorem personal_info_values transcript name student_id sex :
  first_line "Name : " transcript name ->
  first_line "Student ID: " transcript student_id ->
  first_line "Sex : " transcript sex ->
  exists info,
    personal_info transcript = Ok info /\
    Dict.keys info = ["Name"; "Student_ID"; "Sex"; "Address1"; "Address2"; "Address3"] /\
    Dict.get info "Name" = Some (VStr name) /\
    Dict.get info "Student_ID" = Some (VStr student_id) /\
    Dict.get info "Sex" = Some (VStr sex) /\
    (forall a1 a2 a3,
        first_address transcript a1 a2 a3 ->
        Dict.get info "Address1" = Some (VStr a1) /\
        Dict.get info "Address2" = Some (VStr a2) /\
        Dict.get info "Address3" = Some (VStr a3)).
Proof.
  intros Hn Hi Hs. unfold personal_info. rewrite !py_index_zero.
  destruct (field_first _ _ _ Hn) as [r1 ->].
  destruct (field_first _ _ _ Hi) as [r2 ->].
  destruct (field_first _ _ _ Hs) as [r3 ->].
  cbn [rbind].
  destruct (findalln address_re transcript) as [|a rest] eqn:Ea.
  - eexists. split; [reflexivity|]. repeat split; try reflexivity;
      destruct (first_address_found _ _ _ _ H) as [rest Hr]; congruence.
  - eexists. split; [reflexivity|]. repeat split; try reflexivity;
      destruct (first_address_found _ _ _ _ H) as [rest' Hr];
      rewrite Hr in Ea; injection Ea as <- _; reflexivity.
Qed.

Definition sample_personal : string :=
  lines ["Unofficial Transcript";
         "Name : Bob Smith"; "Student ID: 100123"; "Sex : M";
         "Address : 1 Main Street"; " Brookville, NY"; " 11548";
         "Sex : n/a"].

Lemma personal_info_values_witness :
  exists info,
    personal_info sample_personal = Ok info /\
    Dict.keys info = ["Name"; "Student_ID"; "Sex"; "Address1"; "Address2"; "Address3"] /\
    Dict.get info "Name" = Some (VStr "Bob Smith") /\
    Dict.get info "Student_ID" = Some (VStr "100123") /\
    Dict.get info "Sex" = Some (VStr "M") /\
    (forall a1 a2 a3,
        first_address sample_personal a1 a2 a3 ->
        Dict.get info "Address1" = Some (VStr a1) /\
        Dict.get info "Address2" = Some (VStr a2) /\
        Dict.get info "Address3" = Some (VStr a3)).
Proof.
  apply (personal_info_values sample_personal "Bob Smith" "100123" "M").
  - exists ("Unofficial Transcript" ++ NL),
      (lines ["Student ID: 100123"; "Sex : M";
              "Address : 1 Main Street"; " Brookville, NY"; " 11548"; "Sex : n/a"]).
    split; [vm_compute; reflexivity|]. split; [reflexivity|].
    apply clear_b_spec. vm_compute. reflexivity.
  - exists (lines ["Unofficial Transcript"; "Name : Bob Smith"]),
      (lines ["Sex : M"; "Address : 1 Main Street"; " Brookville, NY"; " 11548";
              "Sex : n/a"]).
    split; [vm_compute; reflexivity|]. split; [reflexivity|].
    apply clear_b_spec. vm_compute. reflexivity.
  - exists (lines ["Unofficial Transcript"; "Name : Bob Smith"; "Student ID: 100123"]),
      (lines ["Address : 1 Main Street"; " Brookville, NY"; " 11548"; "Sex : n/a"]).
    split; [vm_compute; reflexivity|]. split; [reflexivity|].
    apply clear_b_spec. vm_compute. reflexivity.
Defined.

Example sample_personal_info :
  personal_info sample_personal
  = Ok [("Name", VStr "Bob Smith"); ("Student_ID", VStr "100123"); ("Sex", VStr "M");
        ("Address1", VStr "1 Main Street"); ("Address2", VStr "Brookville, NY");
        ("Address3", VStr "11548")]
  /\ first_address sample_personal "1 Main Street" "Brookville, NY" "11548".
Proof.
  split; [vm_compute; reflexivity|].
  exists (lines ["Unofficial Transcript"; "Name : Bob Smith"; "Student ID: 100123";
                 "Sex : M"]), ("Sex : n/a" ++ NL).
  split; [vm_compute; reflexivity|]. repeat split.
  apply clear_b_spec. vm_compute. reflexivity.
Qed.

(** ** A transcript without semester header *)

Lemma course_lines_no_semester transcript subj :
  no_match semester_re transcript -> course_lines transcript subj = [].
Proof.
  intros H. unfold course_lines, semesters, Re.split, finditer.
  now rewrite (scan_none semester_re eq_refl _ _ H).
Qed.

(** X14.  Course lines count only behind a semester header.  For a
    transcript no part of which matches the header pattern, a season and
    a year of this century, [grades_of_subj] returns the plan alone, or
    the empty mapping when the transcript has no plan line, and it
    leaves the credit table as it is, whatever course lines the
    transcript has. *)
Theorem grades_of_subj_no_semester transcript subj creds :
  no_match semester_re transcript ->
  grades_of_subj transcript subj creds
  = (Ok match findall1 (field_re "Plan : ") transcript with
        | plan :: _ => [("Plan", plan)]
        | [] => []
        end, creds).
Proof.
  intros H. rewrite grades_of_subj_lines, (course_lines_no_semester _ _ H).
  cbn [for_each]. unfold ret, plan_dict, Re.split, finditer.
  rewrite (scan_none semester_re eq_refl _ _ H). cbn [flat_map app last append].
  now destruct (findall1 _ _).
Qed.

Definition last_century : string :=
  lines ["Name : Ann Lee"; "Fall 1999";
         "MTH 9 Calculus II 4.00 4.00 A 16.000";
         "Plan : Physics BS"].

Lemma grades_of_subj_no_semester_witness :
  grades_of_subj last_century "MTH" []
  = (Ok match findall1 (field_re "Plan : ") last_century with
        | plan :: _ => [("Plan", plan)]
        | [] => []
        end, []).
Proof.
  apply (grades_of_subj_no_semester last_century "MTH" []).
  apply (scan_empty_no_match semester_re last_century EmptyString eq_refl).
  vm_compute. reflexivity.
Defined.

Example last_century_grades :
  grades_of_subj last_century "MTH" [] = (Ok [("Plan", "Physics BS")], []) /\
  findall (raw_grades_re "MTH") last_century
  = ["MTH 9 Calculus II 4.00 4.00 A 16.000" ++ NL].
Proof. split; vm_compute; reflexivity. Qed.

(** ** A run of the script *)

Definition sample_pages : list string :=
  [lines ["Unofficial   Transcript"; "Name :   Bob Smith"; "Student ID: 100123";
          "Sex : M"; "Fall 2018"; "MTH 9   Calculus II   4.00 4.00 A- 14.668"]
   ++ "Plan : Mathematics BS";
   lines ["Name : Ann Lee"; "Student ID: 100124"; "Sex : F"; "Spring 2019"]
   ++ "MTH 9 Calculus II 4.00 4.00 B 12.000"].

Definition sample_pdf (path : string) : result (list string) :=
  if String.eqb path "data/T.pdf" then Ok sample_pages
  else Raise (Exception "No such file").

Definition sample_join (a b : string) : string := a ++ "/" ++ b.

Definition empty_world : world :=
  {| w_process := fresh_process; w_stdout := []; w_files := [] |}.

Definition sample_main (argv : list string) : outcome * world :=
  main globals (fun l => l) sample_join sample_pdf (fun _ _ => Ok tt) argv empty_world.

Example sample_runs :
  sample_main ["transcript_runner.py"] = (Exited usage, empty_world) /\
  (let run := sample_main ["transcript_runner.py"; "T.pdf"] in
   fst run = Returned /\
   w_stdout (snd run) = ["Analyzing transcripts..."; "All done!"] /\
   map fst (w_files (snd run)) = ["data/TranscriptSummary.xlsx"] /\
   map (fun f => map (firstn 3) (df_rows (snd f))) (w_files (snd run))
   = [[[Some (VStr "Bob Smith"); Some (VStr "100123"); Some (VStr "Mathematics BS")];
       [Some (VStr "Ann Lee"); Some (VStr "100124"); None]]]) /\
  (let run := sample_main ["transcript_runner.py"; "T.pdf"; "Out.xlsx"; "more"] in
   fst run = Returned /\
   w_stdout (snd run) = ["Warning: Using only first two arguments.";
                         "Analyzing transcripts..."; "All done!"] /\
   map fst (w_files (snd run)) = ["data/Out.xlsx"]) /\
  (let run := sample_main ["transcript_runner.py"; "Missing.pdf"] in
   fst run = Failed (Exception "No such file") /\
   w_stdout (snd run) = ["Analyzing transcripts..."] /\
   w_files (snd run) = []).
Proof. repeat split; vm_compute; reflexivity. Qed.

(** ** The keys of the courses *)

(** Digits, closed by an optional uppercase letter. *)
Fixpoint digits_letter (s : string) : bool :=
  match s with
  | EmptyString => true
  | String c EmptyString => digit c || upper c
  | String c s' => digit c && digits_letter s'
  end.

(** A course number: one digit or more and an optional uppercase
    letter, or NE. *)
Definition course_number (num : string) : bool :=
  String.eqb num "NE"
  || match num with
     | String c rest => digit c && digits_letter rest
     | EmptyString => false
     end.

Lemma digits_letter_run ds opt :
  all_in digit ds = true ->
  opt = EmptyString \/ (exists u, upper u = true /\ opt = String u EmptyString) ->
  digits_letter (ds ++ opt) = true.
Proof.
  intros Hds Hopt. induction ds as [|c ds IH]; simpl in *.
  - destruct Hopt as [->|(u & Hu & ->)]; [reflexivity|].
    cbn [digits_letter]. rewrite Hu. apply orb_true_r.
  - apply andb_prop in Hds as [Hc Hds]. rewrite Hc. cbn [orb andb].
    rewrite (IH Hds). now destruct (ds ++ opt).
Qed.

Lemma course_num_nullable subj : nullable (course_num_re subj) = false.
Proof.
  unfold course_num_re. cbn [seqs nullable]. now rewrite !andb_false_r.
Qed.

Lemma matches_opt p t gs gs' :
  matches (Opt p) t gs gs' ->
  gs' = gs /\ (t = EmptyString \/ exists u, p u = true /\ t = String u EmptyString).
Proof.
  unfold Opt. intros M.
  inversion M as [| | |? ? ? ? ? Ma|? ? ? ? ? Me| |]; clear M; subst.
  - inversion Ma; subst. split; [reflexivity|]. right. eauto.
  - inversion Me; subst. auto.
Qed.

Lemma matches_plus p t gs gs' :
  matches (Plus p) t gs gs' ->
  gs' = gs /\ exists c ds, t = String c ds /\ p c = true /\ all_in p ds = true.
Proof.
  unfold Plus. intros M.
  inversion M as [| |? ? ? ? ? ? ? Md Ms| | | |]; clear M; subst.
  inversion Md; subst. inversion Ms; subst.
  split; [reflexivity|]. eexists. eexists. split; [reflexivity|]. auto.
Qed.

Lemma matches_number t gs gs' :
  matches (Alt (Seq (Plus digit) (Opt upper)) (lit "NE")) t gs gs' ->
  gs' = gs /\ course_number t = true.
Proof.
  intros M.
  inversion M as [| | |? ? ? ? ? Ml|? ? ? ? ? Mr| |]; clear M; subst.
  - inversion Ml as [| |? ? ? ? ? ? ? Mp Mo| | | |]; clear Ml; subst.
    apply matches_plus in Mp as (-> & c & ds & -> & Hc & Hds).
    apply matches_opt in Mo as (-> & Ho).
    split; [reflexivity|].
    unfold course_number. cbn [append]. rewrite Hc. cbn [andb].
    rewrite (digits_letter_run ds _ Hds Ho). apply orb_true_r.
  - apply (matches_lit "NE") in Mr as [-> ->]. auto.
Qed.

Lemma matches_course_num subj t gs :
  matches (course_num_re subj) t [] gs ->
  exists num, gs = [num] /\ course_number num = true.
Proof.
  intros M. unfold course_num_re in M. cbn [seqs] in M.
  inversion M as [| |? ? ? ? ? ga ? M1 M2| | | |]; clear M; subst.
  apply matches_lit in M1 as [_ ->].
  inversion M2 as [| |? ? ? ? ? gb ? M3 M4| | | |]; clear M2; subst.
  apply (matches_lit " ") in M3 as [_ ->].
  inversion M4 as [| |? ? ? ? ? gc ? M5 M6| | | |]; clear M4; subst.
  apply (matches_lit " ") in M6 as [_ ->].
  inversion M5 as [| | | | | |? ? ? ? M7]; clear M5; subst.
  apply matches_number in M7 as [-> Hnum].
  eexists. split; [reflexivity | exact Hnum].
Qed.

Lemma line_course_number subj line course :
  line_course subj line = Some course ->
  exists num, course = subj ++ " " ++ num /\ course_number num = true.
Proof.
  unfold line_course, findall1, finditer.
  destruct (fst (scan (course_num_re subj) line 0 EmptyString)) as [|m ms] eqn:E;
    [discriminate|].
  intros H. cbn [map] in H. injection H as <-.
  assert (Hin : In m (fst (scan (course_num_re subj) line 0 EmptyString)))
    by (rewrite E; now left).
  destruct (scan_in _ (course_num_nullable subj) _ _ _ Hin) as (M & _).
  destruct (matches_course_num _ _ _ M) as (num & -> & Hnum).
  exists num. auto.
Qed.

(** A key made of a subject among [subjects], a space and a course
    number. *)
Definition course_key (subjects : list string) (k : string) : Prop :=
  exists subj num,
    In subj subjects /\ k = subj ++ " " ++ num /\ course_number num = true.

(** The table is given course keys of the subjects, and nothing else. *)
Definition adds_courses (subjects : list string) (c c' : dict float) : Prop :=
  forall k, In k (Dict.keys c') -> In k (Dict.keys c) \/ course_key subjects k.

Lemma adds_courses_refl subjects c : adds_courses subjects c c.
Proof. intros k Hk. now left. Qed.

Lemma adds_courses_trans subjects a b c :
  adds_courses subjects a b -> adds_courses subjects b c -> adds_courses subjects a c.
Proof.
  intros H1 H2 k Hk. destruct (H2 k Hk) as [Hb|Hb]; [auto | now right].
Qed.

Lemma adds_courses_incl s1 s2 c c' :
  incl s1 s2 -> adds_courses s1 c c' -> adds_courses s2 c c'.
Proof.
  intros Hs H k Hk. destruct (H k Hk) as [Hc|(subj & num & Hin & E & Hn)];
    [now left|].
  right. exists subj, num. auto.
Qed.

Lemma grade_line_adds subj semester line gd :
  respects (adds_courses [subj]) (grade_line subj semester line gd).
Proof.
  intros c r c' H.
  unfold grade_line, bind, lift, read_creds, ret, set_cred in H.
  rewrite !py_index_zero in H.
  destruct (findall1 (course_num_re subj) line) as [|num nums] eqn:En.
  { injection H as _ <-. apply adds_courses_refl. }
  destruct (Dict.mem c _) eqn:Hmem.
  { injection H as _ <-. apply adds_courses_refl. }
  destruct (findall credit_re line) as [|tok toks].
  { injection H as _ <-. apply adds_courses_refl. }
  destruct (py_float tok) as [v|e]; injection H as _ <-;
    [|apply adds_courses_refl].
  intros k Hk. apply in_keys_set in Hk as [->|Hk]; [right | now left].
  destruct (line_course_number subj line (subj ++ " " ++ num)) as (n & E & Hn).
  { unfold line_course. now rewrite En. }
  exists subj, n. split; [now left | auto].
Qed.

Lemma grades_of_subj_adds transcript subj :
  respects (adds_courses [subj]) (grades_of_subj transcript subj).
Proof.
  intros c r c' H. rewrite grades_of_subj_lines in H. revert H.
  apply (respects_for_each (adds_courses [subj]) (adds_courses_refl [subj])
           (adds_courses_trans [subj])).
  intros sl acc _. apply grade_line_adds.
Qed.

Lemma record_transcript_adds g transcript records :
  respects (adds_courses (SUBJECTS g)) (record_transcript g transcript records).
Proof.
  pose proof (adds_courses_refl (SUBJECTS g)) as Hr.
  pose proof (adds_courses_trans (SUBJECTS g)) as Ht.
  unfold record_transcript.
  apply (respects_bind _ Ht); [apply (respects_lift _ Hr) | intros d].
  apply (respects_bind _ Ht); [|intros; apply (respects_ret _ Hr)].
  apply (respects_for_each _ Hr Ht).
  intros subj acc Hin. unfold record_subject.
  apply (respects_bind _ Ht).
  { intros c r c' H. apply (adds_courses_incl [subj]).
    - intros s [<-|[]]. exact Hin.
    - eapply grades_of_subj_adds; eauto. }
  intros sg.
  apply (respects_bind _ Ht); [apply (respects_read _ Hr) | intros creds].
  apply (respects_bind _ Ht); [apply (respects_lift _ Hr) | intros summ].
  apply (respects_ret _ Hr).
Qed.

Lemma line_loop_course_keys subj : forall ls gd c gd' c',
    for_each ls (fun sl => grade_line subj (fst sl) (snd sl)) gd c = (Ok gd', c') ->
    forall k, In k (Dict.keys gd') -> In k (Dict.keys gd) \/ course_key [subj] k.
Proof.
  induction ls as [|sl ls IH]; intros gd c gd' c' H k Hin; simpl in H.
  - injection H as <- _. now left.
  - unfold bind in H.
    destruct (grade_line subj (fst sl) (snd sl) gd c) as [[gd1|e] c1] eqn:E;
      [|discriminate].
    destruct (grade_line_ok _ _ _ _ _ _ _ E) as (crs & Hc & ->).
    destruct (IH _ _ _ _ H k Hin) as [Hk|Hk]; [|now right].
    apply in_keys_set in Hk as [->|Hk]; [right | now left].
    destruct (line_course_number _ _ _ Hc) as (n & -> & Hn).
    exists subj, n. split; [now left | auto].
Qed.

(** X15.  The keys [grades_of_subj] files the courses of a student
    under, and the keys it adds to the credit table, are the subject, a
    space and a course number: digits with an optional uppercase letter,
    or NE; the mapping of the student has no other key than these and
    the plan.  [transcript_data] adds to the credit table, and so to the
    course columns of its table, course keys of the subjects of
    [SUBJECTS] alone, whether it returns or raises. *)
Theorem course_keys g natsorted :
  (forall transcript subj creds grades creds',
      grades_of_subj transcript subj creds = (Ok grades, creds') ->
      forall k, In k (Dict.keys grades) -> k = "Plan" \/ course_key [subj] k) /\
  (forall transcript subj creds r creds',
      grades_of_subj transcript subj creds = (r, creds') ->
      forall k, In k (Dict.keys creds') ->
                In k (Dict.keys creds) \/ course_key [subj] k) /\
  (forall transcripts creds r creds',
      transcript_data g natsorted transcripts creds = (r, creds') ->
      forall k, In k (Dict.keys creds') ->
                In k (Dict.keys creds) \/ course_key (SUBJECTS g) k).
Proof.
  split; [|split].
  - intros transcript subj creds grades creds' H k Hin.
    rewrite grades_of_subj_lines in H.
    destruct (line_loop_course_keys _ _ _ _ _ _ H k Hin) as [Hk|Hk]; [left | now right].
    unfold plan_dict in Hk. destruct (findall1 _ _); simpl in Hk; [contradiction|].
    now destruct Hk as [<-|[]].
  - intros transcript subj creds r creds' H.
    exact (grades_of_subj_adds transcript subj creds r creds' H).
  - intros transcripts creds r creds' H.
    assert (Hs : creds' = snd (for_each transcripts (record_transcript g) [] creds)).
    { rewrite <- transcript_data_table with (natsorted := natsorted). now rewrite H. }
    destruct (for_each transcripts (record_transcript g) [] creds) as [r1 c1] eqn:E.
    cbn [snd] in Hs. subst c1. revert E.
    apply (respects_for_each (adds_courses (SUBJECTS g))
             (adds_courses_refl _) (adds_courses_trans _)).
    intros t acc _. apply record_transcript_adds.
Qed.

Example course_number_examples :
  map course_number ["9"; "22"; "101A"; "NE"; ""; "A"; "9AB"; "9a"; "N"]
  = [true; true; true; true; false; false; false; false; false].
Proof. reflexivity. Qed.

(** ** The grades in the rows *)

(** The mapping of a student for a subject, as the lines of the
    transcript give it: each course line files its grade under its
    course, over what an earlier line filed there. *)
Definition student_grades (transcript subj : string) : dict string :=
  fold_left (fun gd sl =>
               match line_course subj (snd sl) with
               | Some course => Dict.set gd course (line_grade (fst sl) (snd sl))
               | None => gd
               end)
            (course_lines transcript subj) (plan_dict transcript).

Lemma line_loop_fold subj : forall ls gd c gd' c',
    for_each ls (fun sl => grade_line subj (fst sl) (snd sl)) gd c = (Ok gd', c') ->
    gd' = fold_left (fun gd sl =>
                       match line_course subj (snd sl) with
                       | Some course => Dict.set gd course (line_grade (fst sl) (snd sl))
                       | None => gd
                       end) ls gd.
Proof.
  induction ls as [|sl ls IH]; intros gd c gd' c' H; simpl in H.
  - now injection H as <- _.
  - unfold bind in H.
    destruct (grade_line subj (fst sl) (snd sl) gd c) as [[gd1|e] c1] eqn:E;
      [|discriminate].
    destruct (grade_line_ok _ _ _ _ _ _ _ E) as (crs & Hc & ->).
    cbn [fold_left]. rewrite Hc. exact (IH _ _ _ _ H).
Qed.

Lemma grades_of_subj_student transcript subj c grades c' :
  grades_of_subj transcript subj c = (Ok grades, c') ->
  grades = student_grades transcript subj.
Proof. rewrite grades_of_subj_lines. apply line_loop_fold. Qed.

Lemma digit_no_space c : digit c = true -> Ascii.eqb c space = false.
Proof.
  destruct c as [[] [] [] [] [] [] [] []]; intros H; vm_compute in H;
    try discriminate H; reflexivity.
Qed.

Lemma upper_no_space c : upper c = true -> Ascii.eqb c space = false.
Proof.
  destruct c as [[] [] [] [] [] [] [] []]; intros H; vm_compute in H;
    try discriminate H; reflexivity.
Qed.

Lemma digits_letter_no_space s : digits_letter s = true -> has_space s = false.
Proof.
  induction s as [|c s IH]; [reflexivity|].
  cbn [digits_letter has_space]. destruct s as [|c' s'].
  - intros H. apply orb_prop in H as [H|H];
      [rewrite (digit_no_space _ H) | rewrite (upper_no_space _ H)]; reflexivity.
  - intros H. apply andb_prop in H as [Hc Hs].
    rewrite (digit_no_space _ Hc). exact (IH Hs).
Qed.

Lemma course_number_no_space num : course_number num = true -> has_space num = false.
Proof.
  unfold course_number. intros H. apply orb_prop in H as [H|H].
  - apply String.eqb_eq in H. now subst num.
  - destruct num as [|c rest]; [discriminate|].
    apply andb_prop in H as [Hc Hr]. cbn [has_space].
    now rewrite (digit_no_space _ Hc), (digits_letter_no_space _ Hr).
Qed.

(** A key is cut in one way into a text, a space and a word without
    space. *)
Lemma last_space_unique : forall a a' n n',
    has_space n = false -> has_space n' = false ->
    a ++ " " ++ n = a' ++ " " ++ n' -> a = a' /\ n = n'.
Proof.
  induction a as [|c a IH]; intros a' n n' Hn Hn' E; destruct a' as [|c' a'];
    simpl in E.
  - injection E as ->. auto.
  - injection E as _ E. exfalso. subst n.
    rewrite has_space_append in Hn. simpl in Hn.
    rewrite orb_true_r in Hn. discriminate.
  - injection E as _ E. exfalso. subst n'.
    rewrite has_space_append in Hn'. simpl in Hn'.
    rewrite orb_true_r in Hn'. discriminate.
  - injection E as -> E. destruct (IH _ _ _ Hn Hn' E) as [-> ->]. auto.
Qed.

Lemma course_key_subject subj subj' num k :
  course_number num = true -> course_key [subj'] k -> k = subj ++ " " ++ num ->
  subj' = subj.
Proof.
  intros Hnum (s & n & [<-|[]] & -> & Hn) E.
  apply last_space_unique in E as [E _]; auto using course_number_no_space.
Qed.

Lemma summary_not_course g subj' grades creds summary subj num :
  subj_summary g subj' grades creds = Ok summary ->
  course_number num = true ->
  ~ In (subj ++ " " ++ num) (Dict.keys summary).
Proof.
  unfold subj_summary. intros H Hnum Hin.
  destruct (rfilter _ _) as [courses|]; [|discriminate]. cbn [rbind] in H.
  destruct (rmap (py_getitem creds) courses) as [cs|]; [|discriminate].
  cbn [rbind] in H.
  match type of H with
  | context [rmap ?f courses] => destruct (rmap f courses) as [ws|]
  end; [|discriminate]. cbn [rbind] in H.
  destruct (rfilter _ _) as [now|]; [|discriminate]. cbn [rbind] in H.
  injection H as <-.
  match type of Hin with
  | In _ (Dict.keys (dict_of [(_, ?a); (_, ?b); (_, ?c); (_, ?d)])) =>
      pose proof (summary_keys subj' a b c d) as Hk
  end.
  assert (Hin' : In (subj ++ " " ++ num)
                    ["Num " ++ subj' ++ "^ courses"; "Num " ++ subj' ++ "^ creds";
                     subj' ++ "^ GPA"; "Num " ++ subj' ++ "^ now"])
    by (rewrite <- Hk; exact Hin).
  pose proof (course_number_no_space _ Hnum) as Hsp.
  assert (Hword : forall a w, has_space w = false -> course_number w = false ->
                              a ++ " " ++ w <> subj ++ " " ++ num).
  { intros a w Hw Hc E. apply last_space_unique in E as [_ ->]; auto. congruence. }
  destruct Hin' as [E|[E|[E|[E|[]]]]].
  - apply (Hword ("Num " ++ subj' ++ "^") "courses"); [reflexivity..|].
    rewrite <- E. now rewrite !append_assoc.
  - apply (Hword ("Num " ++ subj' ++ "^") "creds"); [reflexivity..|].
    rewrite <- E. now rewrite !append_assoc.
  - apply (Hword (subj' ++ "^") "GPA"); [reflexivity..|].
    rewrite <- E. now rewrite !append_assoc.
  - apply (Hword ("Num " ++ subj' ++ "^") "now"); [reflexivity..|].
    rewrite <- E. now rewrite !append_assoc.
Qed.

(** What one subject does to the entry of a course in the record of a
    student. *)
Lemma record_subject_course g transcript subj' d c d' c' subj num :
  record_subject g transcript subj' d c = (Ok d', c') ->
  course_number num = true ->
  Dict.get d' (subj ++ " " ++ num)
  = match (if String.eqb subj' subj
           then Dict.get (student_grades transcript subj) (subj ++ " " ++ num)
           else None) with
    | Some grade => Some (VStr grade)
    | None => Dict.get d (subj ++ " " ++ num)
    end.
Proof.
  unfold record_subject, bind, read_creds, lift, ret. intros H Hnum.
  destruct (grades_of_subj transcript subj' c) as [[grades|] c1] eqn:E; [|discriminate].
  destruct (subj_summary g subj' grades c1) as [summary|] eqn:Es; [|discriminate].
  injection H as <- _.
  rewrite get_update_other by (eapply summary_not_course; eauto).
  rewrite get_update
    by (rewrite map_values_keys; eapply grades_of_subj_nodup; eauto).
  rewrite map_values_get.
  destruct (String.eqb_spec subj' subj) as [->|Hne].
  - rewrite (grades_of_subj_student _ _ _ _ _ E).
    now destruct (Dict.get (student_grades transcript subj) _).
  - rewrite not_in_keys_get; [reflexivity|].
    intros Hin. apply Hne.
    assert (Hk : course_key [subj'] (subj ++ " " ++ num)).
    { rewrite grades_of_subj_lines in E.
      destruct (line_loop_course_keys _ _ _ _ _ _ E _ Hin) as [Hp|Hc]; [|exact Hc].
      exfalso. unfold plan_dict in Hp.
      destruct (findall1 _ _); simpl in Hp; [contradiction|].
      destruct Hp as [Hp|[]]. symmetry in Hp. revert Hp. apply course_key_not_plan. }
    eapply course_key_subject; eauto.
Qed.

Lemma subject_loop_course g transcript subj num :
  course_number num = true ->
  forall subjects d c d' c',
    for_each subjects (record_subject g transcript) d c = (Ok d', c') ->
    Dict.get d' (subj ++ " " ++ num)
    = match (if in_set subj subjects
             then Dict.get (student_grades transcript subj) (subj ++ " " ++ num)
             else None) with
      | Some grade => Some (VStr grade)
      | None => Dict.get d (subj ++ " " ++ num)
      end.
Proof.
  intros Hnum. induction subjects as [|s subjects IH]; intros d c d' c' H; simpl in H.
  - now injection H as <- _.
  - unfold bind in H.
    destruct (record_subject g transcript s d c) as [[d1|] c1] eqn:E; [|discriminate].
    rewrite (IH _ _ _ _ H), (record_subject_course _ _ _ _ _ _ _ subj num E Hnum).
    unfold in_set. cbn [existsb]. fold (in_set subj subjects).
    rewrite (String.eqb_sym subj s).
    destruct (String.eqb s subj), (in_set subj subjects); cbn [orb]; try reflexivity.
    now destruct (Dict.get (student_grades transcript subj) _).
Qed.

Lemma personal_info_spaceless transcript info k :
  personal_info transcript = Ok info -> has_space k = true -> Dict.get info k = None.
Proof.
  intros H Hk. apply not_in_keys_get. intros Hin.
  unfold personal_info in H.
  destruct (py_index _ 0) as [name|]; [|discriminate]. cbn [rbind] in H.
  destruct (py_index _ 0) as [sid|]; [|discriminate]. cbn [rbind] in H.
  destruct (py_index _ 0) as [sex|]; [|discriminate]. cbn [rbind] in H.
  destruct (findalln address_re transcript); injection H as <-;
    simpl in Hin; intuition (subst; discriminate).
Qed.

(** The cell of a row under the first column of a name. *)
Fixpoint cell (columns : list string) (row : list (option value)) (k : string)
  : option value :=
  match columns, row with
  | c :: columns', v :: row' => if String.eqb c k then v else cell columns' row' k
  | _, _ => None
  end.

Lemma cell_get (r : dict value) k : forall columns,
    In k columns -> cell columns (map (Dict.get r) columns) k = Dict.get r k.
Proof.
  induction columns as [|c columns IH]; intros Hin; [contradiction|].
  cbn [map cell]. destruct (String.eqb_spec c k) as [->|Hne]; [reflexivity|].
  destruct Hin as [E|Hin]; [congruence | auto].
Qed.

(** The record of a student carries the grades of the student. *)
Definition grades_row (g : config) (transcript : string) (data_dict : dict value)
  : Prop :=
  forall subj num,
    In subj (SUBJECTS g) -> course_number num = true ->
    Dict.get data_dict (subj ++ " " ++ num)
    = option_map VStr (Dict.get (student_grades transcript subj) (subj ++ " " ++ num)).

Lemma in_set_In x s : In x s -> in_set x s = true.
Proof.
  intros H. unfold in_set. apply existsb_exists. exists x.
  split; [assumption | apply String.eqb_refl].
Qed.

Lemma record_transcript_grades g transcript records records' c c' :
  record_transcript g transcript records c = (Ok records', c') ->
  exists data_dict,
    records' = (records ++ [data_dict])%list /\ grades_row g transcript data_dict.
Proof.
  unfold record_transcript, bind, lift, ret. intros H.
  destruct (personal_info transcript) as [info|] eqn:Ei; [|discriminate].
  destruct (for_each _ _ info c) as [[d|] c1] eqn:E; [|discriminate].
  injection H as <- _. exists d. split; [reflexivity|].
  intros subj num Hs Hnum.
  rewrite (subject_loop_course g transcript subj num Hnum _ _ _ _ _ E).
  rewrite (in_set_In _ _ Hs).
  rewrite (personal_info_spaceless _ _ _ Ei) by apply course_key_space.
  now destruct (Dict.get (student_grades transcript subj) _).
Qed.

Lemma records_grades g : forall transcripts records records' c c',
    for_each transcripts (record_transcript g) records c = (Ok records', c') ->
    exists new,
      records' = (records ++ new)%list /\ Forall2 (grades_row g) transcripts new.
Proof.
  induction transcripts as [|t ts IH]; intros records records' c c' H; simpl in H.
  - injection H as <- _. exists []. split; [now rewrite app_nil_r | constructor].
  - unfold bind in H.
    destruct (record_transcript g t records c) as [[r1|] c1] eqn:E; [|discriminate].
    destruct (record_transcript_grades _ _ _ _ _ _ E) as (d & -> & Hd).
    destruct (IH _ _ _ _ H) as (new & -> & Hnew).
    exists (d :: new). split; [now rewrite <- app_assoc|].
    now constructor.
Qed.

(** X16.  In the table of [transcript_data], the cell of a student
    under the column of a course of a subject of [SUBJECTS] is the entry
    of that course in the mapping [grades_of_subj] returns for the
    transcript of the student and the subject, the grade or the
    placeholder that the last line of the course filed there, and it is
    empty when the mapping has no such entry: no other subject and no
    summary entry writes under a course key. *)
Theorem transcript_data_grades g natsorted transcripts creds df creds' :
  transcript_data g natsorted transcripts creds = (Ok df, creds') ->
  Forall2 (fun transcript row =>
             forall subj num,
               In subj (SUBJECTS g) -> course_number num = true ->
               In (subj ++ " " ++ num) (df_columns df) ->
               cell (df_columns df) row (subj ++ " " ++ num)
               = option_map VStr (Dict.get (student_grades transcript subj)
                                           (subj ++ " " ++ num)))
          transcripts (df_rows df) /\
  (forall transcript subj table grades table',
      grades_of_subj transcript subj table = (Ok grades, table') ->
      grades = student_grades transcript subj).
Proof.
  intros H. split; [|apply grades_of_subj_student]. revert H.
  unfold transcript_data, bind, read_creds, ret. intros H.
  destruct (for_each transcripts (record_transcript g) [] creds)
    as [[records|] c1] eqn:E; [|discriminate].
  injection H as <- _. unfold make_frame. cbn [df_rows df_columns].
  match goal with
  | |- context [map (fun r => map (Dict.get r) ?cols) _] => generalize cols
  end.
  intros columns.
  destruct (records_grades _ _ _ _ _ _ E) as (new & -> & Hnew).
  cbn [app]. clear E. induction Hnew as [|t d ts ds Hd _ IH]; [constructor|].
  cbn [map]. constructor; [|exact IH].
  intros subj num Hs Hnum Hin. rewrite cell_get by exact Hin. now apply Hd.
Qed.

Lemma transcript_data_grades_witness :
  Forall2 (fun transcript row =>
             forall subj num,
               In subj (SUBJECTS globals) -> course_number num = true ->
               In (subj ++ " " ++ num) (df_columns sample_frame) ->
               cell (df_columns sample_frame) row (subj ++ " " ++ num)
               = option_map VStr (Dict.get (student_grades transcript subj)
                                           (subj ++ " " ++ num)))
          [sample_transcript] (df_rows sample_frame) /\
  (forall transcript subj table grades table',
      grades_of_subj transcript subj table = (Ok grades, table') ->
      grades = student_grades transcript subj).
Proof.
  apply (transcript_data_grades globals (fun l => l) [sample_transcript] []
           sample_frame [("MTH 9", 4%float); ("MTH 22", 3%float); ("PHY 3", 4%float)]).
  vm_compute. reflexivity.
Defined.

Example sample_frame_grades :
  df_columns sample_frame
  = ["Name"; "Student_ID"; "Plan"; "Sex"; "Address1"; "Address2"; "Address3";
     "Num MTH^ courses"; "MTH^ GPA"; "Num MTH^ now";
     "Num PHY^ courses"; "PHY^ GPA"; "Num PHY^ now";
     "MTH 9"; "MTH 22"; "PHY 3"] /\
  map (fun row => map (cell (df_columns sample_frame) row) ["MTH 9"; "MTH 22"; "PHY 3"])
      (df_rows sample_frame)
  = [[Some (VStr "B+"); Some (VStr "F18"); Some (VStr "B")]] /\
  student_grades sample_transcript "MTH"
  = [("Plan", "Mathematics BS"); ("MTH 9", "B+"); ("MTH 22", "F18")].
Proof. repeat split; vm_compute; reflexivity. Qed.

(** ** The columns of the courses *)

Lemma covered_extends gd c c' : covered gd c -> extends c c' -> covered gd c'.
Proof. intros Hc He k Hk Hin. eapply extends_mem; eauto. Qed.

Lemma record_subject_extends g transcript subj d :
  respects extends (record_subject g transcript subj d).
Proof.
  unfold record_subject.
  apply (respects_bind extends extends_trans); [apply grades_of_subj_extends|].
  intros sg.
  apply (respects_bind extends extends_trans);
    [apply (respects_read extends extends_refl) | intros creds].
  apply (respects_bind extends extends_trans);
    [apply (respects_lift extends extends_refl) | intros summ].
  apply (respects_ret extends extends_refl).
Qed.

Lemma subject_loop_covered g transcript : forall subjects d c d' c',
    for_each subjects (record_subject g transcript) d c = (Ok d', c') ->
    forall subj, In subj subjects -> covered (student_grades transcript subj) c'.
Proof.
  induction subjects as [|s subjects IH]; intros d c d' c' H subj Hin;
    [contradiction|].
  simpl in H. unfold bind in H.
  destruct (record_subject g transcript s d c) as [[d1|] c1] eqn:E; [|discriminate].
  destruct Hin as [->|Hin]; [|exact (IH _ _ _ _ H subj Hin)].
  apply (covered_extends _ c1).
  - unfold record_subject, bind, read_creds, lift, ret in E.
    destruct (grades_of_subj transcript subj c) as [[grades|] c2] eqn:Eg;
      [|discriminate].
    destruct (subj_summary g subj grades c2); [|discriminate].
    injection E as _ <-.
    rewrite <- (grades_of_subj_student _ _ _ _ _ Eg).
    eapply grades_of_subj_covered; eauto.
  - revert H. apply (respects_for_each extends extends_refl extends_trans).
    intros. apply record_subject_extends.
Qed.

Lemma records_covered g : forall transcripts records records' c c',
    for_each transcripts (record_transcript g) records c = (Ok records', c') ->
    forall transcript subj,
      In transcript transcripts -> In subj (SUBJECTS g) ->
      covered (student_grades transcript subj) c'.
Proof.
  induction transcripts as [|t ts IH]; intros records records' c c' H transcript subj Ht Hs;
    [contradiction|].
  simpl in H. unfold bind in H.
  destruct (record_transcript g t records c) as [[r1|] c1] eqn:E; [|discriminate].
  destruct Ht as [->|Ht]; [|exact (IH _ _ _ _ H transcript subj Ht Hs)].
  apply (covered_extends _ c1).
  - unfold record_transcript, bind, lift, ret in E.
    destruct (personal_info transcript); [|discriminate].
    destruct (for_each (SUBJECTS g) _ _ c) as [[d|] c2] eqn:El; [|discriminate].
    injection E as _ <-. exact (subject_loop_covered _ _ _ _ _ _ _ El subj Hs).
  - revert H. apply (respects_for_each extends extends_refl extends_trans).
    intros. apply record_transcript_extends.
Qed.

(** X17.  When [natsorted] keeps the keys it is given, the table of
    [transcript_data] has a column for every course in the mapping of
    every student and every subject of [SUBJECTS]; and the credit table
    it leaves has a credit for each of them. *)
Theorem transcript_data_course_columns g natsorted transcripts creds df creds' :
  (forall keys k, In k keys -> In k (natsorted keys)) ->
  transcript_data g natsorted transcripts creds = (Ok df, creds') ->
  forall transcript subj course,
    In transcript transcripts -> In subj (SUBJECTS g) ->
    In course (Dict.keys (student_grades transcript subj)) -> course <> "Plan" ->
    In course (df_columns df) /\ Dict.mem creds' course = true.
Proof.
  intros Hsort H transcript subj course Ht Hs Hin Hplan.
  unfold transcript_data, bind, read_creds, ret in H.
  destruct (for_each transcripts (record_transcript g) [] creds)
    as [[records|] c1] eqn:E; [|discriminate].
  injection H as <- <-. unfold make_frame. cbn [df_columns app In].
  pose proof (records_covered _ _ _ _ _ _ E transcript subj Ht Hs course Hplan Hin)
    as Hmem.
  split; [|exact Hmem].
  do 7 right. apply in_or_app. right. apply Hsort. unfold Dict.mem in Hmem.
  destruct (Dict.get c1 course) eqn:Eg; [|discriminate].
  eapply get_in_keys; eauto.
Qed.

Lemma transcript_data_course_columns_witness :
  In "MTH 22" (df_columns sample_frame)
  /\ Dict.mem [("MTH 9", 4%float); ("MTH 22", 3%float); ("PHY 3", 4%float)] "MTH 22"
     = true.
Proof.
  apply (transcript_data_course_columns globals (fun l => l) [sample_transcript] []
           sample_frame [("MTH 9", 4%float); ("MTH 22", 3%float); ("PHY 3", 4%float)])
    with (transcript := sample_transcript) (subj := "MTH").
  - intros keys k H. exact H.
  - vm_compute. reflexivity.
  - now left.
  - now left.
  - vm_compute. tauto.
  - discriminate.
Defined.

(** ** The names beside the transcripts *)

Lemma occurrences_suffix_le d u s : occurrences d s <= occurrences d (u ++ s).
Proof.
  induction u as [|c u IH]; simpl; [lia|].
  destruct (starts_with d (String c (u ++ s))); lia.
Qed.

Lemma scan_field_count d : forall s pre,
    List.length (fst (scan (field_re d) s 0 pre)) <= occurrences d s.
Proof.
  intros s pre. pattern s, pre, (scan (field_re d) s 0 pre).
  apply (scan_ind (field_re d) (field_re_nullable d)); clear s pre.
  - intros pre _. simpl. lia.
  - intros s pre gs rest Hm IH. cbn [fst List.length].
    pose proof (match_here_starts d any_line s gs rest Hm) as Hs.
    destruct (match_here_nonempty _ _ _ _ (field_re_nullable d) Hm) as [_ Hlen].
    destruct (match_here_sound _ _ _ _ Hm) as (t & Ht & _).
    destruct s as [|c s']; [simpl in Hlen; lia|].
    cbn [occurrences]. rewrite Hs.
    destruct t as [|c' t']; simpl in Ht.
    + subst rest. simpl in Hlen. lia.
    + injection Ht as _ ->. pose proof (occurrences_suffix_le d t' rest). lia.
  - intros c s pre _ IH. cbn [occurrences].
    destruct (starts_with d (String c s)); lia.
Qed.

Lemma matches_field d t gs :
  matches (field_re d) t [] gs ->
  exists x, t = d ++ x ++ String nl EmptyString /\ gs = [x] /\ all_in dot x = true.
Proof.
  unfold field_re, any_line. intros M.
  inversion M as [| |? ? ? ? ? ? ? M1 M2| | | |]; clear M; subst.
  apply matches_lit in M1 as [-> ->].
  inversion M2 as [| |? ? ? ? ? ? ? M3 M4| | | |]; clear M2; subst.
  inversion M4; subst.
  match goal with H : chr nl _ = true |- _ => apply Ascii.eqb_eq in H; subst end.
  inversion M3 as [| | | | | |? ? ? ? M5]; clear M3; subst.
  inversion M5; subst.
  eexists. split; [reflexivity|]. split; [reflexivity | assumption].
Qed.

(** The first line that carries the label gives the first match, and the
    scan goes on behind that line. *)
Lemma field_scan_first label pre v post :
  all_in dot v = true ->
  (forall u w, pre = u ++ w -> w <> EmptyString ->
               starts_with label (w ++ label) = false) ->
  findall1 (field_re label) (pre ++ label ++ v ++ String nl post)
  = v :: findall1 (field_re label) post.
Proof.
  intros Hv Hclear. unfold findall1, finditer. rewrite scan_pass.
  - pose proof (match_here_field label v post Hv) as Hm.
    rewrite (scan_match _ _ _ _ _ Hm).
    + reflexivity.
    + apply (match_here_nonempty _ _ _ _ (field_re_nullable label) Hm).
  - intros u w E Hw.
    destruct (match_here (field_re label) (w ++ label ++ v ++ String nl post))
      as [[gs rest]|] eqn:Hm; [exfalso | reflexivity].
    apply (match_here_starts label) in Hm.
    rewrite <- append_assoc in Hm.
    apply starts_with_shorten in Hm; [|rewrite length_append; lia].
    rewrite (Hclear u w E Hw) in Hm. discriminate.
Qed.

(** Without a line that carries the label there is no match. *)
Lemma field_scan_none label t :
  ~ has_line label t -> findall1 (field_re label) t = [].
Proof.
  intros Hno. unfold findall1, finditer.
  destruct (fst (scan (field_re label) t 0 EmptyString)) as [|m ms] eqn:E;
    [reflexivity|].
  exfalso. apply Hno.
  assert (Hin : In m (fst (scan (field_re label) t 0 EmptyString)))
    by (rewrite E; now left).
  destruct (scan_in _ (field_re_nullable label) _ _ _ Hin) as (M & u & v & Ht).
  destruct (matches_field _ _ _ M) as (x & Hx & _ & Hdot).
  exists u, x, v. split; [|exact Hdot].
  rewrite Ht at 1. rewrite Hx. now rewrite !append_assoc.
Qed.

(** The number of line feeds of a text. *)
Fixpoint line_feeds (s : string) : nat :=
  match s with
  | EmptyString => 0
  | String c s' => (if Ascii.eqb c nl then 1 else 0) + line_feeds s'
  end.

Lemma line_feeds_append a b : line_feeds (a ++ b) = line_feeds a + line_feeds b.
Proof. induction a as [|c a IH]; simpl; [reflexivity | rewrite IH; lia]. Qed.

Lemma line_feeds_dot s : all_in dot s = true -> line_feeds s = 0.
Proof.
  induction s as [|c s IH]; simpl; [reflexivity|].
  intros H. apply andb_prop in H as [Hc Hs]. unfold dot in Hc.
  apply negb_true_iff in Hc. rewrite Hc. now rewrite IH.
Qed.

(** Behind a delimiter, a text without line feed holds no line that
    begins with the delimiter. *)
Lemma no_line_behind d tail : all_in dot tail = true -> ~ has_line d (d ++ tail).
Proof.
  intros Htail (pre & x & post & E & _).
  apply (f_equal line_feeds) in E.
  rewrite !line_feeds_append in E. simpl in E.
  rewrite (line_feeds_dot _ Htail) in E. lia.
Qed.

Lemma starts_with_more : forall d a b,
    starts_with d a = true -> starts_with d (a ++ b) = true.
Proof.
  induction d as [|c d IH]; intros a b H; [reflexivity|].
  destruct a as [|x a]; [discriminate|]. simpl in *.
  apply andb_prop in H as [-> H]. simpl. now apply IH.
Qed.

Lemma first_line_feed : forall r,
    0 < line_feeds r ->
    exists v post, r = v ++ String nl post /\ all_in dot v = true.
Proof.
  induction r as [|c r IH]; simpl; intros H; [lia|].
  destruct (Ascii.eqb c nl) eqn:E.
  - apply Ascii.eqb_eq in E. subst c. exists EmptyString, r. auto.
  - destruct IH as (v & post & -> & Hv); [lia|].
    exists (String c v), post. split; [reflexivity|].
    simpl. unfold dot at 1. now rewrite E, Hv.
Qed.

(** A text with a line that carries the label has a first occurrence of
    the label, and that occurrence has a line end behind it. *)
Lemma first_labelled_line d : forall t,
    has_line d t ->
    exists pre v post,
      t = pre ++ d ++ v ++ String nl post /\ all_in dot v = true /\
      (forall u w, pre = u ++ w -> w <> EmptyString ->
                   starts_with d (w ++ d) = false).
Proof.
  induction t as [|c t IH]; intros (pre0 & x & post0 & E & Hx).
  - exfalso. apply (f_equal String.length) in E.
    rewrite !length_append in E. simpl in E. lia.
  - destruct (starts_with d (String c t)) eqn:Hs.
    + apply starts_with_inv in Hs as [r Hr].
      destruct (first_line_feed r) as (v & post & -> & Hv).
      { pose proof (f_equal line_feeds E) as El. rewrite Hr in El.
        rewrite !line_feeds_append in El. simpl in El. lia. }
      exists EmptyString, v, post. split; [exact Hr|]. split; [exact Hv|].
      intros u w Eu Hw. destruct u; [simpl in Eu; congruence | discriminate].
    + destruct pre0 as [|c0 p]; simpl in E.
      { rewrite E, starts_with_append in Hs. discriminate. }
      injection E as <- E.
      destruct IH as (pre & v & post & Et & Hv & Hclear).
      { exists p, x, post0. auto. }
      exists (String c pre), v, post. split; [simpl; now rewrite <- Et|].
      split; [exact Hv|].
      intros u w Eu Hw. destruct u as [|a u]; simpl in Eu.
      * subst w. destruct (starts_with d (String c pre ++ d)) eqn:Hd; [|reflexivity].
        apply (starts_with_more _ _ (v ++ String nl post)) in Hd.
        rewrite append_assoc in Hd. simpl in Hd. rewrite <- Et in Hd.
        simpl in Hs. congruence.
      * injection Eu as _ Eu. exact (Hclear u w Eu Hw).
Qed.

(** X18.  With [name_ret], [separate_students] returns the names beside
    the transcripts, of which there is one for each occurrence of the
    delimiter.  When an occurrence of the delimiter has a line end
    behind it, the first occurrence has one, and the names are: what
    stands between the first occurrence and the end of its line, then
    the names of the text behind that line; when no occurrence has a
    line end behind it, and only then, there is no name.  A name holds no
    line feed and stands in the text between the delimiter and a line
    feed.  There are no more names than transcripts, and there can be
    fewer: a text that begins with the delimiter and holds no line feed
    behind it has a transcript and no name. *)
Theorem separate_students_names_list text d :
  unbordered d = true ->
  let transcripts := fst (separate_students_names text d) in
  let names := snd (separate_students_names text d) in
  List.length transcripts = occurrences d text /\
  List.length names <= List.length transcripts /\
  (forall pre v post,
      text = pre ++ d ++ v ++ String nl post ->
      all_in dot v = true ->
      (forall u w, pre = u ++ w -> w <> EmptyString ->
                   starts_with d (w ++ d) = false) ->
      names = v :: snd (separate_students_names post d)) /\
  (has_line d text ->
   exists pre v post,
     text = pre ++ d ++ v ++ String nl post /\ all_in dot v = true /\
     (forall u w, pre = u ++ w -> w <> EmptyString ->
                  starts_with d (w ++ d) = false)) /\
  (names = [] <-> ~ has_line d text) /\
  (forall name, In name names ->
                all_in dot name = true /\
                exists pre post, text = pre ++ d ++ name ++ String nl post) /\
  (forall tail,
      all_in dot tail = true ->
      snd (separate_students_names (d ++ tail) d) = [] /\
      1 <= List.length (fst (separate_students_names (d ++ tail) d))).
Proof.
  intros Hd transcripts names.
  assert (Hlen : forall t, List.length (fst (separate_students_names t d))
                           = occurrences d t).
  { intros t. exact (separate_students_length t d Hd). }
  split; [apply Hlen|]. split; [|split; [|split; [|split; [|split]]]].
  - unfold transcripts. rewrite Hlen.
    unfold names, separate_students_names, findall1, finditer. cbn [snd].
    rewrite length_map. apply scan_field_count.
  - intros pre v post -> Hv Hclear.
    unfold names, separate_students_names. cbn [snd].
    now apply field_scan_first.
  - apply first_labelled_line.
  - unfold names, separate_students_names. cbn [snd]. split.
    + intros Hnil Hline. now apply (field_found d text Hline).
    + apply field_scan_none.
  - intros name Hin.
    unfold names, separate_students_names, findall1, finditer in Hin. cbn [snd] in Hin.
    apply in_map_iff in Hin as (m & <- & Hm).
    destruct (scan_in _ (field_re_nullable d) _ _ _ Hm) as (M & u & v & Ht).
    destruct (matches_field _ _ _ M) as (x & Hx & -> & Hdot).
    cbn [nth]. split; [exact Hdot|].
    exists u, v. rewrite Ht at 1. rewrite Hx. now rewrite !append_assoc.
  - intros tail Htail. split.
    + unfold separate_students_names. cbn [snd].
      apply field_scan_none. now apply no_line_behind.
    + rewrite Hlen, (occurrences_skip d Hd). lia.
Qed.

Definition two_names : string :=
  lines ["Name : Bob Smith"; "Sex : M"] ++ "Name : Ann Lee".

Lemma separate_students_names_list_witness :
  let text := two_names in
  let d := "Name : " in
  let transcripts := fst (separate_students_names text d) in
  let names := snd (separate_students_names text d) in
  List.length transcripts = occurrences d text /\
  List.length names <= List.length transcripts /\
  (forall pre v post,
      text = pre ++ d ++ v ++ String nl post ->
      all_in dot v = true ->
      (forall u w, pre = u ++ w -> w <> EmptyString ->
                   starts_with d (w ++ d) = false) ->
      names = v :: snd (separate_students_names post d)) /\
  (has_line d text ->
   exists pre v post,
     text = pre ++ d ++ v ++ String nl post /\ all_in dot v = true /\
     (forall u w, pre = u ++ w -> w <> EmptyString ->
                  starts_with d (w ++ d) = false)) /\
  (names = [] <-> ~ has_line d text) /\
  (forall name, In name names ->
                all_in dot name = true /\
                exists pre post, text = pre ++ d ++ name ++ String nl post) /\
  (forall tail,
      all_in dot tail = true ->
      snd (separate_students_names (d ++ tail) d) = [] /\
      1 <= List.length (fst (separate_students_names (d ++ tail) d))).
Proof.
  exact (separate_students_names_list two_names "Name : " eq_refl).
Defined.

Example two_names_example :
  separate_students_names two_names "Name : "
  = (["Name : Bob Smith" ++ NL ++ "Sex : M" ++ NL; "Name : Ann Lee"], ["Bob Smith"]).
Proof. vm_compute. reflexivity. Qed.

(** ** The summaries in the rows *)

(** The summary columns of a subject. *)
Definition summary_cols (subj : string) : list string :=
  ["Num " ++ subj ++ "^ courses"; subj ++ "^ GPA"; "Num " ++ subj ++ "^ now"].

Lemma rmap_ext_ok {A B : Type} (f f' : A -> result B) :
  (forall x y, f x = Ok y -> f' x = Ok y) ->
  forall l ys, rmap f l = Ok ys -> rmap f' l = Ok ys.
Proof.
  intros Hf. induction l as [|x l IH]; intros ys H; cbn [rmap] in *; [exact H|].
  destruct (f x) as [y|] eqn:E; cbn [rbind] in H; [|discriminate].
  rewrite (Hf _ _ E). cbn [rbind].
  destruct (rmap f l) as [l'|]; cbn [rbind] in H; [|discriminate].
  now rewrite (IH _ eq_refl).
Qed.

Lemma py_getitem_extends c c' k v :
  extends c c' -> py_getitem c k = Ok v -> py_getitem c' k = Ok v.
Proof.
  unfold py_getitem. intros He H.
  destruct (Dict.get c k) as [x|] eqn:E; [|discriminate].
  now rewrite (He _ _ E).
Qed.

(** A summary that a credit table gives is the summary a larger table
    gives. *)
Lemma subj_summary_extends g subj grades c c' summary :
  extends c c' ->
  subj_summary g subj grades c = Ok summary ->
  subj_summary g subj grades c' = Ok summary.
Proof.
  intros He. unfold subj_summary.
  destruct (rfilter (counted g subj grades (Dict.mem (GPA_VAL g))) _) as [courses|];
    [|discriminate]. cbn [rbind].
  destruct (rmap (py_getitem c) courses) as [cs|] eqn:Ec; [|discriminate].
  rewrite (rmap_ext_ok (py_getitem c) (py_getitem c')
             (fun k v => py_getitem_extends c c' k v He) _ _ Ec).
  cbn [rbind].
  pose (weight := fun (table : dict float) (course : string) =>
                    grade <~ py_getitem grades course ;;
                    points <~ py_getitem (GPA_VAL g) grade ;;
                    x <~ py_getitem table course ;;
                    Ok (PrimFloat.mul points x)).
  change (match (ws <~ rmap (weight c) courses ;; _) with Ok _ => _ | Raise _ => _ end)
    || fold (weight c) (weight c').
  destruct (rmap (weight c) courses) as [ws|] eqn:Ew; [|discriminate].
  rewrite (rmap_ext_ok (weight c) (weight c')) with (ys := ws) (l := courses);
    [auto| |exact Ew].
  intros k w Hk. unfold weight in *.
  destruct (py_getitem grades k) as [grade|]; cbn [rbind] in *; [|discriminate].
  destruct (py_getitem (GPA_VAL g) grade) as [p|]; cbn [rbind] in *; [|discriminate].
  destruct (py_getitem c k) as [x|] eqn:Ex; cbn [rbind] in Hk; [|discriminate].
  now rewrite (py_getitem_extends _ _ _ _ He Ex).
Qed.

Lemma append_cancel_r : forall a b x : string, a ++ x = b ++ x -> a = b.
Proof.
  induction a as [|c a IH]; intros b x E; destruct b as [|c' b]; simpl in E.
  - reflexivity.
  - exfalso. apply (f_equal String.length) in E. simpl in E.
    rewrite length_append in E. lia.
  - exfalso. apply (f_equal String.length) in E. simpl in E.
    rewrite length_append in E. lia.
  - injection E as -> E. now rewrite (IH _ _ E).
Qed.

(** The three forms of the summary columns, each a text, a space and a
    last word. *)
Lemma summary_col_word subj k :
  In k (summary_cols subj) ->
  exists a w, k = a ++ " " ++ w /\ has_space w = false /\ course_number w = false /\
              ((a = "Num " ++ subj ++ "^" /\ (w = "courses" \/ w = "now"))
               \/ (a = subj ++ "^" /\ w = "GPA")).
Proof.
  intros [<-|[<-|[<-|[]]]].
  - exists ("Num " ++ subj ++ "^"), "courses". rewrite !append_assoc. auto 10.
  - exists (subj ++ "^"), "GPA". rewrite !append_assoc. auto 10.
  - exists ("Num " ++ subj ++ "^"), "now". rewrite !append_assoc. auto 10.
Qed.

Lemma summary_col_space subj k : In k (summary_cols subj) -> has_space k = true.
Proof.
  intros H. destruct (summary_col_word _ _ H) as (a & w & -> & _).
  rewrite has_space_append. simpl. apply orb_true_r.
Qed.

Lemma summary_col_not_course subj k subj' :
  In k (summary_cols subj) -> ~ course_key [subj'] k.
Proof.
  intros H (s & n & _ & E & Hn).
  destruct (summary_col_word _ _ H) as (a & w & -> & Hw & Hc & _).
  apply last_space_unique in E as [_ ->]; auto using course_number_no_space.
  congruence.
Qed.

Lemma summary_nodup subj (a b c d : value) :
  NoDup (Dict.keys (dict_of [("Num " ++ subj ++ "^ courses", a);
                             ("Num " ++ subj ++ "^ creds", b);
                             (subj ++ "^ GPA", c);
                             ("Num " ++ subj ++ "^ now", d)])).
Proof.
  rewrite summary_keys.
  assert (Hlen : forall x y : string, String.length x <> String.length y -> x <> y)
    by (intros x y Hne E; apply Hne; now rewrite E).
  apply NoDup_cons.
  { simpl. intros [E|[E|[E|[]]]]; revert E; apply Hlen;
      simpl; rewrite ?length_append; simpl; lia. }
  apply NoDup_cons.
  { simpl. intros [E|[E|[]]]; revert E; apply Hlen;
      simpl; rewrite ?length_append; simpl; lia. }
  apply NoDup_cons.
  { simpl. intros [E|[]]; revert E; apply Hlen;
      simpl; rewrite ?length_append; simpl; lia. }
  apply NoDup_cons; [intros [] | apply NoDup_nil].
Qed.

(** The summary columns of a subject are entries of the summary of no
    other subject. *)
Lemma summary_col_other subj subj' k :
  subj' <> subj -> In k (summary_cols subj) ->
  ~ In k ["Num " ++ subj' ++ "^ courses"; "Num " ++ subj' ++ "^ creds";
          subj' ++ "^ GPA"; "Num " ++ subj' ++ "^ now"].
Proof.
  intros Hne Hk Hin.
  assert (Hin' : exists a' w', k = a' ++ " " ++ w' /\ has_space w' = false /\
                   ((a' = "Num " ++ subj' ++ "^"
                     /\ (w' = "courses" \/ w' = "creds" \/ w' = "now"))
                    \/ (a' = subj' ++ "^" /\ w' = "GPA"))).
  { destruct Hin as [<-|[<-|[<-|[<-|[]]]]].
    - exists ("Num " ++ subj' ++ "^"), "courses". rewrite !append_assoc. auto 10.
    - exists ("Num " ++ subj' ++ "^"), "creds". rewrite !append_assoc. auto 10.
    - exists (subj' ++ "^"), "GPA". rewrite !append_assoc. auto 10.
    - exists ("Num " ++ subj' ++ "^"), "now". rewrite !append_assoc. auto 10. }
  destruct Hin' as (a' & w' & E & Hw' & Hcase).
  destruct (summary_col_word _ _ Hk) as (a & w & -> & Hw & _ & Hform).
  apply last_space_unique in E as [Ea Ew]; auto.
  apply Hne.
  destruct Hform as [ [-> Hws] | [-> ->] ]; destruct Hcase as [ [-> Hws'] | [-> ->] ].
  - simpl in Ea. injection Ea as Ea. symmetry. exact (append_cancel_r _ _ _ Ea).
  - destruct Hws as [-> | ->]; discriminate.
  - destruct Hws' as [-> | [-> | ->] ]; discriminate.
  - symmetry. exact (append_cancel_r _ _ _ Ea).
Qed.

Lemma in_keys_get {V : Type} (d : dict V) k :
  In k (Dict.keys d) -> exists v, Dict.get d k = Some v.
Proof.
  induction d as [|[k0 v0] d IH]; simpl; [contradiction|].
  destruct (String.eqb_spec k0 k) as [->|Hne]; [eauto|].
  intros [E|Hin]; [congruence | auto].
Qed.

(** What one subject does to the summary entries of a subject in the
    record of a student. *)
Lemma record_subject_summary g transcript subj' d c d' c' subj :
  record_subject g transcript subj' d c = (Ok d', c') ->
  if String.eqb subj' subj
  then exists summary,
      subj_summary g subj (student_grades transcript subj) c' = Ok summary /\
      forall k, In k (summary_cols subj) -> Dict.get d' k = Dict.get summary k
  else forall k, In k (summary_cols subj) -> Dict.get d' k = Dict.get d k.
Proof.
  unfold record_subject, bind, read_creds, lift, ret. intros H.
  destruct (grades_of_subj transcript subj' c) as [[grades|] c1] eqn:E; [|discriminate].
  destruct (subj_summary g subj' grades c1) as [summary|] eqn:Es; [|discriminate].
  injection H as <- <-.
  assert (Hsum : exists a b x y,
             summary = dict_of [("Num " ++ subj' ++ "^ courses", a);
                                ("Num " ++ subj' ++ "^ creds", b);
                                (subj' ++ "^ GPA", x);
                                ("Num " ++ subj' ++ "^ now", y)]).
  { unfold subj_summary in Es.
    destruct (rfilter _ _) as [courses|]; [|discriminate]. cbn [rbind] in Es.
    destruct (rmap (py_getitem c1) courses) as [cs|]; [|discriminate].
    cbn [rbind] in Es.
    match type of Es with
    | context [rmap ?f courses] => destruct (rmap f courses) as [ws|]
    end; [|discriminate]. cbn [rbind] in Es.
    destruct (rfilter _ _) as [now|]; [|discriminate]. cbn [rbind] in Es.
    injection Es as <-. do 4 eexists. reflexivity. }
  destruct Hsum as (a & b & x & y & Hsum).
  assert (Hnd : NoDup (Dict.keys summary)) by (rewrite Hsum; apply summary_nodup).
  assert (Hkeys : Dict.keys summary
                  = ["Num " ++ subj' ++ "^ courses"; "Num " ++ subj' ++ "^ creds";
                     subj' ++ "^ GPA"; "Num " ++ subj' ++ "^ now"])
    by (rewrite Hsum; apply summary_keys).
  destruct (String.eqb_spec subj' subj) as [->|Hne].
  - exists summary. rewrite <- (grades_of_subj_student _ _ _ _ _ E).
    split; [exact Es|]. intros k Hk. rewrite get_update by exact Hnd.
    destruct (in_keys_get summary k) as [v ->]; [|reflexivity].
    rewrite Hkeys. unfold summary_cols in Hk. simpl in *. tauto.
  - intros k Hk. rewrite get_update_other.
    2:{ rewrite Hkeys. now apply (summary_col_other subj). }
    apply get_update_other. rewrite map_values_keys. intros Hin.
    rewrite grades_of_subj_lines in E.
    destruct (line_loop_course_keys _ _ _ _ _ _ E _ Hin) as [Hp|Hc].
    + unfold plan_dict in Hp. destruct (findall1 _ _); simpl in Hp; [contradiction|].
      destruct Hp as [<-|[]]. pose proof (summary_col_space _ _ Hk). discriminate.
    + exact (summary_col_not_course _ _ _ Hk Hc).
Qed.

Lemma subject_loop_untouched g transcript subj : forall subjects d c d' c',
    for_each subjects (record_subject g transcript) d c = (Ok d', c') ->
    ~ In subj subjects ->
    forall k, In k (summary_cols subj) -> Dict.get d' k = Dict.get d k.
Proof.
  induction subjects as [|s subjects IH]; intros d c d' c' H Hnot k Hk; simpl in H.
  - now injection H as <- _.
  - unfold bind in H.
    destruct (record_subject g transcript s d c) as [[d1|] c1] eqn:E; [|discriminate].
    rewrite (IH _ _ _ _ H) by (auto; intros Hin; apply Hnot; now right).
    pose proof (record_subject_summary _ _ _ _ _ _ _ subj E) as Hs.
    destruct (String.eqb_spec s subj) as [->|_]; [|now apply Hs].
    exfalso. apply Hnot. now left.
Qed.

(** The record of a student carries, for a subject, the entries of the
    summary that the credit table [table] gives for the grades of the
    student. *)
Definition summary_row (g : config) (table : dict float) (transcript : string)
           (data_dict : dict value) : Prop :=
  forall subj,
    In subj (SUBJECTS g) ->
    exists summary,
      subj_summary g subj (student_grades transcript subj) table = Ok summary /\
      forall k, In k (summary_cols subj) -> Dict.get data_dict k = Dict.get summary k.

Lemma subject_loop_summary g transcript subj : forall subjects d c d' c',
    for_each subjects (record_subject g transcript) d c = (Ok d', c') ->
    In subj subjects ->
    exists summary,
      subj_summary g subj (student_grades transcript subj) c' = Ok summary /\
      forall k, In k (summary_cols subj) -> Dict.get d' k = Dict.get summary k.
Proof.
  induction subjects as [|s subjects IH]; intros d c d' c' H Hin; [contradiction|].
  simpl in H. unfold bind in H.
  destruct (record_subject g transcript s d c) as [[d1|] c1] eqn:E; [|discriminate].
  destruct (in_dec string_dec subj subjects) as [Hrest|Hrest];
    [exact (IH _ _ _ _ H Hrest)|].
  destruct Hin as [->|Hin]; [|contradiction].
  pose proof (record_subject_summary _ _ _ _ _ _ _ subj E) as Hs.
  rewrite String.eqb_refl in Hs. destruct Hs as (summary & Hsum & Hget).
  exists summary. split.
  - apply (subj_summary_extends _ _ _ c1); [|exact Hsum].
    revert H. apply (respects_for_each extends extends_refl extends_trans).
    intros. apply record_subject_extends.
  - intros k Hk. rewrite (subject_loop_untouched _ _ _ _ _ _ _ _ H Hrest k Hk).
    now apply Hget.
Qed.

Lemma summary_row_extends g c c' transcript d :
  extends c c' -> summary_row g c transcript d -> summary_row g c' transcript d.
Proof.
  intros He H subj Hs. destruct (H subj Hs) as (summary & Hsum & Hget).
  exists summary. split; [|exact Hget]. eapply subj_summary_extends; eauto.
Qed.

Lemma records_summary g : forall transcripts records records' c c',
    for_each transcripts (record_transcript g) records c = (Ok records', c') ->
    exists new,
      records' = (records ++ new)%list /\ Forall2 (summary_row g c') transcripts new.
Proof.
  induction transcripts as [|t ts IH]; intros records records' c c' H; simpl in H.
  - injection H as <- _. exists []. split; [now rewrite app_nil_r | constructor].
  - unfold bind in H.
    destruct (record_transcript g t records c) as [[r1|] c1] eqn:E; [|discriminate].
    assert (Hrow : exists d, r1 = (records ++ [d])%list /\ summary_row g c1 t d).
    { unfold record_transcript, bind, lift, ret in E.
      destruct (personal_info t); [|discriminate].
      destruct (for_each (SUBJECTS g) _ _ c) as [[d|] c2] eqn:El; [|discriminate].
      injection E as <- <-. exists d. split; [reflexivity|].
      intros subj Hs. exact (subject_loop_summary _ _ _ _ _ _ _ _ El Hs). }
    destruct Hrow as (d & -> & Hd).
    destruct (IH _ _ _ _ H) as (new & -> & Hnew).
    exists (d :: new). split; [now rewrite <- app_assoc|].
    constructor; [|exact Hnew].
    apply (summary_row_extends g c1); [|exact Hd].
    revert H. apply (respects_for_each extends extends_refl extends_trans).
    intros. apply record_transcript_extends.
Qed.

(** X19.  In the table of [transcript_data], the cells of a student
    under the three summary columns of a subject of [SUBJECTS], the
    course count, the GPA and the in-progress count, are the entries of
    the summary that [subj_summary] gives for the grades of that student
    in the subject and the credit table as it is after the run: a credit
    that a later transcript adds changes no summary. *)
Theorem transcript_data_summaries g natsorted transcripts creds df creds' :
  transcript_data g natsorted transcripts creds = (Ok df, creds') ->
  Forall2 (fun transcript row =>
             forall subj,
               In subj (SUBJECTS g) ->
               exists summary,
                 subj_summary g subj (student_grades transcript subj) creds'
                 = Ok summary /\
                 forall col,
                   In col ["Num " ++ subj ++ "^ courses"; subj ++ "^ GPA";
                           "Num " ++ subj ++ "^ now"] ->
                   cell (df_columns df) row col = Dict.get summary col)
          transcripts (df_rows df).
Proof.
  unfold transcript_data, bind, read_creds, ret. intros H.
  destruct (for_each transcripts (record_transcript g) [] creds)
    as [[records|] c1] eqn:E; [|discriminate].
  injection H as <- <-. unfold make_frame. cbn [df_rows df_columns].
  destruct (records_summary _ _ _ _ _ _ E) as (new & -> & Hnew).
  match goal with
  | |- context [map (fun r => map (Dict.get r) ?cols) _] =>
      assert (Hcols : forall subj col,
                 In subj (SUBJECTS g) -> In col (summary_cols subj) -> In col cols);
        [|revert Hcols; generalize cols]
  end.
  { intros subj col Hs Hc. cbn [app In]. do 7 right. apply in_or_app. left.
    unfold subj_summ_cols. apply in_flat_map.
    exists subj. split; [exact Hs | exact Hc]. }
  intros columns Hcols.
  cbn [app]. clear E. induction Hnew as [|t d ts ds Hd _ IH]; [constructor|].
  cbn [map]. constructor; [|exact IH].
  intros subj Hs. destruct (Hd subj Hs) as (summary & Hsum & Hget).
  exists summary. split; [exact Hsum|].
  intros col Hc. rewrite cell_get by (eapply Hcols; eauto). now apply Hget.
Qed.

Lemma transcript_data_summaries_witness :
  Forall2 (fun transcript row =>
             forall subj,
               In subj (SUBJECTS globals) ->
               exists summary,
                 subj_summary globals subj (student_grades transcript subj)
                              [("MTH 9", 4%float); ("MTH 22", 3%float); ("PHY 3", 4%float)]
                 = Ok summary /\
                 forall col,
                   In col ["Num " ++ subj ++ "^ courses"; subj ++ "^ GPA";
                           "Num " ++ subj ++ "^ now"] ->
                   cell (df_columns sample_frame) row col = Dict.get summary col)
          [sample_transcript] (df_rows sample_frame).
Proof.
  apply (transcript_data_summaries globals (fun l => l) [sample_transcript] []
           sample_frame [("MTH 9", 4%float); ("MTH 22", 3%float); ("PHY 3", 4%float)]).
  vm_compute. reflexivity.
Defined.

Example sample_frame_summaries :
  map (fun row => map (cell (df_columns sample_frame) row)
                      ["Num MTH^ courses"; "MTH^ GPA"; "Num MTH^ now"; "Num MTH^ creds";
                       "Num PHY^ courses"; "PHY^ GPA"; "Num PHY^ now"])
      (df_rows sample_frame)
  = [[Some (VInt 1); Some (VFloat 3.333%float); Some (VInt 0); None;
      Some (VInt 0); Some (VFloat PrimFloat.nan); Some (VInt 0)]].
Proof. vm_compute. reflexivity. Qed.
